(** * Node resolution and backend-pool reconciliation of the Azure cloud provider

    A shallow embedding of the availability-set resolver
    ([pkg/provider/azure_standard.go], type [availabilitySet]) and of the
    flexible-scale-set resolver ([pkg/provider/azure_vmssflex.go], type
    [FlexScaleSet]), together with the properties of their identifier
    parsing, zone resolution and backend-pool reconciliation.

    Conventions of the embedding.
    - A Go [string] is a [string] of bytes.  Case folding ([strings.EqualFold],
      [strings.ToLower], the [(?i)] flag of [regexp]) is the ASCII one, which
      is what Go computes on ASCII text.
    - A Go pointer field is an [option]; dereferencing [None] is the run-time
      panic of Go and is tracked explicitly by the [Panic] outcome.
    - A Go function returning [(T, error)] returns the pair of its results,
      the error being an [option error] ([None] is [nil]).
    - The cloud is an explicit state: the network-interface store of the
      [InterfacesClient] and the log of the mutating calls made to it. *)

From Stdlib Require Import ZArith NArith Ascii String DecimalString.
From stdpp Require Import gmap strings list.

Set Warnings "-register-all".

Local Open Scope string_scope.

(** ** Go strings *)

Module strings.

(** ['A'..'Z'] mapped to ['a'..'z'], every other byte unchanged. *)
Definition lowerByte (c : ascii) : ascii :=
  let n := N_of_ascii c in
  if ((65 <=? n) && (n <=? 90))%N then ascii_of_N (n + 32) else c.

Fixpoint ToLower (s : string) : string :=
  match s with
  | EmptyString => EmptyString
  | String c s' => String (lowerByte c) (ToLower s')
  end.

(** [strings.EqualFold]: equality under case folding. *)
Fixpoint EqualFold (s t : string) : bool :=
  match s, t with
  | EmptyString, EmptyString => true
  | String a s', String b t' =>
      Ascii.eqb (lowerByte a) (lowerByte b) && EqualFold s' t'
  | _, _ => false
  end.

Fixpoint HasPrefix (s prefix : string) : bool :=
  match prefix, s with
  | EmptyString, _ => true
  | String p prefix', String c s' => Ascii.eqb p c && HasPrefix s' prefix'
  | String _ _, EmptyString => false
  end.

(** [s[n:]] for [n <= len(s)]. *)
Fixpoint drop (n : nat) (s : string) : string :=
  match n, s with
  | O, _ => s
  | S n', String _ s' => drop n' s'
  | S _, EmptyString => EmptyString
  end.

(** [strings.Split(s, sep)] for a non-empty [sep]: the pieces between the
    successive, non-overlapping occurrences of [sep], scanned from the
    left.  [skip] counts the bytes of a recognised separator still to be
    passed over, [cur] is the piece being read. *)
Fixpoint splitOn (s sep : string) (skip : nat) (cur : string) : list string :=
  match s with
  | EmptyString => [cur]
  | String c s' =>
      match skip with
      | S k => splitOn s' sep k cur
      | O =>
          if HasPrefix s sep
          then cur :: splitOn s' sep (String.length sep - 1) EmptyString
          else splitOn s' sep O (cur +:+ String c EmptyString)
      end
  end.

(** With the empty separator Go explodes the string into its characters
    (and the empty string into no piece at all). *)
Fixpoint explode (s : string) : list string :=
  match s with
  | EmptyString => []
  | String c s' => String c EmptyString :: explode s'
  end.

(** [strings.Replace(s, old, new, 1)] for a non-empty [old]. *)
Fixpoint Replace1 (s old new : string) : string :=
  match s with
  | EmptyString => EmptyString
  | String c s' =>
      if HasPrefix s old then new +:+ drop (String.length old) s
      else String c (Replace1 s' old new)
  end.

Definition Split (s sep : string) : list string :=
  match sep with
  | EmptyString => explode s
  | _ => splitOn s sep O EmptyString
  end.

(** ['a'..'z'] mapped to ['A'..'Z'], every other byte unchanged. *)
Definition upperByte (c : ascii) : ascii :=
  let n := N_of_ascii c in
  if ((97 <=? n) && (n <=? 122))%N then ascii_of_N (n - 32) else c.

Fixpoint ToUpper (s : string) : string :=
  match s with
  | EmptyString => EmptyString
  | String c s' => String (upperByte c) (ToUpper s')
  end.

(** [s[:n]] for [n <= len(s)]. *)
Fixpoint take (n : nat) (s : string) : string :=
  match n, s with
  | S n', String c s' => String c (take n' s')
  | _, _ => EmptyString
  end.

Definition HasSuffix (s suffix : string) : bool :=
  Nat.leb (String.length suffix) (String.length s)
  && String.eqb (drop (String.length s - String.length suffix) s) suffix.

Definition TrimSuffix (s suffix : string) : string :=
  if HasSuffix s suffix then take (String.length s - String.length suffix) s else s.

(** [strings.Replace(s, old, new, -1)] for a one-byte [old]. *)
Fixpoint ReplaceByte (s : string) (old : ascii) (new : string) : string :=
  match s with
  | EmptyString => EmptyString
  | String c s' =>
      if Ascii.eqb c old then new +:+ ReplaceByte s' old new
      else String c (ReplaceByte s' old new)
  end.

End strings.

(** ** Errors *)

Inductive sentinel : Set :=
| errNotInVMSet        (* errors.New("vm is not in the vmset") *)
| InstanceNotFound     (* cloudprovider.InstanceNotFound *)
| ErrorVmssIDIsEmpty.  (* errors.New("VMSS ID is empty") *)

Inductive error : Type :=
| Sentinel (s : sentinel)
| errorString (msg : string)                (* errors.New, fmt.Errorf without %w *)
| wrapError (msg : string) (cause : error)  (* fmt.Errorf with %w *)
| Aggregate (errs : list error).            (* utilerrors.Aggregate *)

Definition sentinel_eqb (a b : sentinel) : bool :=
  match a, b with
  | errNotInVMSet, errNotInVMSet
  | InstanceNotFound, InstanceNotFound
  | ErrorVmssIDIsEmpty, ErrorVmssIDIsEmpty => true
  | _, _ => false
  end.

(** [errors.Is(err, target)] for a sentinel target: the chain of wrapped
    causes is followed, an aggregate matches when one of its members does. *)
Fixpoint errors_Is (err : error) (target : sentinel) : bool :=
  match err with
  | Sentinel s => sentinel_eqb s target
  | errorString _ => false
  | wrapError _ cause => errors_Is cause target
  | Aggregate errs =>
      (fix any (l : list error) : bool :=
         match l with
         | [] => false
         | e :: l' => errors_Is e target || any l'
         end) errs
  end.

(** ** Outcomes: a value, or the panic of a nil dereference *)

Inductive outcome (A : Type) : Type :=
| Done (a : A)
| Panic.
Arguments Done {A} a.
Arguments Panic {A}.

Definition obind {A B} (m : outcome A) (k : A -> outcome B) : outcome B :=
  match m with
  | Done a => k a
  | Panic => Panic
  end.

(** [*p] *)
Definition deref {A} (p : option A) : outcome A :=
  match p with
  | Some a => Done a
  | None => Panic
  end.

(** ** The fragment of Go's [regexp] used by the identifier patterns

    The six patterns are concatenations of literal characters, the dot, the
    starred dot (also written as a non-capturing group), the capturing group
    of a dot with a plus, an optional leading caret or case-folding flag and
    an optional trailing dollar.  Matching is leftmost-first: the
    leftmost starting position that admits a match wins, and at that position
    the greedy operators prefer the longest repetition, as Go's engine does. *)

Module regexp.

Inductive inst : Set :=
| Lit (c : ascii)   (* a literal character *)
| AnyChar           (* dot: any character but a line feed *)
| AnyStar           (* starred dot: greedy, not capturing *)
| CapPlus           (* group of dot-plus: greedy, capturing *)
| EndText.          (* dollar *)

Record Regexp : Set := mkRegexp {
  foldCase : bool;      (* the case-folding flag *)
  beginText : bool;     (* a leading caret *)
  prog : list inst
}.

(** Parser of the pattern syntax. *)
Fixpoint parseProg (p : string) : list inst :=
  match p with
  | EmptyString => []
  | String "(" (String "?" (String ":" (String "." (String "*" (String ")" p'))))) =>
      AnyStar :: parseProg p'
  | String "(" (String "." (String "+" (String ")" p'))) => CapPlus :: parseProg p'
  | String "." (String "*" p') => AnyStar :: parseProg p'
  | String "." p' => AnyChar :: parseProg p'
  | String "$" EmptyString => [EndText]
  | String c p' => Lit c :: parseProg p'
  end.

Definition parseAnchor (fold : bool) (p : string) : Regexp :=
  match p with
  | String "^" p' => mkRegexp fold true (parseProg p')
  | _ => mkRegexp fold false (parseProg p)
  end.

Definition MustCompile (p : string) : Regexp :=
  match p with
  | String "(" (String "?" (String "i" (String ")" p'))) => parseAnchor true p'
  | _ => parseAnchor false p
  end.

Definition isLineFeed (c : ascii) : bool := Ascii.eqb c "010".

Definition litMatches (fold : bool) (l c : ascii) : bool :=
  if fold then Ascii.eqb (strings.lowerByte l) (strings.lowerByte c)
  else Ascii.eqb l c.

(** The greedy loop of a starred dot: pass over as many characters as
    possible, giving up one at a time until the rest of the program,
    [rest], matches. *)
Fixpoint starLoop {R} (rest : string -> nat -> option R) (s : string) (pos : nat) : option R :=
  match s with
  | String c s' =>
      if isLineFeed c then rest s pos
      else match starLoop rest s' (S pos) with
           | Some r => Some r
           | None => rest s pos
           end
  | EmptyString => rest s pos
  end.

(** [run fold p s pos caps]: match the program [p] against [s], the rest of
    the text from offset [pos] on; the answer is the offset where the match
    ends and the bounds of the capture groups, in order. *)
Fixpoint run (fold : bool) (p : list inst) (s : string) (pos : nat)
         (caps : list (nat * nat)) {struct p} : option (nat * list (nat * nat)) :=
  match p with
  | [] => Some (pos, caps)
  | Lit l :: p' =>
      match s with
      | String c s' => if litMatches fold l c then run fold p' s' (S pos) caps else None
      | EmptyString => None
      end
  | AnyChar :: p' =>
      match s with
      | String c s' => if isLineFeed c then None else run fold p' s' (S pos) caps
      | EmptyString => None
      end
  | AnyStar :: p' => starLoop (fun s1 pos1 => run fold p' s1 pos1 caps) s pos
  | CapPlus :: p' =>
      match s with
      | String c s' =>
          if isLineFeed c then None
          else starLoop (fun s1 pos1 => run fold p' s1 pos1 (caps ++ [(pos, pos1)])) s' (S pos)
      | EmptyString => None
      end
  | EndText :: p' =>
      match s with
      | EmptyString => run fold p' s pos caps
      | String _ _ => None
      end
  end.

(** The number of capture groups of a program. *)
Fixpoint groups (p : list inst) : nat :=
  match p with
  | [] => 0
  | CapPlus :: p' => S (groups p')
  | _ :: p' => groups p'
  end.

(** The leftmost starting offset with a match. *)
Fixpoint search (fold : bool) (p : list inst) (s : string) (pos : nat)
  : option (list (nat * nat)) :=
  match run fold p s pos [] with
  | Some (e, caps) => Some ((pos, e) :: caps)
  | None =>
      match s with
      | String _ s' => search fold p s' (S pos)
      | EmptyString => None
      end
  end.

(** [Regexp.FindStringSubmatchIndex], as a list of (begin, end) pairs:
    the whole match first, then the capture groups; [None] is no match. *)
Definition FindStringSubmatchIndex (re : Regexp) (s : string) : option (list (nat * nat)) :=
  if beginText re then
    match run (foldCase re) (prog re) s 0 [] with
    | Some (e, caps) => Some ((0, e) :: caps)
    | None => None
    end
  else search (foldCase re) (prog re) s 0.

(** [Regexp.FindStringSubmatch]: the matched texts; the nil slice
    stands for no match. *)
Definition FindStringSubmatch (re : Regexp) (s : string) : list string :=
  match FindStringSubmatchIndex re s with
  | Some idx => map (fun be => substring (fst be) (snd be - fst be) s) idx
  | None => []
  end.

End regexp.

Definition providerIDRE := regexp.MustCompile ".*/subscriptions/(?:.*)/Microsoft.Compute/virtualMachines/(.+)$".
Definition backendPoolIDRE := regexp.MustCompile "^/subscriptions/(?:.*)/resourceGroups/(?:.*)/providers/Microsoft.Network/loadBalancers/(.+)/backendAddressPools/(?:.*)".
Definition nicResourceGroupRE := regexp.MustCompile ".*/subscriptions/(?:.*)/resourceGroups/(.+)/providers/Microsoft.Network/networkInterfaces/(?:.*)".
Definition nicIDRE := regexp.MustCompile "(?i)/subscriptions/(?:.*)/resourceGroups/(.+)/providers/Microsoft.Network/networkInterfaces/(.+)/ipConfigurations/(?:.*)".
Definition vmIDRE := regexp.MustCompile "(?i)/subscriptions/(?:.*)/resourceGroups/(?:.*)/providers/Microsoft.Compute/virtualMachines/(.+)".
Definition vmasIDRE := regexp.MustCompile "/subscriptions/(?:.*)/resourceGroups/(?:.*)/providers/Microsoft.Compute/availabilitySets/(.+)".


(** ** Constants of the [consts] package and helpers of [autorest/to]

    The [consts] package is not part of the two resolver files; the values
    are those its names and the identifier formats of the provider spell
    out. *)

Module consts.
Definition NicFailedState : string := "Failed".
Definition ControlPlaneNodeRoleLabel : string := "node-role.kubernetes.io/control-plane".
Definition MasterNodeRoleLabel : string := "node-role.kubernetes.io/master".
Definition NodeLabelRole : string := "kubernetes.io/role".
(** [AvailabilitySetIDTemplate], applied to its three arguments. *)
Definition AvailabilitySetIDTemplate (subscriptionID resourceGroup name : string) : string :=
  "/subscriptions/" +:+ subscriptionID +:+ "/resourceGroups/" +:+ resourceGroup
    +:+ "/providers/Microsoft.Compute/availabilitySets/" +:+ name.
Definition InternalLoadBalancerNameSuffix : string := "-internal".
(** The longest name of a load-balancer rule and of a frontend IP
    configuration: 80 characters, as the comments of the functions that
    shorten the names say. *)
Definition LoadBalancerRuleNameMaxLength : Z := 80.
Definition FrontendIPConfigNameMaxLength : Z := 80.
(** [BackendPoolIDTemplate], applied to its four arguments. *)
Definition BackendPoolIDTemplate (subscriptionID resourceGroup lbName backendPoolName : string)
  : string :=
  "/subscriptions/" +:+ subscriptionID +:+ "/resourceGroups/" +:+ resourceGroup
    +:+ "/providers/Microsoft.Network/loadBalancers/" +:+ lbName
    +:+ "/backendAddressPools/" +:+ backendPoolName.
(** [MachineIDTemplate], applied to its three arguments. *)
Definition MachineIDTemplate (subscriptionID resourceGroup machineName : string) : string :=
  "/subscriptions/" +:+ subscriptionID +:+ "/resourceGroups/" +:+ resourceGroup
    +:+ "/providers/Microsoft.Compute/virtualMachines/" +:+ machineName.
End consts.

Module to.
Definition String (p : option string) : string := if p is Some s then s else "".
Definition Bool (p : option bool) : bool := if p is Some b then b else false.
Definition Int32 (p : option Z) : Z := if p is Some n then n else 0%Z.
End to.

(** ** [strconv] *)

Module strconv.

Definition digit (c : ascii) : option Z :=
  let n := N_of_ascii c in
  if ((48 <=? n) && (n <=? 57))%N then Some (Z.of_N (n - 48)) else None.

(** The value of a string of decimal digits, most significant first. *)
Fixpoint digits (s : string) (acc : Z) : option Z :=
  match s with
  | EmptyString => Some acc
  | String c s' =>
      match digit c with
      | Some d => digits s' (10 * acc + d)%Z
      | None => None
      end
  end.

Definition unsigned (s : string) : option Z :=
  match s with
  | EmptyString => None
  | _ => digits s 0%Z
  end.

(** [strconv.Atoi] on a 64-bit platform: an optional sign and at least
    one decimal digit; a value outside the [int] range is a range error. *)
Definition Atoi (s : string) : Z * option error :=
  let signed :=
    match s with
    | String "-" s' => option_map Z.opp (unsigned s')
    | String "+" s' => unsigned s'
    | _ => unsigned s
    end in
  match signed with
  | Some n =>
      if ((- 2 ^ 63 <=? n) && (n <=? 2 ^ 63 - 1))%Z then (n, None)
      else ((if (n <? 0) then - 2 ^ 63 else 2 ^ 63 - 1)%Z,
            Some (errorString ("strconv.Atoi: parsing " +:+ s +:+ ": value out of range")))
  | None => (0%Z, Some (errorString ("strconv.Atoi: parsing " +:+ s +:+ ": invalid syntax")))
  end.

(** [strconv.Itoa]: the decimal text of an integer. *)
Definition Itoa (n : Z) : string := NilZero.string_of_int (Z.to_int n).

End strconv.

(** ** The records of the Azure SDK that the resolvers read

    Only the fields the resolvers touch are kept.  Fields of one Go name in
    several structs carry the struct as a prefix. *)

Module compute.

Record SubResource : Set := { sub_ID : option string }.

Record NetworkInterfaceReferenceProperties : Set := { ref_Primary : option bool }.

Record NetworkInterfaceReference : Set := {
  ref_Properties : option NetworkInterfaceReferenceProperties;  (* embedded pointer *)
  ref_ID : option string
}.

Record NetworkProfile : Set := {
  NetworkInterfaces : option (list NetworkInterfaceReference)
}.

Record VirtualMachineInstanceView : Set := { PlatformFaultDomain : option Z }.

Record VirtualMachineProperties : Set := {
  vm_NetworkProfile : option NetworkProfile;
  AvailabilitySet : option SubResource;
  InstanceView : option VirtualMachineInstanceView
}.

Record VirtualMachine : Set := {
  vm_Properties : option VirtualMachineProperties;  (* embedded pointer *)
  vm_ID : option string;
  vm_Name : option string;
  Location : option string;
  Zones : option (list string)
}.

(** The zero value [compute.VirtualMachine{}]. *)
Definition emptyVirtualMachine : VirtualMachine :=
  {| vm_Properties := None; vm_ID := None; vm_Name := None; Location := None; Zones := None |}.

(** [compute.VirtualMachineScaleSetVM]: the resolvers of these two files
    only ever return the nil pointer to it. *)
Inductive VirtualMachineScaleSetVM : Set := .

End compute.

Module network.

(** A member of a pool's [BackendIPConfigurations] is read through its
    [ID] field only and is represented by that field. *)
Record BackendAddressPoolPropertiesFormat : Set := {
  BackendIPConfigurations : option (list (option string))
}.

Record BackendAddressPool : Set := {
  pool_Properties : option BackendAddressPoolPropertiesFormat;  (* embedded pointer *)
  pool_ID : option string
}.

Record InterfaceIPConfigurationPropertiesFormat : Set := {
  LoadBalancerBackendAddressPools : option (list BackendAddressPool);
  PrivateIPAddress : option string;
  PrivateIPAddressVersion : string;
  ipc_Primary : option bool
}.

Record InterfaceIPConfiguration : Set := {
  ipc_Properties : option InterfaceIPConfigurationPropertiesFormat;  (* embedded pointer *)
  ipc_ID : option string
}.

Record InterfacePropertiesFormat : Set := {
  VirtualMachine : option compute.SubResource;
  IPConfigurations : option (list InterfaceIPConfiguration);
  ProvisioningState : string
}.

Record Interface : Set := {
  nic_Properties : option InterfacePropertiesFormat;  (* embedded pointer *)
  nic_Name : option string;
  nic_ID : option string
}.

(** The zero value [network.Interface{}]. *)
Definition emptyInterface : Interface :=
  {| nic_Properties := None; nic_Name := None; nic_ID := None |}.

Definition IPVersionIPv4 : string := "IPv4".
Definition IPVersionIPv6 : string := "IPv6".

Record LoadBalancer : Set := { lb_Name : option string }.

Record SecurityRulePropertiesFormat : Set := { Priority : option Z }.

Record SecurityRule : Set := {
  rule_Properties : option SecurityRulePropertiesFormat  (* embedded pointer *)
}.

End network.

(** ** Kubernetes objects *)

Module v1.

Record Node : Set := {
  node_Name : string;
  Labels : list (string * string)   (* map[string]string *)
}.

Record Service : Set := {
  svc_Namespace : string;
  svc_Name : string;
  ClusterIP : string                (* service.Spec.ClusterIP *)
}.

End v1.

(** Lookup in a Go map given by its bindings. *)
Fixpoint mapLookup (m : list (string * string)) (k : string) : option string :=
  match m with
  | [] => None
  | (k', v) :: m' => if String.eqb k' k then Some v else mapLookup m' k
  end.

(** ** The cloud: configuration, read-only collaborators and state *)

Inductive AzureCacheReadType : Set :=
| CacheReadTypeDefault
| CacheReadTypeUnsafe.

(** The receiver [*Cloud] shared by both resolvers: its configuration and
    the methods the resolvers call that are defined in other files of the
    provider.  The latter only read the compute side of the cloud, which no
    operation of the resolvers writes, and are functions of their arguments. *)
Record Cloud : Type := {
  ResourceGroup : string;
  SubscriptionID : string;
  useStandardLoadBalancer : bool;
  EnableMultipleStandardLoadBalancers : bool;
  excludeMasterNodesFromStandardLB : bool;
  ipv6DualStackEnabled : bool;
  PrimaryAvailabilitySetName : string;      (* Config.PrimaryAvailabilitySetName *)
  PrimaryScaleSetName : string;             (* Config.PrimaryScaleSetName *)
  getVMSetNamesSharingPrimarySLB_Has : string -> bool;
  getVirtualMachine : string -> AzureCacheReadType -> compute.VirtualMachine * option error;
  GetVirtualMachineWithRetry : string -> AzureCacheReadType -> compute.VirtualMachine * option error;
  GetNodeResourceGroup : string -> string * option error;
  ShouldNodeExcludedFromLoadBalancer : string -> bool * option error;
  getNodeVmssFlexID : string -> string * option error;
  getVmssFlexVM : string -> AzureCacheReadType -> compute.VirtualMachine * option error;
  getNodeNameByVMName : string -> string * option error;
  mapNodeNameToVMName : string -> string;
  IsIPv6String : string -> bool;            (* utilnet.IsIPv6String *)
  (** the failures the network API answers with *)
  InterfacesClient_GetError : string -> string -> option error;
  InterfacesClient_CreateOrUpdateError : string -> string -> network.Interface -> option error
}.

(** Two more methods of [*Cloud] that are defined in other files of the
    provider and that the selection of the VM sets calls: the listing of the
    virtual machines of a resource group and the reading of the
    load-balancer mode annotation of a service, which answers
    [(hasMode, isAuto, vmSetNames)]. *)
Record CloudMethods : Type := {
  ListVirtualMachines : string -> list compute.VirtualMachine * option error;
  getServiceLoadBalancerMode : v1.Service -> bool * bool * string
}.

(** The state of the network API: the interfaces by resource group and
    name, and the [CreateOrUpdate] requests received so far (latest last). *)
Record World : Type := {
  nics : gmap (string * string) network.Interface;
  updates : list (string * string * network.Interface)
}.

(** Computations over the world that may panic. *)
Definition M (A : Type) : Type := World -> outcome (A * World).

Definition ret {A} (a : A) : M A := fun w => Done (a, w).

Definition bind {A B} (m : M A) (k : A -> M B) : M B :=
  fun w => match m w with
           | Done (a, w') => k a w'
           | Panic => Panic
           end.

Definition lift {A} (o : outcome A) : M A :=
  fun w => match o with
           | Done a => Done (a, w)
           | Panic => Panic
           end.

Declare Scope go_scope.
Delimit Scope go_scope with go.
Notation "'let*' x ':=' m 'in' k" := (bind m (fun x => k))
  (at level 10, x pattern, m at level 100, k at level 200) : go_scope.
Notation "'let!' x ':=' m 'in' k" := (obind m (fun x => k))
  (at level 10, x pattern, m at level 100, k at level 200) : go_scope.
Local Open Scope go_scope.

(** [InterfacesClient.Get(ctx, resourceGroup, name, "")] *)
Definition InterfacesClient_Get (az : Cloud) (resourceGroup name : string)
  : M (network.Interface * option error) :=
  fun w =>
    match InterfacesClient_GetError az resourceGroup name with
    | Some e => Done ((network.emptyInterface, Some e), w)
    | None =>
        match nics w !! (resourceGroup, name) with
        | Some nic => Done ((nic, None), w)
        | None => Done ((network.emptyInterface, Some (errorString "ResourceNotFound")), w)
        end
    end.

(** [InterfacesClient.CreateOrUpdate(ctx, resourceGroup, name, nic)] *)
Definition InterfacesClient_CreateOrUpdate (az : Cloud) (resourceGroup name : string)
           (nic : network.Interface) : M (option error) :=
  fun w =>
    let log := (updates w ++ [(resourceGroup, name, nic)])%list in
    match InterfacesClient_CreateOrUpdateError az resourceGroup name nic with
    | Some e => Done (Some e, {| nics := nics w; updates := log |})
    | None => Done (None, {| nics := <[(resourceGroup, name) := nic]> (nics w); updates := log |})
    end.

(** ** Resource Identifier Codec *)

(** returns the deepest child's identifier from a full identifier string. *)
Definition getLastSegment (ID separator : string) : outcome (string * option error) :=
  let parts := strings.Split ID separator in
  let! name := deref (last parts) in      (* parts[len(parts)-1] *)
  if Nat.eqb (String.length name) 0
  then Done ("", Some (errorString "resource name was missing from identifier"))
  else Done (name, None).

(** GetNodeNameByProviderID gets the node name by provider ID
    (availability-set resolver). *)
Definition GetNodeNameByProviderID (providerID : string) : string * option error :=
  let matches := regexp.FindStringSubmatch providerIDRE providerID in
  if negb (Nat.eqb (length matches) 2)
  then ("", Some (errorString "error splitting providerID"))
  else (nth 1 matches "", None).

(** extractResourceGroupByNicID extracts the resource group name by nicID. *)
Definition extractResourceGroupByNicID (nicID : string) : string * option error :=
  let matches := regexp.FindStringSubmatch nicResourceGroupRE nicID in
  if negb (Nat.eqb (length matches) 2)
  then ("", Some (errorString ("error of extracting resourceGroup from nicID " +:+ nicID)))
  else (nth 1 matches "", None).

Definition getAvailabilitySetNameByID (asID : string) : string * option error :=
  (* for standalone VM *)
  if String.eqb asID "" then ("", None)
  else
    let matches := regexp.FindStringSubmatch vmasIDRE asID in
    if negb (Nat.eqb (length matches) 2)
    then ("", Some (errorString ("getAvailabilitySetNameByID: failed to parse the VMAS ID " +:+ asID)))
    else
      let vmasName := nth 1 matches "" in
      (vmasName, None).

(** returns the full identifier of an availabilitySet *)
Definition getAvailabilitySetID (az : Cloud) (resourceGroup availabilitySetName : string) : string :=
  consts.AvailabilitySetIDTemplate (SubscriptionID az) resourceGroup availabilitySetName.

(** This returns a human-readable version of the Service used to tag some resources. *)
Definition getServiceName (service : v1.Service) : string :=
  v1.svc_Namespace service +:+ "/" +:+ v1.svc_Name service.

(** isControlPlaneNode returns true if the node has a control-plane role label. *)
Definition isControlPlaneNode (node : v1.Node) : bool :=
  if mapLookup (v1.Labels node) consts.ControlPlaneNodeRoleLabel is Some _ then true
  else if mapLookup (v1.Labels node) consts.MasterNodeRoleLabel is Some _ then true
  else if mapLookup (v1.Labels node) consts.NodeLabelRole is Some val
       then (if String.eqb val "master" then true else false)
  else false.

(** ** Primary interface and primary IP configuration *)

(** The loop of [getPrimaryInterfaceID] over the interface references. *)
Fixpoint firstPrimaryReference (refs : list compute.NetworkInterfaceReference)
  : outcome (option string) :=
  match refs with
  | [] => Done None
  | ref :: refs' =>
      let! props := deref (compute.ref_Properties ref) in   (* ref.Primary *)
      if to.Bool (compute.ref_Primary props)
      then let! id := deref (compute.ref_ID ref) in Done (Some id)
      else firstPrimaryReference refs'
  end.

(** This returns the full identifier of the primary NIC for the given VM. *)
Definition getPrimaryInterfaceID (machine : compute.VirtualMachine)
  : outcome (string * option error) :=
  let! props := deref (compute.vm_Properties machine) in
  let! profile := deref (compute.vm_NetworkProfile props) in
  let! refs := deref (compute.NetworkInterfaces profile) in
  if Nat.eqb (length refs) 1 then
    let! ref := deref (refs !! 0%nat) in
    let! id := deref (compute.ref_ID ref) in
    Done (id, None)
  else
    let! found := firstPrimaryReference refs in
    match found with
    | Some id => Done (id, None)
    | None =>
        let! name := deref (compute.vm_Name machine) in
        Done ("", Some (errorString ("failed to find a primary nic for the vm. vmname=" +:+ name)))
    end.

(** The loop of [getPrimaryIPConfig]; [i] is the index of the head of
    [configs] in the slice of the interface. *)
Fixpoint firstPrimaryIPConfig (configs : list network.InterfaceIPConfiguration) (i : nat)
  : outcome (option nat) :=
  match configs with
  | [] => Done None
  | ref :: configs' =>
      let! props := deref (network.ipc_Properties ref) in
      let! primary := deref (network.ipc_Primary props) in    (* *ref.Primary *)
      if primary then Done (Some i) else firstPrimaryIPConfig configs' (S i)
  end.

(** [getPrimaryIPConfig].  The pointer it returns is represented by the
    index of the configuration in [nic.IPConfigurations]: whether the Go
    pointer is to the element of the slice or to the copy of it in the loop
    variable, the properties it reaches are those of that element, the
    properties being held through a pointer that the copy shares. *)
Definition getPrimaryIPConfig (nic : network.Interface) : outcome (option nat * option error) :=
  let! props := deref (network.nic_Properties nic) in
  match network.IPConfigurations props with
  | None =>
      let! name := deref (network.nic_Name nic) in
      Done (None, Some (errorString ("nic.IPConfigurations for nic (nicname=" +:+ name +:+ ") is nil")))
  | Some configs =>
      if Nat.eqb (length configs) 1 then Done (Some 0%nat, None)
      else
        let! found := firstPrimaryIPConfig configs 0 in
        match found with
        | Some i => Done (Some i, None)
        | None =>
            let! name := deref (network.nic_Name nic) in
            Done (None, Some (errorString ("failed to determine the primary ipconfig. nicname=" +:+ name)))
        end
  end.

(** The loop of [getIPConfigByIPFamily]. *)
Fixpoint firstIPConfigOfVersion (configs : list network.InterfaceIPConfiguration)
         (ipVersion : string) (i : nat) : outcome (option nat) :=
  match configs with
  | [] => Done None
  | ref :: configs' =>
      let! props := deref (network.ipc_Properties ref) in
      if (if network.PrivateIPAddress props is Some _ then true else false)
           && String.eqb (network.PrivateIPAddressVersion props) ipVersion
      then Done (Some i)
      else firstIPConfigOfVersion configs' ipVersion (S i)
  end.

(** returns first ip configuration on a nic by family *)
Definition getIPConfigByIPFamily (nic : network.Interface) (IPv6 : bool)
  : outcome (option nat * option error) :=
  let! props := deref (network.nic_Properties nic) in
  match network.IPConfigurations props with
  | None =>
      let! name := deref (network.nic_Name nic) in
      Done (None, Some (errorString ("nic.IPConfigurations for nic (nicname=" +:+ name +:+ ") is nil")))
  | Some configs =>
      let ipVersion := if IPv6 then network.IPVersionIPv6 else network.IPVersionIPv4 in
      let! found := firstIPConfigOfVersion configs ipVersion 0 in
      match found with
      | Some i => Done (Some i, None)
      | None =>
          Done (None, Some (errorString ("failed to determine the ipconfig. nicname="
                                           +:+ to.String (network.nic_Name nic))))
      end
  end.

(** ** Collaborators of the reconciler that live in other files *)

(** Modelled from the spec: [isBackendPoolOnSameLB] of the load-balancer
    file is missing.  Two backend-pool IDs are on the same load balancer iff
    the load-balancer-name segments parsed out of them are equal up to case;
    an ID that does not parse is an error of the operation.  The answer
    carries the name of the first load balancer found to differ. *)
Fixpoint sameLBAsAll (newLBName : string) (existingBackendPools : list string)
  : bool * string * option error :=
  match existingBackendPools with
  | [] => (true, "", None)
  | backendPool :: rest =>
      let matches := regexp.FindStringSubmatch backendPoolIDRE backendPool in
      if negb (Nat.eqb (length matches) 2)
      then (false, "", Some (errorString ("existing backendPoolID is in wrong format " +:+ backendPool)))
      else
        let lbName := nth 1 matches "" in
        if negb (strings.EqualFold lbName newLBName) then (false, lbName, None)
        else sameLBAsAll newLBName rest
  end.

Definition isBackendPoolOnSameLB (newBackendPoolID : string) (existingBackendPools : list string)
  : bool * string * option error :=
  let matches := regexp.FindStringSubmatch backendPoolIDRE newBackendPoolID in
  if negb (Nat.eqb (length matches) 2)
  then (false, "", Some (errorString ("new backendPoolID is in wrong format " +:+ newBackendPoolID)))
  else sameLBAsAll (nth 1 matches "") existingBackendPools.

(** Modelled from the spec: [Cloud.CreateOrUpdateInterface] of the back-off
    file is missing.  It pushes the interface through the mutating call of
    the network API, under the resource group of the cloud and the name of
    the interface, as the updaters of [EnsureBackendPoolDeleted] do. *)
Definition CreateOrUpdateInterface (az : Cloud) (service : v1.Service) (nic : network.Interface)
  : M (option error) :=
  let* name := lift (deref (network.nic_Name nic)) in
  InterfacesClient_CreateOrUpdate az (ResourceGroup az) name nic.

(** Modelled from the spec: [Cloud.makeZone] of the zones file is missing.
    The zone number is recombined with the region into the provider zone
    string, region first, a hyphen between them. *)
Definition makeZone (az : Cloud) (location : string) (zoneID : Z) : string :=
  strings.ToLower location +:+ "-" +:+ strconv.Itoa zoneID.

Module utilerrors.

(** Modelled from the spec: [utilerrors.NewAggregate] is missing.  The
    errors collected make one aggregate error; no error at all makes nil. *)
Definition NewAggregate (errlist : list error) : option error :=
  match errlist with
  | [] => None
  | _ => Some (Aggregate errlist)
  end.

(** Modelled from the spec: [utilerrors.Flatten] is missing.  The errors
    of nested aggregates are flattened into one aggregate, in order. *)
Fixpoint flattenErrors (e : error) : list error :=
  match e with
  | Aggregate errs =>
      (fix all (l : list error) : list error :=
         match l with
         | [] => []
         | e' :: l' => (flattenErrors e' ++ all l')%list
         end) errs
  | _ => [e]
  end.

Definition Flatten (agg : error) : option error := NewAggregate (flattenErrors agg).

End utilerrors.

(** ** Concurrent Fan-Out Executor *)

Section FanOut.

Variable schedule : list (M (option error)) -> list (M (option error)).

(** Run the tasks in order, collecting the non-nil errors. *)
Fixpoint runTasks (tasks : list (M (option error))) (errs : list error) : M (list error) :=
  match tasks with
  | [] => ret errs
  | task :: tasks' =>
      let* err := task in
      runTasks tasks' (if err is Some e then (errs ++ [e])%list else errs)
  end.

(** Modelled from the spec: [utilerrors.AggregateGoroutines] is missing.  It
    starts one task per function, waits for all of them and aggregates the
    errors they returned.  A task of the reconciler reads the cloud and makes
    at most one mutating call; the tasks are run one after the other in the
    order [schedule] puts them in, which stands for the order in which the
    goroutines happen to run. *)
Definition AggregateGoroutines (funcs : list (M (option error))) : M (option error) :=
  let* errs := runTasks (schedule funcs) [] in
  ret (utilerrors.NewAggregate errs).

End FanOut.

(** ** The availability-set resolver *)

Module availabilitySet.

Definition GetPrimaryVMSetName (as_ : Cloud) : string := PrimaryAvailabilitySetName as_.

(** getPrimaryInterfaceWithVMSet gets machine primary network interface by
    node name and vmSet. *)
Definition getPrimaryInterfaceWithVMSet (as_ : Cloud) (nodeName vmSetName : string)
  : M (network.Interface * string * option error) :=
  let '(machine, err) := GetVirtualMachineWithRetry as_ nodeName CacheReadTypeDefault in
  if err is Some e then ret (network.emptyInterface, "", Some e) else
  let* (primaryNicID, err) := lift (getPrimaryInterfaceID machine) in
  if err is Some e then ret (network.emptyInterface, "", Some e) else
  let* (nicName, err) := lift (getLastSegment primaryNicID "/") in
  if err is Some e then ret (network.emptyInterface, "", Some e) else
  let '(nodeResourceGroup, err) := GetNodeResourceGroup as_ nodeName in
  if err is Some e then ret (network.emptyInterface, "", Some e) else
  (* machine.AvailabilitySet is read through the properties pointer, which
     is not nil here: getPrimaryInterfaceID went through it *)
  let* props := lift (deref (compute.vm_Properties machine)) in
  let* needCheck :=
    if negb (useStandardLoadBalancer as_) then ret true
    else if EnableMultipleStandardLoadBalancers as_ then
      match compute.AvailabilitySet props with
      | Some avset =>
          let* (vmasName, _) := lift (getLastSegment (to.String (compute.sub_ID avset)) "/") in
          if strings.EqualFold (GetPrimaryVMSetName as_) vmSetName
             && getVMSetNamesSharingPrimarySLB_Has as_ (strings.ToLower vmasName)
          then ret false
          else ret true
      | None => ret true
      end
    else ret false in
  let* notInSet :=
    if negb (String.eqb vmSetName "") && needCheck then
      let expectedAvailabilitySetID := getAvailabilitySetID as_ nodeResourceGroup vmSetName in
      match compute.AvailabilitySet props with
      | None => ret true
      | Some avset =>
          let* id := lift (deref (compute.sub_ID avset)) in
          ret (negb (strings.EqualFold id expectedAvailabilitySetID))
      end
    else ret false in
  if (notInSet : bool) then ret (network.emptyInterface, "", Some (Sentinel errNotInVMSet)) else
  let '(nicResourceGroup, err) := extractResourceGroupByNicID primaryNicID in
  if err is Some e then ret (network.emptyInterface, "", Some e) else
  let* (nic, rerr) := InterfacesClient_Get as_ nicResourceGroup nicName in
  if rerr is Some e then ret (network.emptyInterface, "", Some e) else
  let availabilitySetID :=
    match compute.vm_Properties machine with
    | Some props' =>
        if compute.AvailabilitySet props' is Some avset then to.String (compute.sub_ID avset) else ""
    | None => ""
    end in
  ret (nic, availabilitySetID, None).

(** The search of the requested pool in the membership list. *)
Fixpoint foundPoolIn (backendPoolID : string) (pools : list network.BackendAddressPool)
  : outcome bool :=
  match pools with
  | [] => Done false
  | existingPool :: pools' =>
      let! id := deref (network.pool_ID existingPool) in
      if strings.EqualFold backendPoolID id then Done true
      else foundPoolIn backendPoolID pools'
  end.

(** The IDs of the pools that carry one. *)
Fixpoint backendPoolIDs (pools : list network.BackendAddressPool) : list string :=
  match pools with
  | [] => []
  | pool :: pools' =>
      if network.pool_ID pool is Some id then id :: backendPoolIDs pools'
      else backendPoolIDs pools'
  end.

(** The properties reached through the pointer [primaryIPConfig]. *)
Definition ipConfigProperties (nic : network.Interface) (primaryIPConfig : option nat)
  : outcome network.InterfaceIPConfigurationPropertiesFormat :=
  let! i := deref primaryIPConfig in
  let! props := deref (network.nic_Properties nic) in
  let! configs := deref (network.IPConfigurations props) in
  let! config := deref (configs !! i) in
  deref (network.ipc_Properties config).

Definition withBackendPools (config : network.InterfaceIPConfiguration)
           (pools : list network.BackendAddressPool) : network.InterfaceIPConfiguration :=
  {| network.ipc_Properties :=
       option_map (fun props =>
         {| network.LoadBalancerBackendAddressPools := Some pools;
            network.PrivateIPAddress := network.PrivateIPAddress props;
            network.PrivateIPAddressVersion := network.PrivateIPAddressVersion props;
            network.ipc_Primary := network.ipc_Primary props |})
         (network.ipc_Properties config);
     network.ipc_ID := network.ipc_ID config |}.

Definition withIPConfigurations (nic : network.Interface)
           (configs : list network.InterfaceIPConfiguration) : network.Interface :=
  {| network.nic_Properties :=
       option_map (fun props =>
         {| network.VirtualMachine := network.VirtualMachine props;
            network.IPConfigurations := Some configs;
            network.ProvisioningState := network.ProvisioningState props |})
         (network.nic_Properties nic);
     network.nic_Name := network.nic_Name nic;
     network.nic_ID := network.nic_ID nic |}.

(** [primaryIPConfig.LoadBalancerBackendAddressPools = &pools], seen from
    [nic]: the configuration at index [i] of the interface now lists
    [pools]. *)
Definition setBackendPools (nic : network.Interface) (i : nat)
           (pools : list network.BackendAddressPool) : network.Interface :=
  match network.nic_Properties nic with
  | Some props =>
      match network.IPConfigurations props with
      | Some configs =>
          withIPConfigurations nic (alter (fun config => withBackendPools config pools) i configs)
      | None => nic
      end
  | None => nic
  end.

Definition hostResult : Type :=
  string * string * string * option compute.VirtualMachineScaleSetVM * option error.

Definition noHost (err : option error) : hostResult := ("", "", "", None, err).

(** EnsureHostInPool ensures the given VM's Primary NIC's Primary IP
    Configuration is participating in the specified LoadBalancer Backend
    Pool. *)
Definition EnsureHostInPool (as_ : Cloud) (service : v1.Service) (nodeName : string)
           (backendPoolID vmSetName : string) : M hostResult :=
  let vmName := mapNodeNameToVMName as_ nodeName in
  let* (nic, _, err) := getPrimaryInterfaceWithVMSet as_ vmName vmSetName in
  match err with
  | Some e =>
      if errors_Is e errNotInVMSet then ret (noHost None)
      else ret (noHost (Some e))
  | None =>
  let* nicProps := lift (deref (network.nic_Properties nic)) in
  if String.eqb (network.ProvisioningState nicProps) consts.NicFailedState
  then ret (noHost None) else
  let ipv6 := IsIPv6String as_ (v1.ClusterIP service) in
  let* (primaryIPConfig, err) :=
    lift (if negb (ipv6DualStackEnabled as_) && negb ipv6
          then getPrimaryIPConfig nic
          else getIPConfigByIPFamily nic ipv6) in
  if err is Some e then ret (noHost (Some e)) else
  let* configProps := lift (ipConfigProperties nic primaryIPConfig) in
  let newBackendPools := default [] (network.LoadBalancerBackendAddressPools configProps) in
  let* foundPool := lift (foundPoolIn backendPoolID newBackendPools) in
  if negb foundPool then
    let sameLB :=
      if useStandardLoadBalancer as_ && negb (Nat.eqb (length newBackendPools) 0) then
        (* the same network interface couldn't be added to more than one
           load balancer of the same type *)
        let newBackendPoolsIDs := backendPoolIDs newBackendPools in
        isBackendPoolOnSameLB backendPoolID newBackendPoolsIDs
      else (true, "", None) in
    let '(isSameLB, _, err) := sameLB in
    if err is Some e then ret (noHost (Some e)) else
    if negb isSameLB then ret (noHost None) else
    let newBackendPools :=
      (newBackendPools ++ [ {| network.pool_Properties := None;
                               network.pool_ID := Some backendPoolID |} ])%list in
    let nic := setBackendPools nic (default 0%nat primaryIPConfig) newBackendPools in
    let* nicName := lift (deref (network.nic_Name nic)) in
    let* err := CreateOrUpdateInterface as_ service nic in
    if err is Some e then ret (noHost (Some e)) else
    ret (noHost None)
  else ret (noHost None)
  end.

Section FanOut.

Variable schedule : list (M (option error)) -> list (M (option error)).

(** The task of one node. *)
Definition hostUpdate (as_ : Cloud) (service : v1.Service) (localNodeName : string)
           (backendPoolID vmSetName : string) : M (option error) :=
  let* (_, _, _, _, err) := EnsureHostInPool as_ service localNodeName backendPoolID vmSetName in
  if err is Some e
  then ret (Some (wrapError ("ensure(" +:+ getServiceName service +:+ "): backendPoolID("
                               +:+ backendPoolID +:+ ") - failed to ensure host in pool") e))
  else ret None.

(** The loop of [EnsureHostsInPool] that selects the nodes: the tasks
    queued, or the error that ends the call. *)
Fixpoint hostUpdates (as_ : Cloud) (service : v1.Service) (nodes : list v1.Node)
         (backendPoolID vmSetName : string) (queued : list (M (option error)))
  : list (M (option error)) + error :=
  match nodes with
  | [] => inl queued
  | node :: nodes' =>
      let localNodeName := v1.node_Name node in
      if useStandardLoadBalancer as_ && excludeMasterNodesFromStandardLB as_
         && isControlPlaneNode node
      then hostUpdates as_ service nodes' backendPoolID vmSetName queued
      else
        let '(shouldExcludeLoadBalancer, err) :=
          ShouldNodeExcludedFromLoadBalancer as_ localNodeName in
        if err is Some e then inr e
        else if shouldExcludeLoadBalancer
        then hostUpdates as_ service nodes' backendPoolID vmSetName queued
        else
          let f := hostUpdate as_ service localNodeName backendPoolID vmSetName in
          hostUpdates as_ service nodes' backendPoolID vmSetName (queued ++ [f])%list
  end.

(** EnsureHostsInPool ensures the given Node's primary IP configurations
    are participating in the specified LoadBalancer Backend Pool. *)
Definition EnsureHostsInPool (as_ : Cloud) (service : v1.Service) (nodes : list v1.Node)
           (backendPoolID vmSetName : string) : M (option error) :=
  match hostUpdates as_ service nodes backendPoolID vmSetName [] with
  | inr err => ret (Some err)
  | inl queued =>
      let* errs := AggregateGoroutines schedule queued in
      if errs is Some agg then ret (utilerrors.Flatten agg)
      else ret None
  end.

End FanOut.

(** GetNodeNameByIPConfigurationID gets the node name and the
    availabilitySet name by IP configuration ID. *)
Definition GetNodeNameByIPConfigurationID (as_ : Cloud) (ipConfigurationID : string)
  : M (string * string * option error) :=
  let matches := regexp.FindStringSubmatch nicIDRE ipConfigurationID in
  if negb (Nat.eqb (length matches) 3)
  then ret ("", "", Some (errorString ("invalid ip config ID " +:+ ipConfigurationID))) else
  let nicResourceGroup := nth 1 matches "" in
  let nicName := nth 2 matches "" in
  if String.eqb nicResourceGroup "" || String.eqb nicName ""
  then ret ("", "", Some (errorString ("invalid ip config ID " +:+ ipConfigurationID))) else
  let* (nic, rerr) := InterfacesClient_Get as_ nicResourceGroup nicName in
  if rerr is Some e
  then ret ("", "", Some (wrapError ("GetNodeNameByIPConfigurationID(" +:+ ipConfigurationID
                                      +:+ "): failed to get interface of name " +:+ nicName) e)) else
  let vmID :=
    match network.nic_Properties nic with
    | Some props =>
        if network.VirtualMachine props is Some vm then to.String (compute.sub_ID vm) else ""
    | None => ""
    end in
  if String.eqb vmID "" then ret ("", "", None) else
  let matches := regexp.FindStringSubmatch vmIDRE vmID in
  if negb (Nat.eqb (length matches) 2)
  then ret ("", "", Some (errorString ("invalid virtual machine ID " +:+ vmID))) else
  let vmName := nth 1 matches "" in
  let '(vm, err) := getVirtualMachine as_ vmName CacheReadTypeDefault in
  if err is Some e then ret ("", "", Some e) else
  let asID :=
    match compute.vm_Properties vm with
    | Some props =>
        if compute.AvailabilitySet props is Some avset then to.String (compute.sub_ID avset) else ""
    | None => ""
    end in
  if String.eqb asID "" then ret (vmName, "", None) else
  let '(asName, err) := getAvailabilitySetNameByID asID in
  if err is Some e
  then ret ("", "", Some (errorString ("cannot get the availability set name by the availability set ID "
                                        +:+ asID)))
  else ret (vmName, strings.ToLower asName, None).

(** The IP-configuration IDs listed by the pools named [backendPoolID]. *)
Fixpoint memberIDs (ipConfs : list (option string)) : list string :=
  match ipConfs with
  | [] => []
  | Some id :: ipConfs' => id :: memberIDs ipConfs'
  | None :: ipConfs' => memberIDs ipConfs'
  end.

Fixpoint ipConfigurationIDsOf (backendPoolID : string)
         (backendAddressPools : list network.BackendAddressPool) : list string :=
  match backendAddressPools with
  | [] => []
  | backendPool :: rest =>
      let here :=
        if strings.EqualFold (to.String (network.pool_ID backendPool)) backendPoolID then
          match network.pool_Properties backendPool with
          | Some props =>
              if network.BackendIPConfigurations props is Some ipConfs then memberIDs ipConfs else []
          | None => []
          end
        else [] in
      (here ++ ipConfigurationIDsOf backendPoolID rest)%list
  end.

(** The scan [for k := len - 1; k >= 0; k--] that drops the last pool
    named [backendPoolID]; [rpools] is the list in reverse. *)
Fixpoint dropFirstPool (backendPoolID : string) (rpools : list network.BackendAddressPool)
  : list network.BackendAddressPool :=
  match rpools with
  | [] => []
  | pool :: rpools' =>
      if strings.EqualFold (to.String (network.pool_ID pool)) backendPoolID then rpools'
      else pool :: dropFirstPool backendPoolID rpools'
  end.

Definition dropLastPool (backendPoolID : string) (pools : list network.BackendAddressPool)
  : list network.BackendAddressPool :=
  rev (dropFirstPool backendPoolID (rev pools)).

(** The loop over [newIPConfigs]: every configuration flagged primary that
    has a membership list loses the pool. *)
Fixpoint stripPool (backendPoolID : string) (configs : list network.InterfaceIPConfiguration)
  : outcome (list network.InterfaceIPConfiguration) :=
  match configs with
  | [] => Done []
  | ipConf :: configs' =>
      let! props := deref (network.ipc_Properties ipConf) in   (* ipConf.Primary *)
      let ipConf' :=
        if negb (to.Bool (network.ipc_Primary props)) then ipConf
        else
          match network.LoadBalancerBackendAddressPools props with
          | Some pools => withBackendPools ipConf (dropLastPool backendPoolID pools)
          | None => ipConf
          end in
      let! rest := stripPool backendPoolID configs' in
      Done (ipConf' :: rest)
  end.

(** How the loop over the member IDs ends: with a [return] of the whole
    call, or with the updaters and the errors gathered. *)
Inductive deletionScan : Type :=
| Returned (err : option error)
| Gathered (nicUpdaters : list (M (option error))) (allErrs : list error).

(** The updater closure of one interface. *)
Definition nicUpdater (as_ : Cloud) (nic : network.Interface) : M (option error) :=
  InterfacesClient_CreateOrUpdate as_ (ResourceGroup as_) (to.String (network.nic_Name nic)) nic.

Fixpoint scanMembers (as_ : Cloud) (backendPoolID vmSetName : string)
         (ipConfigurationIDs : list string)
         (nicUpdaters : list (M (option error))) (allErrs : list error) : M deletionScan :=
  match ipConfigurationIDs with
  | [] => ret (Gathered nicUpdaters allErrs)
  | ipConfigurationID :: rest =>
      let continue := scanMembers as_ backendPoolID vmSetName rest in
      let* (nodeName, _, err) := GetNodeNameByIPConfigurationID as_ ipConfigurationID in
      if (if err is Some e then negb (errors_Is e InstanceNotFound) else false)
      then continue nicUpdaters (allErrs ++ option_list err)%list else
      if String.eqb nodeName "" then continue nicUpdaters allErrs else
      let vmName := mapNodeNameToVMName as_ nodeName in
      let* (nic, vmasID, err) := getPrimaryInterfaceWithVMSet as_ vmName vmSetName in
      match err with
      | Some e =>
          if errors_Is e errNotInVMSet then ret (Returned None)
          else ret (Returned (Some e))
      | None =>
      let '(vmasName, err) := getAvailabilitySetNameByID vmasID in
      if err is Some e
      then ret (Returned (Some (wrapError ("EnsureBackendPoolDeleted: failed to parse the VMAS ID "
                                             +:+ vmasID) e))) else
      (* Only remove nodes belonging to specified vmSet to basic LB backends. *)
      if negb (strings.EqualFold vmasName vmSetName) then continue nicUpdaters allErrs else
      let* nicProps := lift (deref (network.nic_Properties nic)) in   (* nic.ProvisioningState *)
      if String.eqb (network.ProvisioningState nicProps) consts.NicFailedState
      then ret (Returned None) else
      match network.IPConfigurations nicProps with
      | Some newIPConfigs =>
          let* newIPConfigs := lift (stripPool backendPoolID newIPConfigs) in
          let nic := withIPConfigurations nic newIPConfigs in
          continue (nicUpdaters ++ [nicUpdater as_ nic])%list allErrs
      | None => continue nicUpdaters allErrs
      end
      end
  end.

Section FanOut.

Variable schedule : list (M (option error)) -> list (M (option error)).

(** EnsureBackendPoolDeleted ensures the loadBalancer backendAddressPools
    deleted from the specified nodes. *)
Definition EnsureBackendPoolDeleted (as_ : Cloud) (service : v1.Service)
           (backendPoolID vmSetName : string)
           (backendAddressPools : option (list network.BackendAddressPool))
           (deleteFromVMSet : bool) : M (option error) :=
  match backendAddressPools with
  | None => ret None    (* Returns nil if backend address pools already deleted. *)
  | Some pools =>
      let ipConfigurationIDs := ipConfigurationIDsOf backendPoolID pools in
      let* scan := scanMembers as_ backendPoolID vmSetName ipConfigurationIDs [] [] in
      match scan with
      | Returned err => ret err
      | Gathered nicUpdaters allErrs =>
          let* errs := AggregateGoroutines schedule nicUpdaters in
          if errs is Some agg then ret (utilerrors.Flatten agg) else
          (* Fail if there are other errors. *)
          if negb (Nat.eqb (length allErrs) 0)
          then ret (if utilerrors.NewAggregate allErrs is Some agg
                    then utilerrors.Flatten agg else None)
          else ret None
      end
  end.

End FanOut.

Record Zone : Set := { FailureDomain : string; Region : string }.   (* cloudprovider.Zone *)

Definition emptyZone : Zone := {| FailureDomain := ""; Region := "" |}.

(** GetZoneByNodeName gets availability zone for the specified node. If the
    node is not running with availability zone, then it returns fault
    domain. *)
Definition GetZoneByNodeName (as_ : Cloud) (name : string) : outcome (Zone * option error) :=
  let '(vm, err) := getVirtualMachine as_ name CacheReadTypeUnsafe in
  if err is Some e then Done (emptyZone, Some e) else
  let! failureDomain :=
    match compute.Zones vm with
    | Some (zone0 :: _ as zones) =>
        (* Get availability zone for the node. *)
        let '(zoneID, err) := strconv.Atoi zone0 in
        if err is Some e then Done (inr (wrapError "failed to parse zone" e))
        else Done (inl (makeZone as_ (to.String (compute.Location vm)) zoneID))
    | _ =>
        (* Availability zone is not used for the node, falling back to fault domain. *)
        let! props := deref (compute.vm_Properties vm) in
        let! view := deref (compute.InstanceView props) in
        Done (inl (strconv.Itoa (to.Int32 (compute.PlatformFaultDomain view))))
    end in
  match failureDomain with
  | inr e => Done (emptyZone, Some e)
  | inl failureDomain =>
      Done ({| FailureDomain := strings.ToLower failureDomain;
               Region := strings.ToLower (to.String (compute.Location vm)) |}, None)
  end.

(** GetPrimaryInterface gets machine primary network interface by node name. *)
Definition GetPrimaryInterface (as_ : Cloud) (nodeName : string)
  : M (network.Interface * option error) :=
  let* (nic, _, err) := getPrimaryInterfaceWithVMSet as_ nodeName "" in
  ret (nic, err).

(** The loop of [GetPrivateIPsByNodeName] over the IP configurations. *)
Fixpoint appendPrivateIPs (configs : list network.InterfaceIPConfiguration) (ips : list string)
  : outcome (list string) :=
  match configs with
  | [] => Done ips
  | ipConfig :: configs' =>
      let! props := deref (network.ipc_Properties ipConfig) in
      appendPrivateIPs configs'
        (if network.PrivateIPAddress props is Some ip then (ips ++ [ip])%list else ips)
  end.

(** returns a list of private ips assigned to node *)
Definition GetPrivateIPsByNodeName (as_ : Cloud) (name : string)
  : M (list string * option error) :=
  let ips := [] in
  let* (nic, err) := GetPrimaryInterface as_ name in
  if err is Some e then ret (ips, Some e) else
  let* props := lift (deref (network.nic_Properties nic)) in
  match network.IPConfigurations props with
  | None =>
      let* nicName := lift (deref (network.nic_Name nic)) in
      ret (ips, Some (errorString ("nic.IPConfigurations for nic (nicname=" +:+ nicName
                                     +:+ ") is nil")))
  | Some configs =>
      let* ips := lift (appendPrivateIPs configs ips) in
      ret (ips, None)
  end.

(** The first loop of [getAgentPoolAvailabilitySets]: the availability-set
    ID of the machines that have one, by machine name. *)
Fixpoint availabilitySetIDsByName (vms : list compute.VirtualMachine)
         (vmNameToAvailabilitySetID : gmap string string) : outcome (gmap string string) :=
  match vms with
  | [] => Done vmNameToAvailabilitySetID
  | vm :: vms' =>
      let! props := deref (compute.vm_Properties vm) in
      match compute.AvailabilitySet props with
      | Some avset =>
          let! name := deref (compute.vm_Name vm) in
          let! id := deref (compute.sub_ID avset) in
          availabilitySetIDsByName vms' (<[name := id]> vmNameToAvailabilitySetID)
      | None => availabilitySetIDsByName vms' vmNameToAvailabilitySetID
      end
  end.

(** Its second loop, over the nodes. *)
Fixpoint agentPoolSetsOf (vmNameToAvailabilitySetID : gmap string string)
         (nodes : list v1.Node) (agentPoolAvailabilitySets : list string)
  : outcome (option (list string) * option error) :=
  match nodes with
  | [] => Done (Some agentPoolAvailabilitySets, None)
  | node :: nodes' =>
      let nodeName := v1.node_Name node in
      if isControlPlaneNode node
      then agentPoolSetsOf vmNameToAvailabilitySetID nodes' agentPoolAvailabilitySets
      else
        match vmNameToAvailabilitySetID !! nodeName with
        | None => agentPoolSetsOf vmNameToAvailabilitySetID nodes' agentPoolAvailabilitySets
        | Some asID =>
            let! (asName, err) := getLastSegment asID "/" in
            if err is Some e then Done (None, Some e) else
            (* AvailabilitySet ID is currently upper cased in a non-deterministic way
               We want to keep it lower case, before the ID get fixed *)
            let asName := strings.ToLower asName in
            agentPoolSetsOf vmNameToAvailabilitySetID nodes'
                            (agentPoolAvailabilitySets ++ [asName])%list
        end
  end.

(** getAgentPoolAvailabilitySets lists the virtual machines for the
    resource group and then builds a list of availability sets that match
    the nodes available to k8s. *)
Definition getAgentPoolAvailabilitySets (vms : list compute.VirtualMachine) (nodes : list v1.Node)
  : outcome (option (list string) * option error) :=
  let! vmNameToAvailabilitySetID := availabilitySetIDsByName vms ∅ in
  agentPoolSetsOf vmNameToAvailabilitySetID nodes [].

(** The search of [GetVMSetNames] for the VM set of the annotation. *)
Definition foundAmong (names : list string) (serviceVMSetName : string) : option string :=
  List.find (fun name => strings.EqualFold name serviceVMSetName) names.

(** GetVMSetNames selects all possible availability sets or scale sets
    (depending vmType configured) for service load balancer, if the service
    has no loadbalancer mode annotation returns the primary VMSet. If
    service annotation for loadbalancer exists then returns the eligible
    VMSet. The mode selection annotation would be ignored when using one SLB
    per cluster. *)
Definition GetVMSetNames (as_ : Cloud) (methods : CloudMethods) (service : v1.Service)
           (nodes : list v1.Node) : outcome (option (list string) * option error) :=
  let '(hasMode, isAuto, serviceAvailabilitySetName) :=
    getServiceLoadBalancerMode methods service in
  let useSingleSLB :=
    useStandardLoadBalancer as_ && negb (EnableMultipleStandardLoadBalancers as_) in
  if negb hasMode || useSingleSLB then
    (* no mode specified in service annotation or use single SLB mode
       default to PrimaryAvailabilitySetName *)
    Done (Some [PrimaryAvailabilitySetName as_], None)
  else
  let '(vms, err) := ListVirtualMachines methods (ResourceGroup as_) in
  if err is Some e then Done (None, Some e) else
  let! (availabilitySetNames, err) := getAgentPoolAvailabilitySets vms nodes in
  if err is Some e then Done (None, Some e) else
  let! names := deref availabilitySetNames in
  if Nat.eqb (length names) 0 then
    Done (None, Some (errorString ("no availability sets found for nodes, node count("
                                     +:+ strconv.Itoa (Z.of_nat (length nodes)) +:+ ")")))
  else
  if negb isAuto then
    match foundAmong names serviceAvailabilitySetName with
    | None =>
        Done (None, Some (errorString ("availability set (" +:+ serviceAvailabilitySetName
                                         +:+ ") - not found")))
    | Some _ => Done (Some [serviceAvailabilitySetName], None)
    end
  else Done (Some names, None).

End availabilitySet.

(** ** The flexible-scale-set resolver *)

Module FlexScaleSet.

Import availabilitySet.

Definition GetPrimaryVMSetName (fs : Cloud) : string := PrimaryScaleSetName fs.

(** getNodeVMSetName returns the vmss flex name by the node name. *)
Definition getNodeVmssFlexName (fs : Cloud) (nodeName : string) : outcome (string * option error) :=
  let '(vmssFlexID, err) := getNodeVmssFlexID fs nodeName in
  if err is Some e then Done ("", Some e) else
  let! (vmssFlexName, err) := getLastSegment vmssFlexID "/" in
  if err is Some e then Done ("", Some e) else
  Done (vmssFlexName, None).

(** GetNodeNameByProviderID gets the node name by provider ID. *)
Definition GetNodeNameByProviderID (fs : Cloud) (providerID : string) : string * option error :=
  let matches := regexp.FindStringSubmatch providerIDRE providerID in
  if negb (Nat.eqb (length matches) 2)
  then ("", Some (errorString "error splitting providerID")) else
  let '(nodeName, err) := getNodeNameByVMName fs (nth 1 matches "") in
  if err is Some e then ("", Some e) else
  (nodeName, None).

(** GetZoneByNodeName gets availability zone for the specified node. If the
    node is not running with availability zone, then it returns fault
    domain. *)
Definition GetZoneByNodeName (fs : Cloud) (name : string) : outcome (Zone * option error) :=
  let '(vm, err) := getVmssFlexVM fs name CacheReadTypeUnsafe in
  if err is Some e then Done (emptyZone, Some e) else
  let! failureDomain :=
    match compute.Zones vm with
    | Some (zone0 :: _ as zones) =>
        (* Get availability zone for the node. *)
        let '(zoneID, err) := strconv.Atoi zone0 in
        if err is Some e then Done (inr (wrapError "failed to parse zone" e))
        else Done (inl (makeZone fs (to.String (compute.Location vm)) zoneID))
    | _ =>
        let! props := deref (compute.vm_Properties vm) in
        match compute.InstanceView props with
        | Some view =>
            match compute.PlatformFaultDomain view with
            | Some _ =>
                (* Availability zone is not used for the node, falling back to fault domain. *)
                Done (inl (strconv.Itoa (to.Int32 (compute.PlatformFaultDomain view))))
            | None => Done (inr (errorString "failed to get zone info"))
            end
        | None => Done (inr (errorString "failed to get zone info"))
        end
    end in
  match failureDomain with
  | inr e => Done (emptyZone, Some e)
  | inl failureDomain =>
      Done ({| FailureDomain := strings.ToLower failureDomain;
               Region := strings.ToLower (to.String (compute.Location vm)) |}, None)
  end.

(** GetPrimaryInterface gets machine primary network interface by node name. *)
Definition GetPrimaryInterface (fs : Cloud) (nodeName : string)
  : M (network.Interface * option error) :=
  let '(machine, err) := getVmssFlexVM fs nodeName CacheReadTypeDefault in
  if err is Some e then ret (network.emptyInterface, Some e) else
  let* (primaryNicID, err) := lift (getPrimaryInterfaceID machine) in
  if err is Some e then ret (network.emptyInterface, Some e) else
  let* (nicName, err) := lift (getLastSegment primaryNicID "/") in
  if err is Some e then ret (network.emptyInterface, Some e) else
  let '(nicResourceGroup, err) := extractResourceGroupByNicID primaryNicID in
  if err is Some e then ret (network.emptyInterface, Some e) else
  let* (nic, rerr) := InterfacesClient_Get fs nicResourceGroup nicName in
  if rerr is Some e then ret (network.emptyInterface, Some e) else
  ret (nic, None).

Definition getNodeInformationByIPConfigurationID (fs : Cloud) (ipConfigurationID : string)
  : outcome (string * string * string * option error) :=
  let matches := regexp.FindStringSubmatch nicIDRE ipConfigurationID in
  if negb (Nat.eqb (length matches) 3)
  then Done ("", "", "", Some (errorString ("invalid ip config ID " +:+ ipConfigurationID))) else
  let nicResourceGroup := nth 1 matches "" in
  let nicName := nth 2 matches "" in
  if String.eqb nicResourceGroup "" || String.eqb nicName ""
  then Done ("", "", "", Some (errorString ("invalid ip config ID " +:+ ipConfigurationID))) else
  let vmName := strings.Replace1 nicName "-nic" "" in
  let '(nodeName, err) := getNodeNameByVMName fs vmName in
  if err is Some e
  then Done ("", "", "", Some (errorString ("failed to map VM Name to NodeName: VM Name " +:+ vmName))) else
  let! (vmssFlexName, err) := getNodeVmssFlexName fs nodeName in
  if err is Some e then Done ("", "", "", Some e) else
  Done (nodeName, strings.ToLower vmssFlexName, nicName, None).

(** EnsureHostInPool ensures the given VM's Primary NIC's Primary IP
    Configuration is participating in the specified LoadBalancer Backend
    Pool, which returns (resourceGroup, vmasName, instanceID, vmssVM, error). *)
Definition EnsureHostInPool (fs : Cloud) (service : v1.Service) (nodeName : string)
           (backendPoolID vmSetNameOfLB : string) : M hostResult :=
  let name := mapNodeNameToVMName fs nodeName in
  let* (vmssFlexName, err) := lift (getNodeVmssFlexName fs name) in
  if err is Some _ then ret (noHost None) else
  (* Check scale set name *)
  if negb (useStandardLoadBalancer fs)
  then ret (noHost (Some (errorString
              "EnsureHostInPool: VMSS Flex does not support Basic Load Balancer"))) else
  let needCheck :=
    if EnableMultipleStandardLoadBalancers fs then
      if strings.EqualFold (GetPrimaryVMSetName fs) vmSetNameOfLB
         && getVMSetNamesSharingPrimarySLB_Has fs (strings.ToLower vmssFlexName)
      then false else true
    else false in
  if negb (String.eqb vmSetNameOfLB "") && needCheck
     && negb (strings.EqualFold vmSetNameOfLB vmssFlexName)
  then ret (noHost (Some (Sentinel errNotInVMSet))) else
  let* (nic, err) := GetPrimaryInterface fs name in
  if err is Some e then ret (noHost (Some e)) else
  let* nicProps := lift (deref (network.nic_Properties nic)) in
  if String.eqb (network.ProvisioningState nicProps) consts.NicFailedState
  then ret (noHost None) else
  let ipv6 := IsIPv6String fs (v1.ClusterIP service) in
  let* (primaryIPConfig, err) :=
    lift (if negb (ipv6DualStackEnabled fs) && negb ipv6
          then getPrimaryIPConfig nic
          else getIPConfigByIPFamily nic ipv6) in
  if err is Some e then ret (noHost (Some e)) else
  let* configProps := lift (ipConfigProperties nic primaryIPConfig) in
  let newBackendPools := default [] (network.LoadBalancerBackendAddressPools configProps) in
  let* foundPool := lift (foundPoolIn backendPoolID newBackendPools) in
  (* The backendPoolID has already been found from existing LoadBalancerBackendAddressPools. *)
  if foundPool then ret (noHost None) else
  let sameLB :=
    if useStandardLoadBalancer fs && negb (Nat.eqb (length newBackendPools) 0) then
      let newBackendPoolsIDs := backendPoolIDs newBackendPools in
      isBackendPoolOnSameLB backendPoolID newBackendPoolsIDs
    else (true, "", None) in
  let '(isSameLB, _, err) := sameLB in
  if err is Some e then ret (noHost (Some e)) else
  if negb isSameLB then ret (noHost None) else
  let newBackendPools :=
    (newBackendPools ++ [ {| network.pool_Properties := None;
                             network.pool_ID := Some backendPoolID |} ])%list in
  let nic := setBackendPools nic (default 0%nat primaryIPConfig) newBackendPools in
  let* nicName := lift (deref (network.nic_Name nic)) in
  let* err := CreateOrUpdateInterface fs service nic in
  if err is Some e then ret (noHost (Some e)) else
  (* Get the node resource group. *)
  let '(nodeResourceGroup, err) := GetNodeResourceGroup fs name in
  if err is Some e then ret (noHost (Some e)) else
  ret (nodeResourceGroup, vmssFlexName, name, None, None).

Section FanOut.

Variable schedule : list (M (option error)) -> list (M (option error)).

(** [ensureVMSSFlexInPool] brings the scale sets themselves into the
    pool.  It works on the scale-set API alone, through helpers of other
    files of the provider, and is a parameter here. *)
Variable ensureVMSSFlexInPool :
  Cloud -> v1.Service -> list v1.Node -> string -> string -> M (option error).

(** The task of one node. *)
Definition hostUpdate (fs : Cloud) (service : v1.Service) (localNodeName : string)
           (backendPoolID vmSetNameOfLB : string) : M (option error) :=
  let* (_, _, _, _, err) := EnsureHostInPool fs service localNodeName backendPoolID vmSetNameOfLB in
  if err is Some e
  then ret (Some (wrapError ("ensure(" +:+ getServiceName service +:+ "): backendPoolID("
                               +:+ backendPoolID +:+ ") - failed to ensure host in pool") e))
  else ret None.

(** The loop of [EnsureHostsInPool] that selects the nodes. *)
Fixpoint hostUpdates (fs : Cloud) (service : v1.Service) (nodes : list v1.Node)
         (backendPoolID vmSetNameOfLB : string) (queued : list (M (option error)))
  : list (M (option error)) + error :=
  match nodes with
  | [] => inl queued
  | node :: nodes' =>
      let localNodeName := v1.node_Name node in
      if useStandardLoadBalancer fs && excludeMasterNodesFromStandardLB fs
         && isControlPlaneNode node
      then hostUpdates fs service nodes' backendPoolID vmSetNameOfLB queued
      else
        let '(shouldExcludeLoadBalancer, err) :=
          ShouldNodeExcludedFromLoadBalancer fs localNodeName in
        if err is Some e then inr e
        else if shouldExcludeLoadBalancer
        then hostUpdates fs service nodes' backendPoolID vmSetNameOfLB queued
        else
          let f := hostUpdate fs service localNodeName backendPoolID vmSetNameOfLB in
          hostUpdates fs service nodes' backendPoolID vmSetNameOfLB (queued ++ [f])%list
  end.

(** EnsureHostsInPool ensures the given Node's primary IP configurations
    are participating in the specified LoadBalancer Backend Pool. *)
Definition EnsureHostsInPool (fs : Cloud) (service : v1.Service) (nodes : list v1.Node)
           (backendPoolID vmSetNameOfLB : string) : M (option error) :=
  match hostUpdates fs service nodes backendPoolID vmSetNameOfLB [] with
  | inr err => ret (Some err)
  | inl queued =>
      let* errs := AggregateGoroutines schedule queued in
      if errs is Some agg then ret (utilerrors.Flatten agg) else
      let* err := ensureVMSSFlexInPool fs service nodes backendPoolID vmSetNameOfLB in
      if err is Some e then ret (Some e) else
      ret None
  end.

End FanOut.

(** EnsureBackendPoolDeleted ensures the loadBalancer backendAddressPools
    deleted from the specified nodes. *)
Definition EnsureBackendPoolDeleted (fs : Cloud) (service : v1.Service)
           (backendPoolID vmSetName : string)
           (backendAddressPools : option (list network.BackendAddressPool))
           (deleteFromVMSet : bool) : M (option error) :=
  ret None.

(** GetNodeVMSetName returns the availability set or vmss name by the node
    name.  It will return empty string when using standalone vms. *)
Definition GetNodeVMSetName (fs : Cloud) (node : v1.Node) : outcome (string * option error) :=
  getNodeVmssFlexName fs (v1.node_Name node).

(** The loop of [GetAgentPoolVMSetNames]. *)
Fixpoint vmSetNamesOf (fs : Cloud) (nodes : list v1.Node) (vmSetNames : list string)
  : outcome (list string) :=
  match nodes with
  | [] => Done vmSetNames
  | node :: nodes' =>
      let! (vmSetName, err) := GetNodeVMSetName fs node in
      if err is Some _ then vmSetNamesOf fs nodes' vmSetNames
      else vmSetNamesOf fs nodes' (vmSetNames ++ [vmSetName])%list
  end.

(** GetAgentPoolVMSetNames returns all vmSet names according to the nodes *)
Definition GetAgentPoolVMSetNames (fs : Cloud) (nodes : list v1.Node)
  : outcome (option (list string) * option error) :=
  let! vmSetNames := vmSetNamesOf fs nodes [] in
  Done (Some vmSetNames, None).

(** GetVMSetNames selects all possible availability sets or scale sets
    (depending vmType configured) for service load balancer. *)
Definition GetVMSetNames (fs : Cloud) (methods : CloudMethods) (service : v1.Service)
           (nodes : list v1.Node) : outcome (option (list string) * option error) :=
  let '(hasMode, isAuto, serviceVMSetName) := getServiceLoadBalancerMode methods service in
  let useSingleSLB :=
    useStandardLoadBalancer fs && negb (EnableMultipleStandardLoadBalancers fs) in
  if negb hasMode || useSingleSLB then
    (* no mode specified in service annotation or use single SLB mode
       default to PrimaryScaleSetName *)
    Done (Some [PrimaryScaleSetName fs], None)
  else
  let! (vmssFlexNames, err) := GetAgentPoolVMSetNames fs nodes in
  if err is Some e then Done (None, Some e) else
  let! names := deref vmssFlexNames in
  if negb isAuto then
    match foundAmong names serviceVMSetName with
    | None =>
        Done (None, Some (errorString ("scale set (" +:+ serviceVMSetName +:+ ") - not found")))
    | Some found => Done (Some [found], None)
    end
  else Done (Some names, None).

(** returns a slice of all private ips assigned to node (ipv6 and ipv4) *)
Definition GetPrivateIPsByNodeName (fs : Cloud) (name : string)
  : M (list string * option error) :=
  let ips := [] in
  let* (nic, err) := GetPrimaryInterface fs name in
  if err is Some e then ret (ips, Some e) else
  let* props := lift (deref (network.nic_Properties nic)) in
  match network.IPConfigurations props with
  | None =>
      let* nicName := lift (deref (network.nic_Name nic)) in
      ret (ips, Some (errorString ("nic.IPConfigurations for nic (nicname=" +:+ nicName
                                     +:+ ") is nil")))
  | Some configs =>
      let* ips := lift (appendPrivateIPs configs ips) in
      ret (ips, None)
  end.

(** GetNodeNameByIPConfigurationID gets the nodeName and vmSetName by IP
    configuration ID. *)
Definition GetNodeNameByIPConfigurationID (fs : Cloud) (ipConfigurationID : string)
  : outcome (string * string * option error) :=
  let! (nodeName, vmssFlexName, _, err) :=
    getNodeInformationByIPConfigurationID fs ipConfigurationID in
  if err is Some e then Done ("", "", Some e) else
  Done (nodeName, strings.ToLower vmssFlexName, None).

End FlexScaleSet.

(** ** A small cloud to evaluate the resolvers on *)

Module Fixture.

Definition service : v1.Service :=
  {| v1.svc_Namespace := "default"; v1.svc_Name := "web"; v1.ClusterIP := "10.0.0.10" |}.

Definition nicID (resourceGroup name : string) : string :=
  "/subscriptions/sub/resourceGroups/" +:+ resourceGroup
    +:+ "/providers/Microsoft.Network/networkInterfaces/" +:+ name.

Definition vmID (name : string) : string :=
  "/subscriptions/sub/resourceGroups/rg1/providers/Microsoft.Compute/virtualMachines/" +:+ name.

Definition poolID (lb pool : string) : string :=
  "/subscriptions/sub/resourceGroups/rg1/providers/Microsoft.Network/loadBalancers/" +:+ lb
    +:+ "/backendAddressPools/" +:+ pool.

Definition pool (id : string) : network.BackendAddressPool :=
  {| network.pool_Properties := None; network.pool_ID := Some id |}.

Definition ipConfig (primary : bool) (pools : list string) : network.InterfaceIPConfiguration :=
  {| network.ipc_Properties :=
       Some {| network.LoadBalancerBackendAddressPools := Some (map pool pools);
               network.PrivateIPAddress := Some "10.240.0.4";
               network.PrivateIPAddressVersion := network.IPVersionIPv4;
               network.ipc_Primary := Some primary |};
     network.ipc_ID := None |}.

Definition nicOf (name vmid state : string) (configs : list network.InterfaceIPConfiguration)
  : network.Interface :=
  {| network.nic_Properties :=
       Some {| network.VirtualMachine := Some {| compute.sub_ID := Some vmid |};
               network.IPConfigurations := Some configs;
               network.ProvisioningState := state |};
     network.nic_Name := Some name;
     network.nic_ID := Some (nicID "rg1" name) |}.

Definition nic (name vm state : string) (configs : list network.InterfaceIPConfiguration)
  : network.Interface :=
  nicOf name (vmID vm) state configs.

Definition vm (name : string) (avset : option string) (zones : option (list string))
           (view : option compute.VirtualMachineInstanceView) : compute.VirtualMachine :=
  {| compute.vm_Properties :=
       Some {| compute.vm_NetworkProfile :=
                 Some {| compute.NetworkInterfaces :=
                           Some [ {| compute.ref_Properties := None;
                                     compute.ref_ID := Some (nicID "rg1" (name +:+ "-nic")) |} ] |};
               compute.AvailabilitySet :=
                 option_map (fun s => {| compute.sub_ID :=
                   Some (consts.AvailabilitySetIDTemplate "sub" "rg1" s) |}) avset;
               compute.InstanceView := view |};
     compute.vm_ID := Some (vmID name);
     compute.vm_Name := Some name;
     compute.Location := Some "eastus";
     compute.Zones := zones |}.

(** The machines of the fixture: worker-0 and worker-1 in the availability
    set agentpool, worker-2 in another set, worker-3 being deleted (no
    instance view, interface in the failed state).  The interface stray-nic
    names its machine by a text that is no VM ID. *)
Definition machines : list (string * compute.VirtualMachine) :=
  [ ("worker-0", vm "worker-0" (Some "agentpool") (Some ["1"]) None);
    ("worker-1", vm "worker-1" (Some "agentpool") None
                    (Some {| compute.PlatformFaultDomain := Some 2%Z |}));
    ("worker-2", vm "worker-2" (Some "otherpool") None
                    (Some {| compute.PlatformFaultDomain := None |}));
    ("worker-3", vm "worker-3" (Some "agentpool") None None) ].

Fixpoint findMachine (l : list (string * compute.VirtualMachine)) (name : string)
  : compute.VirtualMachine * option error :=
  match l with
  | [] => (compute.emptyVirtualMachine, Some (Sentinel InstanceNotFound))
  | (n, m) :: l' => if String.eqb n name then (m, None) else findMachine l' name
  end.

Definition cloud (standard : bool) : Cloud :=
  {| ResourceGroup := "rg1";
     SubscriptionID := "sub";
     useStandardLoadBalancer := standard;
     EnableMultipleStandardLoadBalancers := false;
     excludeMasterNodesFromStandardLB := true;
     ipv6DualStackEnabled := false;
     PrimaryAvailabilitySetName := "agentpool";
     PrimaryScaleSetName := "agentpool";
     getVMSetNamesSharingPrimarySLB_Has := fun _ => false;
     getVirtualMachine := fun name _ => findMachine machines name;
     GetVirtualMachineWithRetry := fun name _ => findMachine machines name;
     GetNodeResourceGroup := fun _ => ("rg1", None);
     ShouldNodeExcludedFromLoadBalancer := fun name =>
       if String.eqb name "unsynced" then (false, Some (errorString "node informer is not synced"))
       else (String.eqb name "external", None);
     getNodeVmssFlexID := fun name =>
       if String.eqb name "worker-3" then ("", Some (Sentinel ErrorVmssIDIsEmpty))
       else ("/subscriptions/sub/resourceGroups/rg1/providers/Microsoft.Compute/virtualMachineScaleSets/agentpool", None);
     getVmssFlexVM := fun name _ => findMachine machines name;
     getNodeNameByVMName := fun name => (name, None);
     mapNodeNameToVMName := fun name => name;
     IsIPv6String := fun _ => false;
     InterfacesClient_GetError := fun _ _ => None;
     InterfacesClient_CreateOrUpdateError := fun _ _ _ => None |}.

(** A machine and an interface that list no interface and no IP
    configuration at all. *)
Definition bareMachine : compute.VirtualMachine :=
  {| compute.vm_Properties :=
       Some {| compute.vm_NetworkProfile := Some {| compute.NetworkInterfaces := Some [] |};
               compute.AvailabilitySet := None;
               compute.InstanceView := None |};
     compute.vm_ID := Some (vmID "bare");
     compute.vm_Name := Some "bare";
     compute.Location := Some "eastus";
     compute.Zones := None |}.

Definition bareInterface : network.Interface := nic "bare-nic" "bare" "Succeeded" [].

Definition ipConfigurationID (nicName : string) : string :=
  nicID "rg1" nicName +:+ "/ipConfigurations/ipconfig1".

Definition node (name : string) : v1.Node :=
  {| v1.node_Name := name; v1.Labels := [] |}.

Definition controlPlaneNode (name : string) : v1.Node :=
  {| v1.node_Name := name; v1.Labels := [(consts.ControlPlaneNodeRoleLabel, "")] |}.

(** The scale-set step of the flexible-scale-set resolver, succeeding. *)
Definition ensureVMSSFlexInPool (fs : Cloud) (service : v1.Service) (nodes : list v1.Node)
           (backendPoolID vmSetNameOfLB : string) : M (option error) :=
  ret None.

(** The nodes of a cluster: a control-plane node, three workers, a node in
    an external resource group and a node without a machine. *)
Definition clusterNodes : list v1.Node :=
  [controlPlaneNode "master-0"; node "worker-0"; node "external"; node "ghost"; node "worker-1"].

Definition lbA (p : string) : string := poolID "lb-a" p.
Definition lbB (p : string) : string := poolID "lb-b" p.

Definition world : World :=
  {| nics :=
       list_to_map
         [ (("rg1", "worker-0-nic"), nic "worker-0-nic" "worker-0" "Succeeded" [ipConfig true []]);
           (("rg1", "worker-1-nic"), nic "worker-1-nic" "worker-1" "Succeeded"
                                        [ipConfig true [lbA "pool-y"]]);
           (("rg1", "worker-2-nic"), nic "worker-2-nic" "worker-2" "Succeeded"
                                        [ipConfig true [lbA "pool-x"]]);
           (("rg1", "worker-3-nic"), nic "worker-3-nic" "worker-3" "Failed"
                                        [ipConfig true [lbA "pool-x"]]);
           (("rg1", "stray-nic"), nicOf "stray-nic" "worker-0" "Succeeded" [ipConfig true []]) ];
     updates := [] |}.

(** The backend pool pool-x of lb-a, with the IP configurations of the
    given interfaces as its members. *)
Definition memberPool (nicNames : list string) : network.BackendAddressPool :=
  {| network.pool_Properties :=
       Some {| network.BackendIPConfigurations :=
                 Some (map (fun name => Some (ipConfigurationID name)) nicNames) |};
     network.pool_ID := Some (lbA "pool-x") |}.

End Fixture.

(** ** Notions used to state the properties *)

(** Two texts agree on the range [be] of offsets. *)
Definition agreeOn (s s' : string) (be : nat * nat) : Prop :=
  substring (fst be) (snd be - fst be) s' = substring (fst be) (snd be - fst be) s.

(** The IP configuration the reconciler works on: the primary one, or the
    first one of the address family of the service. *)
Definition selectedIPConfig (az : Cloud) (service : v1.Service) (nic : network.Interface)
  : outcome (option nat * option error) :=
  let ipv6 := IsIPv6String az (v1.ClusterIP service) in
  if negb (ipv6DualStackEnabled az) && negb ipv6
  then getPrimaryIPConfig nic
  else getIPConfigByIPFamily nic ipv6.

(** The load-balancer-name segment of a backend-pool ID. *)
Definition lbNameOf (backendPoolID : string) : option string :=
  match regexp.FindStringSubmatch backendPoolIDRE backendPoolID with
  | [_; lbName] => Some lbName
  | _ => None
  end.

(** The pool is on a load balancer other than [newLBName]. *)
Definition onAnotherLoadBalancer (newLBName : string) (pool : network.BackendAddressPool) : Prop :=
  exists id lbName,
    network.pool_ID pool = Some id /\ lbNameOf id = Some lbName /\
    strings.EqualFold lbName newLBName = false.

(** The pool is the one named [backendPoolID], up to case. *)
Definition isPool (backendPoolID : string) (pool : network.BackendAddressPool) : Prop :=
  exists id, network.pool_ID pool = Some id /\ strings.EqualFold backendPoolID id = true.

Definition hasID (pool : network.BackendAddressPool) : Prop :=
  exists id, network.pool_ID pool = Some id.

(** [pools] is the membership list of the IP configuration, at index [i] of
    [nic], that the availability-set resolver selects for the node: the
    interface resolves, is not in the failed state, and the selection
    succeeds. *)
Definition asMembership (as_ : Cloud) (service : v1.Service) (nodeName vmSetName : string)
           (w : World) (nic : network.Interface) (i : nat)
           (pools : list network.BackendAddressPool) : Prop :=
  exists vmasID nicProps configProps,
    availabilitySet.getPrimaryInterfaceWithVMSet as_ (mapNodeNameToVMName as_ nodeName) vmSetName w
    = Done (nic, vmasID, None, w) /\
    network.nic_Properties nic = Some nicProps /\
    String.eqb (network.ProvisioningState nicProps) consts.NicFailedState = false /\
    selectedIPConfig as_ service nic = Done (Some i, None) /\
    availabilitySet.ipConfigProperties nic (Some i) = Done configProps /\
    default [] (network.LoadBalancerBackendAddressPools configProps) = pools.

(** The check of the scale-set name made by the flexible-scale-set
    resolver: the node is outside the scale set of the load balancer. *)
Definition outsideScaleSet (fs : Cloud) (vmSetNameOfLB vmssFlexName : string) : bool :=
  let needCheck :=
    if EnableMultipleStandardLoadBalancers fs then
      if strings.EqualFold (FlexScaleSet.GetPrimaryVMSetName fs) vmSetNameOfLB
         && getVMSetNamesSharingPrimarySLB_Has fs (strings.ToLower vmssFlexName)
      then false else true
    else false in
  negb (String.eqb vmSetNameOfLB "") && needCheck
  && negb (strings.EqualFold vmSetNameOfLB vmssFlexName).

(** The same for the flexible-scale-set resolver. *)
Definition fsMembership (fs : Cloud) (service : v1.Service) (nodeName vmSetNameOfLB : string)
           (w : World) (nic : network.Interface) (i : nat)
           (pools : list network.BackendAddressPool) : Prop :=
  exists vmssFlexName nicProps configProps,
    FlexScaleSet.getNodeVmssFlexName fs (mapNodeNameToVMName fs nodeName) = Done (vmssFlexName, None) /\
    outsideScaleSet fs vmSetNameOfLB vmssFlexName = false /\
    FlexScaleSet.GetPrimaryInterface fs (mapNodeNameToVMName fs nodeName) w = Done (nic, None, w) /\
    network.nic_Properties nic = Some nicProps /\
    String.eqb (network.ProvisioningState nicProps) consts.NicFailedState = false /\
    selectedIPConfig fs service nic = Done (Some i, None) /\
    availabilitySet.ipConfigProperties nic (Some i) = Done configProps /\
    default [] (network.LoadBalancerBackendAddressPools configProps) = pools.

(** The node is left out of the reconciliation: a control-plane node under
    the standard SKU when such nodes are to be excluded, or a node marked as
    excluded from load balancing. *)
Definition skipsControlPlane (az : Cloud) (node : v1.Node) : bool :=
  useStandardLoadBalancer az && excludeMasterNodesFromStandardLB az && isControlPlaneNode node.

Definition excludedFromLoadBalancer (az : Cloud) (node : v1.Node) : bool :=
  skipsControlPlane az node
  || fst (ShouldNodeExcludedFromLoadBalancer az (v1.node_Name node)).

(** The exclusion lookup is made for the node and fails. *)
Definition exclusionLookupFails (az : Cloud) (node : v1.Node) : bool :=
  negb (skipsControlPlane az node)
  && (if snd (ShouldNodeExcludedFromLoadBalancer az (v1.node_Name node)) is Some _ then true else false).

Definition processedNodes (az : Cloud) (nodes : list v1.Node) : list v1.Node :=
  filter (fun node => excludedFromLoadBalancer az node = false) nodes.

(** The tasks run in order, each with the answer it gave. *)
Fixpoint runEach (tasks : list (M (option error))) : M (list (option error)) :=
  match tasks with
  | [] => ret []
  | task :: tasks' =>
      let* err := task in
      let* errs := runEach tasks' in
      ret (err :: errs)
  end.

(** The errors among the answers. *)
Fixpoint failures (answers : list (option error)) : list error :=
  match answers with
  | [] => []
  | Some e :: answers' => e :: failures answers'
  | None :: answers' => failures answers'
  end.

(** An error that is no aggregate, as the tasks of the reconcilers return. *)
Definition plainError (e : error) : Prop :=
  match e with
  | Aggregate _ => False
  | _ => True
  end.

Definition answersPlainly (task : M (option error)) : Prop :=
  forall w e w', task w = Done (Some e, w') -> plainError e.


(** What [EnsureBackendPoolDeleted] of the availability-set resolver makes
    of a member of the pool: the node of the member cannot be looked up,
    there is no node behind it, the node is in another availability set, its
    interface has no IP configurations, or the interface is queued for an
    update, the pool taken out of it. *)
Inductive disposition : Type :=
| LookupFailed (e : error)
| NoNode
| OtherSet
| NoConfigurations
| Stripped (nic : network.Interface).

(** The member resolves to the node [nodeName]. *)
Definition lookedUp (as_ : Cloud) (w : World) (ipConfigurationID nodeName : string) : Prop :=
  exists vmSet err,
    availabilitySet.GetNodeNameByIPConfigurationID as_ ipConfigurationID w
    = Done (nodeName, vmSet, err, w) /\
    (forall e, err = Some e -> errors_Is e InstanceNotFound = true).

(** The member resolves to a node whose primary interface is [nic], in the
    availability set named [vmasName]. *)
Definition memberInterface (as_ : Cloud) (vmSetName : string) (w : World)
           (ipConfigurationID : string) (nic : network.Interface) (vmasName : string) : Prop :=
  exists nodeName vmasID,
    lookedUp as_ w ipConfigurationID nodeName /\
    String.eqb nodeName "" = false /\
    availabilitySet.getPrimaryInterfaceWithVMSet as_ (mapNodeNameToVMName as_ nodeName) vmSetName w
    = Done (nic, vmasID, None, w) /\
    getAvailabilitySetNameByID vmasID = (vmasName, None).

Definition memberDisposition (as_ : Cloud) (backendPoolID vmSetName : string) (w : World)
           (ipConfigurationID : string) (d : disposition) : Prop :=
  match d with
  | LookupFailed e =>
      exists nodeName vmSet,
        availabilitySet.GetNodeNameByIPConfigurationID as_ ipConfigurationID w
        = Done (nodeName, vmSet, Some e, w) /\
        errors_Is e InstanceNotFound = false
  | NoNode => lookedUp as_ w ipConfigurationID ""
  | OtherSet =>
      exists nic vmasName,
        memberInterface as_ vmSetName w ipConfigurationID nic vmasName /\
        strings.EqualFold vmasName vmSetName = false
  | NoConfigurations =>
      exists nic vmasName props,
        memberInterface as_ vmSetName w ipConfigurationID nic vmasName /\
        strings.EqualFold vmasName vmSetName = true /\
        network.nic_Properties nic = Some props /\
        String.eqb (network.ProvisioningState props) consts.NicFailedState = false /\
        network.IPConfigurations props = None
  | Stripped nic' =>
      exists nic vmasName props configs configs',
        memberInterface as_ vmSetName w ipConfigurationID nic vmasName /\
        strings.EqualFold vmasName vmSetName = true /\
        network.nic_Properties nic = Some props /\
        String.eqb (network.ProvisioningState props) consts.NicFailedState = false /\
        network.IPConfigurations props = Some configs /\
        availabilitySet.stripPool backendPoolID configs = Done configs' /\
        nic' = availabilitySet.withIPConfigurations nic configs'
  end.

Fixpoint strippedInterfaces (ds : list disposition) : list network.Interface :=
  match ds with
  | [] => []
  | Stripped nic :: ds' => nic :: strippedInterfaces ds'
  | _ :: ds' => strippedInterfaces ds'
  end.

Fixpoint lookupErrors (ds : list disposition) : list error :=
  match ds with
  | [] => []
  | LookupFailed e :: ds' => e :: lookupErrors ds'
  | _ :: ds' => lookupErrors ds'
  end.

(** The request that pushes [nic], what the network API answers to it and
    what it makes of the interfaces. *)
Definition pushRequest (az : Cloud) (nic : network.Interface) : string * string * network.Interface :=
  (ResourceGroup az, to.String (network.nic_Name nic), nic).

Definition pushAnswer (az : Cloud) (nic : network.Interface) : option error :=
  InterfacesClient_CreateOrUpdateError az (ResourceGroup az) (to.String (network.nic_Name nic)) nic.

Definition pushed (az : Cloud) (store : gmap (string * string) network.Interface)
           (nic : network.Interface) : gmap (string * string) network.Interface :=
  if pushAnswer az nic is Some _ then store
  else <[(ResourceGroup az, to.String (network.nic_Name nic)) := nic]> store.

(** The test of [EnsureBackendPoolDeleted] for the pool to take out. *)
Definition namesPool (backendPoolID : string) (pool : network.BackendAddressPool) : bool :=
  strings.EqualFold (to.String (network.pool_ID pool)) backendPoolID.

(** What [EnsureBackendPoolDeleted] answers: the errors of the updates if
    there are any, else those of the lookups. *)
Definition deletionAnswer (updateErrors lookupErrors : list error) : option error :=
  match updateErrors with
  | _ :: _ => utilerrors.Flatten (Aggregate updateErrors)
  | [] =>
      match lookupErrors with
      | _ :: _ => utilerrors.Flatten (Aggregate lookupErrors)
      | [] => None
      end
  end.

(** The configuration [c'] is [c] with the pool taken out: a configuration
    that is flagged primary and has a membership list loses the last entry
    that names the pool, any other configuration is unchanged. *)
Definition strippedOf (backendPoolID : string) (c c' : network.InterfaceIPConfiguration) : Prop :=
  exists props,
    network.ipc_Properties c = Some props /\
    c' = if to.Bool (network.ipc_Primary props)
         then match network.LoadBalancerBackendAddressPools props with
              | Some pools =>
                  availabilitySet.withBackendPools c (availabilitySet.dropLastPool backendPoolID pools)
              | None => c
              end
         else c.

(** *** What a task does to the interfaces

    A task of [EnsureHostsInPool] resolves the interface of its node from
    the compute side of the cloud, which does not change, reads it from the
    network API, and pushes it at most once, under the resource group of the
    cloud.  As far as the interfaces are concerned it is of one of four
    kinds: it panics; it changes nothing; it works in place on the interface
    of a given name in the resource group of the cloud; or it reads an
    interface elsewhere and stores a fixed interface under that name. *)

Inductive kind : Type :=
| KPanic
| KStatic
| KInPlace (name : string)
| KStore (name : string) (nic : network.Interface).

Definition storedUnderOwnName (store : gmap (string * string) network.Interface) : Prop :=
  forall resourceGroup name nic,
    store !! (resourceGroup, name) = Some nic -> network.nic_Name nic = Some name.

Section TaskKinds.

(** The resource group of the cloud, what a task makes of the interface it
    reads (a panic, nothing, or the interface to store) and the interfaces
    at the start. *)
Variable RG : string.
Variable step : network.Interface -> outcome (option network.Interface).
Variable store0 : gmap (string * string) network.Interface.

(** The interfaces are stored under their own names, and those outside the
    resource group of the cloud are as at the start. *)
Definition wellFormed (w : World) : Prop :=
  storedUnderOwnName (nics w) /\
  forall resourceGroup name,
    resourceGroup <> RG -> nics w !! (resourceGroup, name) = store0 !! (resourceGroup, name).

Definition quiet (task : M (option error)) (w : World) : Prop :=
  exists e w', task w = Done (e, w') /\ nics w' = nics w.

Definition stores (task : M (option error)) (w : World) (name : string) (nic : network.Interface)
  : Prop :=
  exists e w', task w = Done (e, w') /\ nics w' = <[(RG, name) := nic]> (nics w).

(** The interface needs no further work. *)
Definition settled (nic : option network.Interface) : Prop :=
  match nic with
  | Some v => step v = Done None
  | None => True
  end.

Definition hasKind (task : M (option error)) (k : kind) : Prop :=
  match k with
  | KPanic => forall w, wellFormed w -> task w = Panic
  | KStatic => forall w, wellFormed w -> quiet task w
  | KInPlace name =>
      forall w, wellFormed w ->
        match nics w !! (RG, name) with
        | None => quiet task w
        | Some v =>
            match step v with
            | Panic => task w = Panic
            | Done None => quiet task w
            | Done (Some v') => stores task w name v'
            end
        end
  | KStore name c =>
      step c = Done None /\ network.nic_Name c = Some name /\
      forall w, wellFormed w -> stores task w name c
  end.

(** The interface stored last under [name] by the tasks of kinds [ks]. *)
Fixpoint lastStored (ks : list kind) (name : string) : option network.Interface :=
  match ks with
  | [] => None
  | k :: ks' =>
      match lastStored ks' name with
      | Some c => Some c
      | None =>
          match k with
          | KStore name' c => if String.eqb name' name then Some c else None
          | _ => None
          end
      end
  end.

(** Some task of kinds [ks] works in place on [name]. *)
Fixpoint worksOn (ks : list kind) (name : string) : bool :=
  match ks with
  | [] => false
  | KInPlace name' :: ks' => String.eqb name' name || worksOn ks' name
  | _ :: ks' => worksOn ks' name
  end.

(** After the tasks of kinds [done]: an interface stored by one of them is
    there as stored last, and an interface worked on in place is settled. *)
Definition afterFirstPass (done : list kind) (store : gmap (string * string) network.Interface)
  : Prop :=
  forall name,
    (forall c, lastStored done name = Some c ->
               store !! (RG, name) = Some c /\ step c = Done None) /\
    (worksOn done name = true -> settled (store !! (RG, name))).

(** In the second pass, after the tasks of kinds [done], [store1] being what
    the first pass left. *)
Definition inSecondPass (store1 : gmap (string * string) network.Interface) (done : list kind)
           (store : gmap (string * string) network.Interface) : Prop :=
  forall name,
    store !! (RG, name) =
    match lastStored done name with
    | Some c => Some c
    | None => store1 !! (RG, name)
    end /\
    (forall c, lastStored done name = Some c -> step c = Done None).

End TaskKinds.

(** *** The reconciliation of an interface

    What [EnsureHostInPool] does, in either resolver, once the interface of
    the node is resolved. *)

(** What it makes of the interface: a panic, nothing, or the interface to
    store, the requested pool appended to the selected IP configuration. *)
Definition ensureStep (az : Cloud) (service : v1.Service) (backendPoolID : string)
           (nic : network.Interface) : outcome (option network.Interface) :=
  let! nicProps := deref (network.nic_Properties nic) in
  if String.eqb (network.ProvisioningState nicProps) consts.NicFailedState then Done None else
  let! (primaryIPConfig, err) := selectedIPConfig az service nic in
  if err is Some _ then Done None else
  let! configProps := availabilitySet.ipConfigProperties nic primaryIPConfig in
  let newBackendPools := default [] (network.LoadBalancerBackendAddressPools configProps) in
  let! foundPool := availabilitySet.foundPoolIn backendPoolID newBackendPools in
  if (foundPool : bool) then Done None else
  let '(isSameLB, _, err) :=
    if useStandardLoadBalancer az && negb (Nat.eqb (length newBackendPools) 0)
    then isBackendPoolOnSameLB backendPoolID (availabilitySet.backendPoolIDs newBackendPools)
    else (true, "", None) in
  if err is Some _ then Done None else
  if negb isSameLB then Done None else
  let nic' :=
    availabilitySet.setBackendPools nic (default 0%nat primaryIPConfig)
      (newBackendPools ++ [ {| network.pool_Properties := None;
                               network.pool_ID := Some backendPoolID |} ])%list in
  let! nicName := deref (network.nic_Name nic') in
  if InterfacesClient_CreateOrUpdateError az (ResourceGroup az) nicName nic' is Some _
  then Done None
  else Done (Some nic').

(** The part of [availabilitySet.EnsureHostInPool] that follows the
    resolution of the interface. *)
Definition asReconcile (as_ : Cloud) (service : v1.Service) (backendPoolID : string)
           (nic : network.Interface) : M availabilitySet.hostResult :=
  let* nicProps := lift (deref (network.nic_Properties nic)) in
  if String.eqb (network.ProvisioningState nicProps) consts.NicFailedState
  then ret (availabilitySet.noHost None) else
  let ipv6 := IsIPv6String as_ (v1.ClusterIP service) in
  let* (primaryIPConfig, err) :=
    lift (if negb (ipv6DualStackEnabled as_) && negb ipv6
          then getPrimaryIPConfig nic
          else getIPConfigByIPFamily nic ipv6) in
  if err is Some e then ret (availabilitySet.noHost (Some e)) else
  let* configProps := lift (availabilitySet.ipConfigProperties nic primaryIPConfig) in
  let newBackendPools := default [] (network.LoadBalancerBackendAddressPools configProps) in
  let* foundPool := lift (availabilitySet.foundPoolIn backendPoolID newBackendPools) in
  if negb foundPool then
    let sameLB :=
      if useStandardLoadBalancer as_ && negb (Nat.eqb (length newBackendPools) 0) then
        let newBackendPoolsIDs := availabilitySet.backendPoolIDs newBackendPools in
        isBackendPoolOnSameLB backendPoolID newBackendPoolsIDs
      else (true, "", None) in
    let '(isSameLB, _, err) := sameLB in
    if err is Some e then ret (availabilitySet.noHost (Some e)) else
    if negb isSameLB then ret (availabilitySet.noHost None) else
    let newBackendPools :=
      (newBackendPools ++ [ {| network.pool_Properties := None;
                               network.pool_ID := Some backendPoolID |} ])%list in
    let nic := availabilitySet.setBackendPools nic (default 0%nat primaryIPConfig) newBackendPools in
    let* nicName := lift (deref (network.nic_Name nic)) in
    let* err := CreateOrUpdateInterface as_ service nic in
    if err is Some e then ret (availabilitySet.noHost (Some e)) else
    ret (availabilitySet.noHost None)
  else ret (availabilitySet.noHost None).

(** The part of [FlexScaleSet.EnsureHostInPool] that follows the resolution
    of the interface of the machine [name] of the scale set [vmssFlexName]. *)
Definition fsReconcile (fs : Cloud) (service : v1.Service) (backendPoolID : string)
           (name vmssFlexName : string) (nic : network.Interface) : M availabilitySet.hostResult :=
  let* nicProps := lift (deref (network.nic_Properties nic)) in
  if String.eqb (network.ProvisioningState nicProps) consts.NicFailedState
  then ret (availabilitySet.noHost None) else
  let ipv6 := IsIPv6String fs (v1.ClusterIP service) in
  let* (primaryIPConfig, err) :=
    lift (if negb (ipv6DualStackEnabled fs) && negb ipv6
          then getPrimaryIPConfig nic
          else getIPConfigByIPFamily nic ipv6) in
  if err is Some e then ret (availabilitySet.noHost (Some e)) else
  let* configProps := lift (availabilitySet.ipConfigProperties nic primaryIPConfig) in
  let newBackendPools := default [] (network.LoadBalancerBackendAddressPools configProps) in
  let* foundPool := lift (availabilitySet.foundPoolIn backendPoolID newBackendPools) in
  if foundPool then ret (availabilitySet.noHost None) else
  let sameLB :=
    if useStandardLoadBalancer fs && negb (Nat.eqb (length newBackendPools) 0) then
      let newBackendPoolsIDs := availabilitySet.backendPoolIDs newBackendPools in
      isBackendPoolOnSameLB backendPoolID newBackendPoolsIDs
    else (true, "", None) in
  let '(isSameLB, _, err) := sameLB in
  if err is Some e then ret (availabilitySet.noHost (Some e)) else
  if negb isSameLB then ret (availabilitySet.noHost None) else
  let newBackendPools :=
    (newBackendPools ++ [ {| network.pool_Properties := None;
                             network.pool_ID := Some backendPoolID |} ])%list in
  let nic := availabilitySet.setBackendPools nic (default 0%nat primaryIPConfig) newBackendPools in
  let* nicName := lift (deref (network.nic_Name nic)) in
  let* err := CreateOrUpdateInterface fs service nic in
  if err is Some e then ret (availabilitySet.noHost (Some e)) else
  let '(nodeResourceGroup, err) := GetNodeResourceGroup fs name in
  if err is Some e then ret (availabilitySet.noHost (Some e)) else
  ret (nodeResourceGroup, vmssFlexName, name, None, None).

(** The outcome [result] of a reconciliation run in [w] is what [step]
    announces. *)
Definition reconciled (az : Cloud) (step : outcome (option network.Interface))
           (result : outcome (availabilitySet.hostResult * World)) (w : World) : Prop :=
  match step with
  | Panic => result = Panic
  | Done None => exists r w', result = Done (r, w') /\ nics w' = nics w
  | Done (Some nic') =>
      exists name r w',
        network.nic_Name nic' = Some name /\
        result = Done (r, w') /\
        nics w' = <[(ResourceGroup az, name) := nic']> (nics w)
  end.


(** How the interface of a node is resolved: the compute side of the cloud
    makes the resolution panic or fail, or names the interface to read from
    the network API (and the availability set of the machine). *)
Inductive resolution : Type :=
| Panics
| Fails (e : error)
| Reads (resourceGroup name availabilitySetID : string).

Definition asResolution (az : Cloud) (c : resolution)
  : M (network.Interface * string * option error) :=
  match c with
  | Panics => fun _ => Panic
  | Fails e => ret (network.emptyInterface, "", Some e)
  | Reads resourceGroup name availabilitySetID =>
      let* (nic, rerr) := InterfacesClient_Get az resourceGroup name in
      if rerr is Some e then ret (network.emptyInterface, "", Some e)
      else ret (nic, availabilitySetID, None)
  end.

Definition fsResolution (az : Cloud) (c : resolution) : M (network.Interface * option error) :=
  match c with
  | Panics => fun _ => Panic
  | Fails e => ret (network.emptyInterface, Some e)
  | Reads resourceGroup name _ =>
      let* (nic, rerr) := InterfacesClient_Get az resourceGroup name in
      if rerr is Some e then ret (network.emptyInterface, Some e)
      else ret (nic, None)
  end.

(** * Further functions of the two resolver files *)

(** ** Notions used to state their properties *)

(** The byte [c] occurs in [s]. *)
Fixpoint occursIn (c : ascii) (s : string) : bool :=
  match s with
  | EmptyString => false
  | String c' s' => Ascii.eqb c' c || occursIn c s'
  end.

(** The last byte of [s]. *)
Fixpoint lastByte (s : string) : option ascii :=
  match s with
  | EmptyString => None
  | String c EmptyString => Some c
  | String _ s' => lastByte s'
  end.

(** ** Security-rule priorities *)

(** The inner loop of [getNextAvailablePriority]: some rule has the
    priority [smallest].  The priority of a rule is read through two
    pointers. *)
Fixpoint priorityTaken (rules : list network.SecurityRule) (smallest : Z) : outcome bool :=
  match rules with
  | [] => Done false
  | rule :: rules' =>
      let! props := deref (network.rule_Properties rule) in
      let! priority := deref (network.Priority props) in
      if Z.eqb priority smallest then Done true else priorityTaken rules' smallest
  end.

(** The outer loop, which runs while [smallest] is below the maximum:
    [remaining] is the number of priorities from [smallest] up to the
    maximum, so that the loop ends when it reaches zero.  The addition is
    made below the maximum, an [int32], and does not wrap around. *)
Fixpoint scanPriorities (rules : list network.SecurityRule) (remaining : nat) (smallest : Z)
  : outcome (Z * option error) :=
  match remaining with
  | O => Done ((-1)%Z, Some (errorString "securityGroup priorities are exhausted"))
  | S remaining' =>
      let! taken := priorityTaken rules smallest in
      if (taken : bool) then scanPriorities rules remaining' (smallest + 1)%Z
      else Done (smallest, None)
  end.

(** This returns the next available rule priority level for a given set of
    security rules.  The bounds [consts.LoadBalancerMinimumPriority] and
    [consts.LoadBalancerMaximumPriority] are not part of the file and are
    parameters here. *)
Definition getNextAvailablePriority (LoadBalancerMinimumPriority LoadBalancerMaximumPriority : Z)
           (rules : list network.SecurityRule) : outcome (Z * option error) :=
  scanPriorities rules (Z.to_nat (LoadBalancerMaximumPriority - LoadBalancerMinimumPriority))
                 LoadBalancerMinimumPriority.

(** The priorities of the rules, every rule having one. *)
Definition priorityOf (rule : network.SecurityRule) : option Z :=
  match network.rule_Properties rule with
  | Some props => network.Priority props
  | None => None
  end.

Definition priorities (rules : list network.SecurityRule) : list Z :=
  omap priorityOf rules.

Definition hasPriority (rule : network.SecurityRule) : Prop :=
  exists p, priorityOf rule = Some p.


(** ** Identifiers made of fixed texts and fields

    An identifier of the provider is a sequence of fixed texts and fields:
    the fields that a pattern skips with a starred dot, the fields it
    captures with a group, and the end of the text where the pattern has a
    dollar. *)

Inductive piece : Set :=
| Text (l : string)
| Dot (c : ascii)           (* a byte where the pattern has a dot *)
| Skipped (field : string)
| Captured (field : string)
| TheEnd.

Fixpoint render (t : list piece) : string :=
  match t with
  | [] => ""
  | Text l :: t' => l +:+ render t'
  | Dot c :: t' => String c (render t')
  | Skipped field :: t' => field +:+ render t'
  | Captured field :: t' => field +:+ render t'
  | TheEnd :: t' => render t'
  end.

(** The instructions that match a fixed text. *)
Fixpoint lits (l : string) : list regexp.inst :=
  match l with
  | EmptyString => []
  | String c l' => regexp.Lit c :: lits l'
  end.

(** The program that matches the identifiers of a shape. *)
Fixpoint pattern (t : list piece) : list regexp.inst :=
  match t with
  | [] => []
  | Text l :: t' => (lits l ++ pattern t')%list
  | Dot _ :: t' => regexp.AnyChar :: pattern t'
  | Skipped _ :: t' => regexp.AnyStar :: pattern t'
  | Captured _ :: t' => regexp.CapPlus :: pattern t'
  | TheEnd :: t' => regexp.EndText :: pattern t'
  end.

(** The bounds of the captured fields of the identifier rendered from offset
    [pos] on. *)
Fixpoint captures (t : list piece) (pos : nat) : list (nat * nat) :=
  match t with
  | [] => []
  | Text l :: t' => captures t' (pos + String.length l)
  | Dot _ :: t' => captures t' (S pos)
  | Skipped field :: t' => captures t' (pos + String.length field)
  | Captured field :: t' =>
      (pos, pos + String.length field) :: captures t' (pos + String.length field)
  | TheEnd :: t' => captures t' pos
  end.

Fixpoint noLineFeed (s : string) : bool :=
  match s with
  | EmptyString => true
  | String c s' => negb (regexp.isLineFeed c) && noLineFeed s'
  end.

(** The number of slashes of a text, and of literal slashes of a program. *)
Fixpoint slashes (s : string) : nat :=
  match s with
  | EmptyString => 0
  | String c s' => (if Ascii.eqb c "/" then 1 else 0) + slashes s'
  end.

Fixpoint literalSlashes (p : list regexp.inst) : nat :=
  match p with
  | [] => 0
  | regexp.Lit c :: p' => (if Ascii.eqb c "/" then 1 else 0) + literalSlashes p'
  | _ :: p' => literalSlashes p'
  end.

(** A field is a segment of a path on one line. *)
Definition isField (field : string) : Prop :=
  slashes field = 0 /\ noLineFeed field = true.

(** What follows a field: nothing, the end of the text, or a fixed text
    that begins with a slash. *)
Definition afterField (t : list piece) : Prop :=
  match t with
  | [] => True
  | Text (String c _) :: _ => c = "/"%char
  | TheEnd :: t' => t' = []
  | _ => False
  end.

Fixpoint wellShaped (t : list piece) : Prop :=
  match t with
  | [] => True
  | Text _ :: t' => wellShaped t'
  | Dot c :: t' => Ascii.eqb c "/" = false /\ regexp.isLineFeed c = false /\ wellShaped t'
  | Skipped field :: t' => isField field /\ afterField t' /\ wellShaped t'
  | Captured field :: t' => isField field /\ field <> "" /\ afterField t' /\ wellShaped t'
  | TheEnd :: t' => t' = []
  end.

(** The fields of a shape that the pattern captures. *)
Fixpoint capturedFields (t : list piece) : list string :=
  match t with
  | [] => []
  | Captured field :: t' => field :: capturedFields t'
  | _ :: t' => capturedFields t'
  end.

(** The beginning of an identifier, up to the text that comes before its
    fields proper, may hold anything on one line: it is made of fixed texts
    and of skipped stretches. *)
Fixpoint isHead (h : list piece) : Prop :=
  match h with
  | [] => True
  | Text _ :: h' => isHead h'
  | Dot _ :: h' => isHead h'
  | Skipped _ :: h' => isHead h'
  | _ => False
  end.

(** ** Identifiers *)

(** getStandardMachineID returns the full identifier of a virtual machine. *)
Definition getStandardMachineID (az : Cloud) (subscriptionID resourceGroup machineName : string)
  : string :=
  consts.MachineIDTemplate subscriptionID (strings.ToLower resourceGroup) machineName.

(** The identifier of a network interface and of one of its IP
    configurations, as the network API spells them. *)
Definition interfaceID (subscriptionID resourceGroup name : string) : string :=
  "/subscriptions/" +:+ subscriptionID +:+ "/resourceGroups/" +:+ resourceGroup
    +:+ "/providers/Microsoft.Network/networkInterfaces/" +:+ name.

Definition ipConfigurationID (subscriptionID resourceGroup name config : string) : string :=
  "/subscriptions/" +:+ subscriptionID +:+ "/resourceGroups/" +:+ resourceGroup
    +:+ "/providers/Microsoft.Network/networkInterfaces/" +:+ name
    +:+ "/ipConfigurations/" +:+ config.

(** The identifier of the machine that an interface is attached to, and of
    the availability set of a machine, as [GetNodeNameByIPConfigurationID]
    reads them: the empty text when there is none. *)
Definition machineIDOf (nic : network.Interface) : string :=
  match network.nic_Properties nic with
  | Some props =>
      if network.VirtualMachine props is Some vm then to.String (compute.sub_ID vm) else ""
  | None => ""
  end.

Definition availabilitySetIDOf (vm : compute.VirtualMachine) : string :=
  match compute.vm_Properties vm with
  | Some props =>
      if compute.AvailabilitySet props is Some avset then to.String (compute.sub_ID avset) else ""
  | None => ""
  end.

(** The read of an interface by resource group and name, as the resolvers
    answer it. *)
Definition readInterface (az : Cloud) (resourceGroup name : string)
  : M (network.Interface * option error) :=
  let* (nic, rerr) := InterfacesClient_Get az resourceGroup name in
  if rerr is Some e then ret (network.emptyInterface, Some e) else ret (nic, None).

(** ** Names of load balancers and of their rules

    The configuration fields and the methods of [*Cloud] that the naming
    functions read and that are not among those of [Cloud]; the methods are
    defined in other files of the provider. *)
Record Naming : Type := {
  LoadBalancerName : string;                     (* Config.LoadBalancerName *)
  NetworkResourceSubscriptionID : string;        (* Config.NetworkResourceSubscriptionID *)
  UsesNetworkResourceInDifferentTenantOrSubscription : bool;
  VMSet_GetPrimaryVMSetName : string;            (* az.VMSet.GetPrimaryVMSetName() *)
  (* az.GetLoadBalancerName(ctx, clusterName, service) *)
  GetLoadBalancerName : string -> v1.Service -> string;
  subnet : v1.Service -> option string;          (* subnet(service) *)
  useSharedSecurityRule : v1.Service -> bool     (* useSharedSecurityRule(service) *)
}.

(** [s[:n]]: a panic when [n] is out of range. *)
Definition slicePrefix (s : string) (n : Z) : outcome string :=
  if ((0 <=? n) && (n <=? Z.of_nat (String.length s)))%Z
  then Done (strings.take (Z.to_nat n) s)
  else Panic.

(** [len(s)] *)
Definition len (s : string) : Z := Z.of_nat (String.length s).

(** getNetworkResourceSubscriptionID returns the subscription id which hosts
    network resources *)
Definition getNetworkResourceSubscriptionID (az : Cloud) (cfg : Naming) : string :=
  if UsesNetworkResourceInDifferentTenantOrSubscription cfg
  then NetworkResourceSubscriptionID cfg
  else SubscriptionID az.

(** returns the full identifier of a loadbalancer backendpool. *)
Definition getBackendPoolID (az : Cloud) (cfg : Naming) (lbName rgName backendPoolName : string)
  : string :=
  consts.BackendPoolIDTemplate (getNetworkResourceSubscriptionID az cfg) rgName lbName
                               backendPoolName.

Definition mapLoadBalancerNameToVMSet (cfg : Naming) (lbName clusterName : string) : string :=
  let vmSetName := strings.TrimSuffix lbName consts.InternalLoadBalancerNameSuffix in
  if strings.EqualFold clusterName vmSetName
  then VMSet_GetPrimaryVMSetName cfg
  else vmSetName.

(** For a load balancer, all frontend ip should reference either a subnet
    or publicIpAddress.  Thus Azure do not allow mixed type (public and
    internal) load balancer.  So we'd have a separate name for internal load
    balancer.  This would be the name for Azure LoadBalancer resource. *)
Definition getAzureLoadBalancerName (az : Cloud) (cfg : Naming)
           (clusterName vmSetName : string) (isInternal : bool) : string :=
  let clusterName :=
    if negb (String.eqb (LoadBalancerName cfg) "") then LoadBalancerName cfg else clusterName in
  let lbNamePrefix := vmSetName in
  (* The LB name prefix is set to the name of the cluster when:
     1. the LB belongs to the primary agent pool.
     2. using the single SLB. *)
  let useSingleSLB :=
    useStandardLoadBalancer az && negb (EnableMultipleStandardLoadBalancers az) in
  let lbNamePrefix :=
    if strings.EqualFold vmSetName (VMSet_GetPrimaryVMSetName cfg) || useSingleSLB
    then clusterName else lbNamePrefix in
  (* 3. using multiple SLBs while the vmSet is sharing the primary SLB *)
  let useMultipleSLB :=
    useStandardLoadBalancer az && EnableMultipleStandardLoadBalancers az in
  let lbNamePrefix :=
    if useMultipleSLB && getVMSetNamesSharingPrimarySLB_Has az (strings.ToLower vmSetName)
    then clusterName else lbNamePrefix in
  if isInternal
  then lbNamePrefix +:+ consts.InternalLoadBalancerNameSuffix
  else lbNamePrefix.

Definition isInternalLoadBalancer (lb : option network.LoadBalancer) : outcome bool :=
  let! lb := deref lb in
  let! name := deref (network.lb_Name lb) in
  Done (strings.HasSuffix name consts.InternalLoadBalancerNameSuffix).

(** This returns a prefix for loadbalancer/security rules. *)
Definition getRulePrefix (cfg : Naming) (service : v1.Service) : string :=
  GetLoadBalancerName cfg "" service.

Definition getLoadBalancerRuleName (cfg : Naming) (service : v1.Service)
           (protocol : string) (port : Z) : outcome string :=
  let prefix := getRulePrefix cfg service in
  let ruleName := prefix +:+ "-" +:+ protocol +:+ "-" +:+ strconv.Itoa port in
  match subnet cfg service with
  | None => Done ruleName
  | Some subnetSegment =>
      (* Load balancer rule name must be less or equal to 80 characters, so
         excluding the hyphen two segments cannot exceed 79 *)
      let! subnetSegment :=
        if (len ruleName + len subnetSegment + 1 >? consts.LoadBalancerRuleNameMaxLength)%Z
        then slicePrefix subnetSegment
                         (consts.LoadBalancerRuleNameMaxLength - len ruleName - 1)%Z
        else Done subnetSegment in
      Done (prefix +:+ "-" +:+ subnetSegment +:+ "-" +:+ protocol +:+ "-" +:+ strconv.Itoa port)
  end.

Definition getSecurityRuleName (cfg : Naming) (service : v1.Service)
           (protocol : string) (port : Z) (sourceAddrPrefix : string) : string :=
  if useSharedSecurityRule cfg service then
    let safePrefix := strings.ReplaceByte sourceAddrPrefix "/" "_" in
    "shared-" +:+ protocol +:+ "-" +:+ strconv.Itoa port +:+ "-" +:+ safePrefix
  else
    let safePrefix := strings.ReplaceByte sourceAddrPrefix "/" "_" in
    let rulePrefix := getRulePrefix cfg service in
    rulePrefix +:+ "-" +:+ protocol +:+ "-" +:+ strconv.Itoa port +:+ "-" +:+ safePrefix.

Definition serviceOwnsRule (cfg : Naming) (service : v1.Service) (rule : string) : bool :=
  let prefix := getRulePrefix cfg service in
  strings.HasPrefix (strings.ToUpper rule) (strings.ToUpper prefix).

(** [unicode.IsLetter] on the rune of one byte, a character of Latin-1. *)
Definition isLetterByte (c : ascii) : bool :=
  let n := N_of_ascii c in
  ((65 <=? n) && (n <=? 90) || (97 <=? n) && (n <=? 122)
   || (n =? 170) || (n =? 181) || (n =? 186)
   || (192 <=? n) && (n <=? 214) || (216 <=? n) && (n <=? 246) || (248 <=? n))%N.

Definition getDefaultFrontendIPConfigName (cfg : Naming) (service : v1.Service)
  : outcome string :=
  let baseName := GetLoadBalancerName cfg "" service in
  match subnet cfg service with
  | Some subnetName =>
      let ipcName := baseName +:+ "-" +:+ subnetName in
      (* Azure lb front end configuration name must not exceed 80 characters *)
      if (len ipcName >? consts.FrontendIPConfigNameMaxLength)%Z then
        let! ipcName := slicePrefix ipcName consts.FrontendIPConfigNameMaxLength in
        (* Cutting the string may result in char like "-" as the string end.
           If the last char is not a letter or '_', replace it with "_". *)
        let! final := deref (lastByte ipcName) in
        if negb (isLetterByte final) && negb (Ascii.eqb final "_")
        then
          let! cut := slicePrefix ipcName (len ipcName - 1)%Z in
          Done (cut +:+ "_")
        else Done ipcName
      else Done ipcName
  | None => Done baseName
  end.

(** The load balancer of the VM set is named after the cluster. *)
Definition namedAfterCluster (az : Cloud) (cfg : Naming) (vmSetName : string) : bool :=
  strings.EqualFold vmSetName (VMSet_GetPrimaryVMSetName cfg)
  || useStandardLoadBalancer az && negb (EnableMultipleStandardLoadBalancers az)
  || useStandardLoadBalancer az && EnableMultipleStandardLoadBalancers az
     && getVMSetNamesSharingPrimarySLB_Has az (strings.ToLower vmSetName).

(** ** What the lookups of VM sets, addresses and pools answer *)

(** The availability set [set] is the one of a worker among [nodes]: the
    lower-cased last segment of the ID that [ids] has for the worker. *)
Definition setOfWorker (ids : gmap string string) (nodes : list v1.Node) (set : string) : Prop :=
  exists node asID asName,
    node ∈ nodes /\ isControlPlaneNode node = false /\
    ids !! v1.node_Name node = Some asID /\
    getLastSegment asID "/" = Done (asName, None) /\
    set = strings.ToLower asName.

(** The availability set [set] is the one of the machine of a worker among
    [nodes]. *)
Definition setOfWorkerMachine (vms : list compute.VirtualMachine) (nodes : list v1.Node)
           (set : string) : Prop :=
  exists node vm props avset asID asName,
    node ∈ nodes /\ isControlPlaneNode node = false /\
    vm ∈ vms /\ compute.vm_Name vm = Some (v1.node_Name node) /\
    compute.vm_Properties vm = Some props /\ compute.AvailabilitySet props = Some avset /\
    compute.sub_ID avset = Some asID /\
    getLastSegment asID "/" = Done (asName, None) /\
    set = strings.ToLower asName.

Definition privateIPsOf (configs : list network.InterfaceIPConfiguration) : list string :=
  omap (fun ipConfig => network.ipc_Properties ipConfig ≫= network.PrivateIPAddress) configs.

(** The interface carries the pool: the IP configuration that
    [EnsureHostInPool] selects for the service lists a pool of that ID, up
    to case. *)
Definition carriesPool (az : Cloud) (service : v1.Service) (backendPoolID : string)
           (nic : network.Interface) : Prop :=
  exists i configProps pools,
    selectedIPConfig az service nic = Done (Some i, None) /\
    availabilitySet.ipConfigProperties nic (Some i) = Done configProps /\
    network.LoadBalancerBackendAddressPools configProps = Some pools /\
    availabilitySet.foundPoolIn backendPoolID pools = Done true.

(** The IP configuration is of the family asked for: it has a private
    address, of the version [ipVersion]. *)
Definition ofFamily (ipVersion : string) (config : network.InterfaceIPConfiguration) : Prop :=
  exists props address,
    network.ipc_Properties config = Some props /\
    network.PrivateIPAddress props = Some address /\
    network.PrivateIPAddressVersion props = ipVersion.

(** ** Sample inputs *)

Module Sample.

(** Security rules of the given priorities ([None] is a rule without one). *)
Definition rules (ps : list (option Z)) : list network.SecurityRule :=
  map (fun p => {| network.rule_Properties := Some {| network.Priority := p |} |}) ps.

(** An internal service on a subnet with a long name, and the naming
    configuration of a cluster whose load balancers are named after the
    service UID. *)
Definition internalService : v1.Service :=
  {| v1.svc_Namespace := "default"; v1.svc_Name := "internal"; v1.ClusterIP := "10.0.0.20" |}.

Definition longSubnet : string :=
  "subnet-of-the-internal-load-balancers-of-the-production-cluster-in-eastus".

Definition naming : Naming :=
  {| LoadBalancerName := "";
     NetworkResourceSubscriptionID := "netsub";
     UsesNetworkResourceInDifferentTenantOrSubscription := false;
     VMSet_GetPrimaryVMSetName := "agentpool";
     GetLoadBalancerName := fun _ _ => "a0123456789abcdef0123456789abcdef";
     subnet := fun service =>
       if String.eqb (v1.svc_Name service) "internal" then Some longSubnet else None;
     useSharedSecurityRule := fun _ => false |}.

(** The machines that the cloud lists, and a cloud whose services ask for
    the VM set AgentPool by name. *)
Definition machines : list compute.VirtualMachine := map snd Fixture.machines.

Definition methods : CloudMethods :=
  {| ListVirtualMachines := fun _ => (machines, None);
     getServiceLoadBalancerMode := fun _ => (true, false, "AgentPool") |}.

(** An interface with an IPv4 and an IPv6 configuration. *)
Definition dualStackInterface : network.Interface :=
  Fixture.nic "dual-nic" "worker-0" "Succeeded"
    [ Fixture.ipConfig true [];
      {| network.ipc_Properties :=
           Some {| network.LoadBalancerBackendAddressPools := None;
                   network.PrivateIPAddress := Some "fd00::4";
                   network.PrivateIPAddressVersion := network.IPVersionIPv6;
                   network.ipc_Primary := Some false |};
         network.ipc_ID := None |} ].

End Sample.

(** * Properties *)

(** ** The matcher *)

Section RegexpFacts.

Import regexp strings.

Lemma lowerByte_lineFeed (c : ascii) : isLineFeed (lowerByte c) = isLineFeed c.
Proof. destruct c as [[] [] [] [] [] [] [] []]; reflexivity. Qed.

Lemma lineFeed_of_fold (a b : ascii) :
  lowerByte a = lowerByte b -> isLineFeed a = isLineFeed b.
Proof.
  intros Hab. rewrite <- (lowerByte_lineFeed a), <- (lowerByte_lineFeed b).
  now rewrite Hab.
Qed.

Lemma EqualFold_cons (a b : ascii) (s t : string) :
  EqualFold (String a s) (String b t) = true <->
  lowerByte a = lowerByte b /\ EqualFold s t = true.
Proof.
  simpl. rewrite andb_true_iff, Ascii.eqb_eq. tauto.
Qed.

Lemma EqualFold_refl (s : string) : EqualFold s s = true.
Proof.
  induction s as [|c s IH]; [reflexivity|].
  apply EqualFold_cons. auto.
Qed.

Lemma EqualFold_length (s t : string) :
  EqualFold s t = true -> String.length s = String.length t.
Proof.
  revert t. induction s as [|a s IH]; intros [|b t] H; try discriminate; [reflexivity|].
  apply EqualFold_cons in H as [_ H]. simpl. f_equal. auto.
Qed.

(** The greedy loop only sees the text through the line-feed test and
    through the rest of the program. *)
Lemma starLoop_fold {R} (k k' : string -> nat -> option R) :
  (forall s s' pos, EqualFold s s' = true -> k s pos = k' s' pos) ->
  forall s s' pos, EqualFold s s' = true -> starLoop k s pos = starLoop k' s' pos.
Proof.
  intros Hk s. induction s as [|a s IH]; intros [|b t] pos H; try discriminate.
  - simpl. now apply Hk.
  - pose proof H as H'. apply EqualFold_cons in H' as [Hab Hst].
    simpl. rewrite (lineFeed_of_fold a b Hab).
    rewrite (IH t (S pos) Hst), (Hk _ _ pos H). reflexivity.
Qed.

(** Under the case-folding flag the matcher answers alike on two texts
    that are equal up to case. *)
Lemma run_fold (p : list inst) :
  forall s s' pos caps,
    EqualFold s s' = true -> run true p s pos caps = run true p s' pos caps.
Proof.
  induction p as [|i p IH]; intros s s' pos caps H; [reflexivity|].
  destruct i; simpl.
  - destruct s as [|a s], s' as [|b t]; try discriminate; [reflexivity|].
    apply EqualFold_cons in H as [Hab Hst].
    unfold litMatches. rewrite Hab. destruct (Ascii.eqb _ _); auto.
  - destruct s as [|a s], s' as [|b t]; try discriminate; [reflexivity|].
    apply EqualFold_cons in H as [Hab Hst].
    rewrite (lineFeed_of_fold a b Hab). destruct (isLineFeed b); auto.
  - apply starLoop_fold; auto.
  - destruct s as [|a s], s' as [|b t]; try discriminate; [reflexivity|].
    apply EqualFold_cons in H as [Hab Hst].
    rewrite (lineFeed_of_fold a b Hab). destruct (isLineFeed b); [reflexivity|].
    apply starLoop_fold; auto.
  - destruct s as [|a s], s' as [|b t]; try discriminate; auto.
Qed.

Lemma search_fold (p : list inst) :
  forall s s' pos,
    EqualFold s s' = true -> search true p s pos = search true p s' pos.
Proof.
  intros s. induction s as [|a s IH]; intros [|b t] pos H; try discriminate.
  - reflexivity.
  - simpl. rewrite (run_fold p _ _ pos [] H).
    apply EqualFold_cons in H as [_ Hst].
    destruct (run true p (String b t) pos []) as [[e caps]|]; auto.
Qed.

Lemma FindStringSubmatchIndex_fold (re : Regexp) (s s' : string) :
  foldCase re = true -> EqualFold s s' = true ->
  FindStringSubmatchIndex re s = FindStringSubmatchIndex re s'.
Proof.
  intros Hre H. unfold FindStringSubmatchIndex. rewrite Hre.
  destruct (beginText re).
  - now rewrite (run_fold _ _ _ 0 [] H).
  - now apply search_fold.
Qed.

Lemma starLoop_inv {R} (k : string -> nat -> option R) (s : string) (pos : nat) (r : R) :
  starLoop k s pos = Some r -> exists s1 pos1, k s1 pos1 = Some r.
Proof.
  revert pos. induction s as [|a s IH]; intros pos; simpl.
  - eauto.
  - destruct (isLineFeed a); [eauto|].
    destruct (starLoop k s (S pos)) as [r'|] eqn:E; [|eauto].
    intros [= <-]. eauto.
Qed.

Lemma run_groups (fold : bool) (p : list inst) :
  forall s pos caps e caps',
    run fold p s pos caps = Some (e, caps') ->
    length caps' = length caps + groups p.
Proof.
  induction p as [|i p IH]; intros s pos caps e caps'; simpl.
  - intros [= _ <-]. lia.
  - destruct i.
    + destruct s as [|a s]; [discriminate|]. destruct (litMatches fold c a); [|discriminate]. eauto.
    + destruct s as [|a s]; [discriminate|]. destruct (isLineFeed a); [discriminate|]. eauto.
    + intros H. apply starLoop_inv in H as (s1 & pos1 & H). eauto.
    + destruct s as [|a s]; [discriminate|]. destruct (isLineFeed a); [discriminate|].
      intros H. apply starLoop_inv in H as (s1 & pos1 & H).
      apply IH in H. rewrite length_app in H. simpl in H. lia.
    + destruct s as [|a s]; [|discriminate]. eauto.
Qed.

Lemma search_groups (fold : bool) (p : list inst) :
  forall s pos idx, search fold p s pos = Some idx -> length idx = S (groups p).
Proof.
  intros s. induction s as [|a s IH]; intros pos idx; simpl.
  - destruct (run fold p "" pos []) as [[e caps]|] eqn:E; [|discriminate].
    intros [= <-]. apply run_groups in E. simpl in *. lia.
  - destruct (run fold p (String a s) pos []) as [[e caps]|] eqn:E.
    + intros [= <-]. apply run_groups in E. simpl in *. lia.
    + apply IH.
Qed.

(** A match always comes with the whole match and every group of the
    pattern: there is no match with some of the groups only. *)
Lemma FindStringSubmatchIndex_groups (re : Regexp) (s : string) (idx : list (nat * nat)) :
  FindStringSubmatchIndex re s = Some idx -> length idx = S (groups (prog re)).
Proof.
  unfold FindStringSubmatchIndex. destruct (beginText re).
  - destruct (run _ _ _ _ _) as [[e caps]|] eqn:E; [|discriminate].
    intros [= <-]. apply run_groups in E. simpl in *. lia.
  - apply search_groups.
Qed.

Lemma FindStringSubmatch_length (re : Regexp) (s : string) :
  length (FindStringSubmatch re s) =
  if FindStringSubmatchIndex re s is Some _ then S (groups (prog re)) else 0.
Proof.
  unfold FindStringSubmatch.
  destruct (FindStringSubmatchIndex re s) as [idx|] eqn:E; [|reflexivity].
  rewrite length_map. now apply FindStringSubmatchIndex_groups in E.
Qed.

Lemma FindStringSubmatch_no_match (re : Regexp) (s : string) :
  FindStringSubmatchIndex re s = None -> FindStringSubmatch re s = [].
Proof. unfold FindStringSubmatch. now intros ->. Qed.

End RegexpFacts.

(** ** Resource Identifier Codec *)

Section Codec.

Import regexp.

Lemma unmatched_length (re : Regexp) (s : string) (n : nat) :
  FindStringSubmatchIndex re s = None ->
  negb (Nat.eqb (length (FindStringSubmatch re s)) (S n)) = true.
Proof. intros H. now rewrite (FindStringSubmatch_no_match _ _ H). Qed.



End Codec.


Section CaseFolding.

Import regexp.


End CaseFolding.



(** ** Primary interface and primary IP configuration *)

Section Primary.

Lemma firstPrimaryReference_none (refs : list compute.NetworkInterfaceReference) :
  firstPrimaryReference refs = Done None ->
  Forall (fun ref => exists props, compute.ref_Properties ref = Some props /\
                                   to.Bool (compute.ref_Primary props) = false) refs.
Proof.
  induction refs as [|ref refs IH]; simpl; [constructor|].
  destruct (compute.ref_Properties ref) as [props|] eqn:Eprops; simpl; [|discriminate].
  destruct (to.Bool (compute.ref_Primary props)) eqn:Eprim.
  - destruct (compute.ref_ID ref); simpl; discriminate.
  - intros H. constructor; eauto.
Qed.

Lemma firstPrimaryIPConfig_none (configs : list network.InterfaceIPConfiguration) (i : nat) :
  firstPrimaryIPConfig configs i = Done None ->
  Forall (fun config => exists props, network.ipc_Properties config = Some props /\
                                      network.ipc_Primary props = Some false) configs.
Proof.
  revert i. induction configs as [|config configs IH]; intros i; simpl; [constructor|].
  destruct (network.ipc_Properties config) as [props|] eqn:Eprops; simpl; [|discriminate].
  destruct (network.ipc_Primary props) as [[|]|] eqn:Eprim; simpl; try discriminate.
  intros H. constructor; eauto.
Qed.

(** C10 (as the code has it).  A machine that lists exactly one network
    interface has that interface as its primary one, whatever its primary
    flag, and an interface with exactly one IP configuration has that
    configuration as its primary one, whatever its flag.  The error of
    finding no primary entry is returned only when the number of entries is
    not one, which includes the empty list, and no entry is flagged. *)
Theorem primary_of_single_or_flagged :
  (forall machine props profile ref id,
     compute.vm_Properties machine = Some props ->
     compute.vm_NetworkProfile props = Some profile ->
     compute.NetworkInterfaces profile = Some [ref] ->
     compute.ref_ID ref = Some id ->
     getPrimaryInterfaceID machine = Done (id, None)) /\
  (forall nic props config,
     network.nic_Properties nic = Some props ->
     network.IPConfigurations props = Some [config] ->
     getPrimaryIPConfig nic = Done (Some 0%nat, None)) /\
  (forall machine r e,
     getPrimaryInterfaceID machine = Done (r, Some e) ->
     exists props profile refs,
       compute.vm_Properties machine = Some props /\
       compute.vm_NetworkProfile props = Some profile /\
       compute.NetworkInterfaces profile = Some refs /\
       length refs <> 1%nat /\
       Forall (fun ref => exists rprops, compute.ref_Properties ref = Some rprops /\
                                         to.Bool (compute.ref_Primary rprops) = false) refs) /\
  (forall nic props configs r e,
     network.nic_Properties nic = Some props ->
     network.IPConfigurations props = Some configs ->
     getPrimaryIPConfig nic = Done (r, Some e) ->
     length configs <> 1%nat /\
     Forall (fun config => exists cprops, network.ipc_Properties config = Some cprops /\
                                          network.ipc_Primary cprops = Some false) configs).
Proof.
  split; [|split; [|split]].
  - intros machine props profile ref id Hp Hn Hr Hid.
    unfold getPrimaryInterfaceID. rewrite Hp. simpl. rewrite Hn. simpl. rewrite Hr. simpl.
    now rewrite Hid.
  - intros nic props config Hp Hc.
    unfold getPrimaryIPConfig. rewrite Hp. simpl. now rewrite Hc.
  - intros machine r e. unfold getPrimaryInterfaceID.
    destruct (compute.vm_Properties machine) as [props|] eqn:Hp; simpl; [|discriminate].
    destruct (compute.vm_NetworkProfile props) as [profile|] eqn:Hn; simpl; [|discriminate].
    destruct (compute.NetworkInterfaces profile) as [refs|] eqn:Hr; simpl; [|discriminate].
    destruct (Nat.eqb (length refs) 1) eqn:Elen.
    + destruct (refs !! 0%nat) as [ref|]; simpl; [|discriminate].
      destruct (compute.ref_ID ref); simpl; discriminate.
    + apply Nat.eqb_neq in Elen.
      destruct (firstPrimaryReference refs) as [[id|]|] eqn:Efound; simpl; try discriminate.
      intros _. exists props, profile, refs.
      split; [reflexivity|]. split; [exact Hn|]. split; [exact Hr|].
      split; [exact Elen|]. now apply firstPrimaryReference_none.
  - intros nic props configs r e Hp Hc. unfold getPrimaryIPConfig.
    rewrite Hp. simpl. rewrite Hc.
    destruct (Nat.eqb (length configs) 1) eqn:Elen; [discriminate|].
    apply Nat.eqb_neq in Elen.
    destruct (firstPrimaryIPConfig configs 0) as [[i|]|] eqn:Efound; simpl; try discriminate.
    intros _. split; [exact Elen|]. now apply firstPrimaryIPConfig_none in Efound.
Qed.

End Primary.

Lemma primary_of_single_or_flagged_witness :
  getPrimaryInterfaceID (Fixture.vm "worker-0" None None None)
  = Done (Fixture.nicID "rg1" "worker-0-nic", None) /\
  getPrimaryIPConfig (Fixture.nic "worker-0-nic" "worker-0" "Succeeded" [Fixture.ipConfig false []])
  = Done (Some 0%nat, None) /\
  (length (A := compute.NetworkInterfaceReference) [] <> 1)%nat /\
  (length (A := network.InterfaceIPConfiguration) [] <> 1)%nat.
Proof.
  destruct primary_of_single_or_flagged as (H1 & H2 & H3 & H4).
  split; [|split; [|split]].
  - eapply H1; reflexivity.
  - eapply H2; reflexivity.
  - destruct (H3 Fixture.bareMachine ""
                (errorString "failed to find a primary nic for the vm. vmname=bare") eq_refl)
      as (props & profile & refs & Hp & Hn & Hr & Hlen & _).
    discriminate.
  - destruct (H4 Fixture.bareInterface _ [] None
                (errorString "failed to determine the primary ipconfig. nicname=bare-nic")
                eq_refl eq_refl eq_refl) as [Hlen _].
    discriminate.
Defined.

(** With no entry at all, nothing is flagged primary and the error of
    finding no primary entry is returned, for the interfaces of a machine
    and for the IP configurations of an interface. *)
Lemma no_primary_among_no_entries :
  getPrimaryInterfaceID Fixture.bareMachine
  = Done ("", Some (errorString "failed to find a primary nic for the vm. vmname=bare")) /\
  getPrimaryIPConfig Fixture.bareInterface
  = Done (None, Some (errorString "failed to determine the primary ipconfig. nicname=bare-nic")).
Proof. split; reflexivity. Qed.

(** ** Zone resolution *)

(** The end-to-end example: worker-0 in zone 1 of region eastus. *)
Lemma zone_of_worker_0 :
  availabilitySet.GetZoneByNodeName (Fixture.cloud true) "worker-0"
  = Done ({| availabilitySet.FailureDomain := "eastus-1"; availabilitySet.Region := "eastus" |}, None) /\
  FlexScaleSet.GetZoneByNodeName (Fixture.cloud true) "worker-0"
  = Done ({| availabilitySet.FailureDomain := "eastus-1"; availabilitySet.Region := "eastus" |}, None).
Proof. split; reflexivity. Qed.

(** Without a zone list both resolvers fall back to the fault domain of the
    instance view. *)
Lemma zone_of_worker_1 :
  availabilitySet.GetZoneByNodeName (Fixture.cloud true) "worker-1"
  = Done ({| availabilitySet.FailureDomain := "2"; availabilitySet.Region := "eastus" |}, None) /\
  FlexScaleSet.GetZoneByNodeName (Fixture.cloud true) "worker-1"
  = Done ({| availabilitySet.FailureDomain := "2"; availabilitySet.Region := "eastus" |}, None).
Proof. split; reflexivity. Qed.

(** C5 (where the code departs from it).  worker-3 has no zone and no
    instance view, worker-2 has an instance view without a fault domain:
    neither a zone nor a fault domain is derivable.  The flexible-scale-set
    resolver answers both with an error; the availability-set resolver
    dereferences the missing instance view of worker-3, which is a panic, and
    reports the fault domain 0 for worker-2. *)
Theorem zone_without_zone_nor_fault_domain :
  availabilitySet.GetZoneByNodeName (Fixture.cloud true) "worker-3" = Panic /\
  availabilitySet.GetZoneByNodeName (Fixture.cloud true) "worker-2"
  = Done ({| availabilitySet.FailureDomain := "0"; availabilitySet.Region := "eastus" |}, None) /\
  FlexScaleSet.GetZoneByNodeName (Fixture.cloud true) "worker-3"
  = Done (availabilitySet.emptyZone, Some (errorString "failed to get zone info")) /\
  FlexScaleSet.GetZoneByNodeName (Fixture.cloud true) "worker-2"
  = Done (availabilitySet.emptyZone, Some (errorString "failed to get zone info")).
Proof. repeat split; reflexivity. Qed.

(** ** Reconciliation of one node *)

Section EnsureHostInPool.

(** C9.  When the name of the scale set of a node cannot be resolved, the
    flexible-scale-set resolver answers with empty results and no error,
    and leaves the cloud alone. *)
Theorem unresolved_scale_set_is_skipped
        (fs : Cloud) (service : v1.Service) (nodeName backendPoolID vmSetNameOfLB : string)
        (w : World) (r : string) (e : error) :
  FlexScaleSet.getNodeVmssFlexName fs (mapNodeNameToVMName fs nodeName) = Done (r, Some e) ->
  FlexScaleSet.EnsureHostInPool fs service nodeName backendPoolID vmSetNameOfLB w
  = Done ("", "", "", None, None, w).
Proof.
  intros H. unfold FlexScaleSet.EnsureHostInPool, bind, lift. now rewrite H.
Qed.

End EnsureHostInPool.

Lemma unresolved_scale_set_is_skipped_witness :
  FlexScaleSet.EnsureHostInPool (Fixture.cloud true) Fixture.service "worker-3"
    (Fixture.lbA "pool-x") "" Fixture.world
  = Done ("", "", "", None, None, Fixture.world).
Proof.
  apply (unresolved_scale_set_is_skipped (Fixture.cloud true) Fixture.service "worker-3"
           (Fixture.lbA "pool-x") "" Fixture.world "" (Sentinel ErrorVmssIDIsEmpty)).
  reflexivity.
Defined.

Section Membership.

Import availabilitySet.

Lemma lbNameOf_matches (backendPoolID lbName : string) :
  lbNameOf backendPoolID = Some lbName ->
  exists whole, regexp.FindStringSubmatch backendPoolIDRE backendPoolID = [whole; lbName].
Proof.
  unfold lbNameOf.
  destruct (regexp.FindStringSubmatch backendPoolIDRE backendPoolID) as [|whole [|lb [|? ?]]];
    try discriminate.
  intros [= <-]. eauto.
Qed.

Lemma foundPoolIn_total (backendPoolID : string) (pools : list network.BackendAddressPool) :
  Forall hasID pools -> exists found, foundPoolIn backendPoolID pools = Done found.
Proof.
  induction 1 as [|pool pools [id Hid] _ IH]; simpl; [eauto|].
  rewrite Hid. simpl. destruct (strings.EqualFold backendPoolID id); eauto.
Qed.

Lemma foundPoolIn_present (backendPoolID : string) (pools : list network.BackendAddressPool) :
  Forall hasID pools -> Exists (isPool backendPoolID) pools ->
  foundPoolIn backendPoolID pools = Done true.
Proof.
  induction 1 as [|pool pools [id Hid] _ IH]; intros Hex; [inversion Hex|].
  simpl. rewrite Hid. simpl.
  destruct (strings.EqualFold backendPoolID id) eqn:E; [reflexivity|].
  apply Exists_cons in Hex as [(id' & Hid' & Heq)|Hex]; [congruence|auto].
Qed.

Lemma conflict_is_detected (backendPoolID newLBName : string)
      (pools : list network.BackendAddressPool) :
  lbNameOf backendPoolID = Some newLBName ->
  pools <> [] ->
  Forall (onAnotherLoadBalancer newLBName) pools ->
  exists oldLBName,
    isBackendPoolOnSameLB backendPoolID (backendPoolIDs pools) = (false, oldLBName, None).
Proof.
  intros Hnew Hne Hall. apply lbNameOf_matches in Hnew as [whole Hnew].
  unfold isBackendPoolOnSameLB. rewrite Hnew. cbn [length Nat.eqb negb nth].
  destruct Hall as [|pool pools (id & lb & Hid & Hlb & Hneq) _]; [contradiction|].
  apply lbNameOf_matches in Hlb as [whole' Hlb].
  simpl. rewrite Hid. simpl. rewrite Hlb. cbn [length Nat.eqb negb nth].
  rewrite Hneq. simpl. eauto.
Qed.

Lemma onAnotherLoadBalancer_hasID (newLBName : string) (pools : list network.BackendAddressPool) :
  Forall (onAnotherLoadBalancer newLBName) pools -> Forall hasID pools.
Proof.
  intros H. eapply Forall_impl; [exact H|].
  intros pool (id & lb & Hid & _). now exists id.
Qed.


End Membership.


(** ** Reconciliation of a set of nodes *)

Lemma bind_apply {A B} (m : M A) (k : A -> M B) (w : World) :
  bind m k w = match m w with
               | Done (a, w') => k a w'
               | Panic => Panic
               end.
Proof. reflexivity. Qed.

Section FanOutFacts.

Variable schedule : list (M (option error)) -> list (M (option error)).

Lemma runTasks_runEach (tasks : list (M (option error))) :
  forall errs w,
    runTasks tasks errs w =
    match runEach tasks w with
    | Done (answers, w') => Done ((errs ++ failures answers)%list, w')
    | Panic => Panic
    end.
Proof.
  induction tasks as [|task tasks IH]; intros errs w; simpl.
  - unfold ret. now rewrite app_nil_r.
  - unfold bind. destruct (task w) as [[err w1]|]; [|reflexivity].
    rewrite IH. destruct (runEach tasks w1) as [[answers w2]|]; [|reflexivity].
    unfold ret. destruct err as [e|]; simpl; [|reflexivity].
    now rewrite <- app_assoc.
Qed.

Lemma runEach_length (tasks : list (M (option error))) :
  forall w answers w', runEach tasks w = Done (answers, w') -> length answers = length tasks.
Proof.
  induction tasks as [|task tasks IH]; intros w answers w'; simpl.
  - unfold ret. now intros [= <- _].
  - unfold bind. destruct (task w) as [[err w1]|]; [|discriminate].
    destruct (runEach tasks w1) as [[answers1 w2]|] eqn:E; [|discriminate].
    unfold ret. intros [= <- _]. simpl. f_equal. eauto.
Qed.

Lemma AggregateGoroutines_runEach (tasks : list (M (option error))) (w : World) :
  AggregateGoroutines schedule tasks w =
  match runEach (schedule tasks) w with
  | Done (answers, w') => Done (utilerrors.NewAggregate (failures answers), w')
  | Panic => Panic
  end.
Proof.
  unfold AggregateGoroutines, bind. rewrite runTasks_runEach.
  destruct (runEach (schedule tasks) w) as [[answers w']|]; reflexivity.
Qed.

Lemma runEach_plain (tasks : list (M (option error))) :
  Forall answersPlainly tasks ->
  forall w answers w',
    runEach tasks w = Done (answers, w') -> Forall plainError (failures answers).
Proof.
  induction 1 as [|task tasks Htask _ IH]; intros w answers w'; simpl.
  - unfold ret. intros [= <- _]. constructor.
  - unfold bind. destruct (task w) as [[err w1]|] eqn:Et; [|discriminate].
    destruct (runEach tasks w1) as [[answers1 w2]|] eqn:E; [|discriminate].
    unfold ret. intros [= <- _]. apply IH in E.
    destruct err as [e|]; simpl; [|exact E].
    constructor; [|exact E]. eapply Htask; eauto.
Qed.

Lemma Flatten_plain (errs : list error) :
  Forall plainError errs ->
  utilerrors.Flatten (Aggregate errs) = utilerrors.NewAggregate errs.
Proof.
  intros H. unfold utilerrors.Flatten. f_equal. simpl.
  induction H as [|e errs He _ IH]; [reflexivity|].
  rewrite IH. destruct e; simpl in *; [reflexivity..|contradiction].
Qed.

Lemma as_hostUpdate_plain (az : Cloud) (service : v1.Service) (name pool vmSet : string) :
  answersPlainly (availabilitySet.hostUpdate az service name pool vmSet).
Proof.
  intros w e w'. unfold availabilitySet.hostUpdate, bind.
  destruct (availabilitySet.EnsureHostInPool _ _ _ _ _ w) as [[[[[[? ?] ?] ?] [err|]] w1]|];
    unfold ret; intros [= <- _] || discriminate. exact I.
Qed.

Lemma fs_hostUpdate_plain (az : Cloud) (service : v1.Service) (name pool vmSet : string) :
  answersPlainly (FlexScaleSet.hostUpdate az service name pool vmSet).
Proof.
  intros w e w'. unfold FlexScaleSet.hostUpdate, bind.
  destruct (FlexScaleSet.EnsureHostInPool _ _ _ _ _ w) as [[[[[[? ?] ?] ?] [err|]] w1]|];
    unfold ret; intros [= <- _] || discriminate. exact I.
Qed.

Lemma processedNodes_cons (az : Cloud) (node : v1.Node) (nodes : list v1.Node) :
  processedNodes az (node :: nodes) =
  if excludedFromLoadBalancer az node then processedNodes az nodes
  else node :: processedNodes az nodes.
Proof.
  unfold processedNodes. rewrite filter_cons.
  destruct (excludedFromLoadBalancer az node); case_decide; congruence.
Qed.

(** The selection loop queues the tasks of the nodes that are not excluded,
    in the order of the nodes, unless an exclusion lookup fails. *)
Lemma as_hostUpdates_processed (az : Cloud) (service : v1.Service) (pool vmSet : string)
      (nodes : list v1.Node) :
  forall queued,
    Forall (fun node => exclusionLookupFails az node = false) nodes ->
    availabilitySet.hostUpdates az service nodes pool vmSet queued
    = inl (queued ++ map (fun node => availabilitySet.hostUpdate az service (v1.node_Name node) pool vmSet)
                         (processedNodes az nodes))%list.
Proof.
  induction nodes as [|node nodes IH]; intros queued Hall; simpl.
  - now rewrite app_nil_r.
  - inversion Hall as [|? ? Hnode Hrest]; subst.
    rewrite processedNodes_cons.
    unfold exclusionLookupFails in Hnode. unfold excludedFromLoadBalancer.
    fold (skipsControlPlane az node). destruct (skipsControlPlane az node); simpl in *.
    + now apply IH.
    + destruct (ShouldNodeExcludedFromLoadBalancer az (v1.node_Name node)) as [excl [e|]];
        simpl in *; [discriminate|].
      destruct excl.
      * now apply IH.
      * rewrite IH by assumption. rewrite <- app_assoc. reflexivity.
Qed.

Lemma fs_hostUpdates_processed (az : Cloud) (service : v1.Service) (pool vmSet : string)
      (nodes : list v1.Node) :
  forall queued,
    Forall (fun node => exclusionLookupFails az node = false) nodes ->
    FlexScaleSet.hostUpdates az service nodes pool vmSet queued
    = inl (queued ++ map (fun node => FlexScaleSet.hostUpdate az service (v1.node_Name node) pool vmSet)
                         (processedNodes az nodes))%list.
Proof.
  induction nodes as [|node nodes IH]; intros queued Hall; simpl.
  - now rewrite app_nil_r.
  - inversion Hall as [|? ? Hnode Hrest]; subst.
    rewrite processedNodes_cons.
    unfold exclusionLookupFails in Hnode. unfold excludedFromLoadBalancer.
    fold (skipsControlPlane az node). destruct (skipsControlPlane az node); simpl in *.
    + now apply IH.
    + destruct (ShouldNodeExcludedFromLoadBalancer az (v1.node_Name node)) as [excl [e|]];
        simpl in *; [discriminate|].
      destruct excl.
      * now apply IH.
      * rewrite IH by assumption. rewrite <- app_assoc. reflexivity.
Qed.

(** A failing exclusion lookup ends the selection with its error. *)
Lemma as_hostUpdates_aborts (az : Cloud) (service : v1.Service) (pool vmSet : string)
      (nodes : list v1.Node) :
  forall queued,
    Exists (fun node => exclusionLookupFails az node = true) nodes ->
    exists e, availabilitySet.hostUpdates az service nodes pool vmSet queued = inr e.
Proof.
  induction nodes as [|node nodes IH]; intros queued Hex; [inversion Hex|].
  simpl. fold (skipsControlPlane az node).
  apply Exists_cons in Hex as [Hnode|Hrest].
  - unfold exclusionLookupFails in Hnode.
    destruct (skipsControlPlane az node); [discriminate|].
    destruct (ShouldNodeExcludedFromLoadBalancer az (v1.node_Name node)) as [excl [e|]];
      [eauto|discriminate].
  - destruct (skipsControlPlane az node); [auto|].
    destruct (ShouldNodeExcludedFromLoadBalancer az (v1.node_Name node)) as [excl [e|]];
      [eauto|]. destruct excl; auto.
Qed.

Lemma fs_hostUpdates_aborts (az : Cloud) (service : v1.Service) (pool vmSet : string)
      (nodes : list v1.Node) :
  forall queued,
    Exists (fun node => exclusionLookupFails az node = true) nodes ->
    exists e, FlexScaleSet.hostUpdates az service nodes pool vmSet queued = inr e.
Proof.
  induction nodes as [|node nodes IH]; intros queued Hex; [inversion Hex|].
  simpl. fold (skipsControlPlane az node).
  apply Exists_cons in Hex as [Hnode|Hrest].
  - unfold exclusionLookupFails in Hnode.
    destruct (skipsControlPlane az node); [discriminate|].
    destruct (ShouldNodeExcludedFromLoadBalancer az (v1.node_Name node)) as [excl [e|]];
      [eauto|discriminate].
  - destruct (skipsControlPlane az node); [auto|].
    destruct (ShouldNodeExcludedFromLoadBalancer az (v1.node_Name node)) as [excl [e|]];
      [eauto|]. destruct excl; auto.
Qed.

End FanOutFacts.

Lemma failures_nil (answers : list (option error)) :
  failures answers = [] <-> Forall (eq None) answers.
Proof.
  induction answers as [|[e|] answers IH]; simpl.
  - split; [constructor|reflexivity].
  - split; [discriminate|]. intros H. inversion H; discriminate.
  - rewrite IH. split; [now constructor|]. intros H. now inversion H.
Qed.

Lemma NewAggregate_nil (errs : list error) :
  utilerrors.NewAggregate errs = None <-> errs = [].
Proof. destruct errs; simpl; split; congruence. Qed.




(** The cluster of the fixture: the nodes master-0 and external are left
    out, the node ghost has no machine and fails, worker-0 and worker-1 are
    brought into the pool all the same. *)
Lemma hosts_in_pool_of_the_cluster :
  exists e w',
    availabilitySet.EnsureHostsInPool id (Fixture.cloud true) Fixture.service
      Fixture.clusterNodes (Fixture.lbA "pool-x") "" Fixture.world
    = Done (Some (Aggregate [wrapError e (Sentinel InstanceNotFound)]), w') /\
    map (fun u => fst u) (updates w') = [("rg1", "worker-0-nic"); ("rg1", "worker-1-nic")].
Proof. eexists. eexists. split; vm_compute; reflexivity. Qed.

(** ** Removal of a backend pool *)

Section Deletion.

Import availabilitySet.

Variable schedule : list (M (option error)) -> list (M (option error)).

Lemma dropFirstPool_spec (backendPoolID : string) (pre post : list network.BackendAddressPool)
      (pool : network.BackendAddressPool) :
  Forall (fun q => namesPool backendPoolID q = false) pre ->
  namesPool backendPoolID pool = true ->
  dropFirstPool backendPoolID (pre ++ pool :: post) = (pre ++ post)%list.
Proof.
  intros Hpre Hpool. induction Hpre as [|q pre Hq _ IH]; simpl.
  - unfold namesPool in Hpool. now rewrite Hpool.
  - unfold namesPool in Hq. now rewrite Hq, IH.
Qed.

Lemma dropFirstPool_absent (backendPoolID : string) (pools : list network.BackendAddressPool) :
  Forall (fun q => namesPool backendPoolID q = false) pools ->
  dropFirstPool backendPoolID pools = pools.
Proof.
  induction 1 as [|q pools Hq _ IH]; simpl; [reflexivity|].
  unfold namesPool in Hq. now rewrite Hq, IH.
Qed.

(** The pool is taken out of a membership list where it occurs last, the
    other members keeping their order; a list without it is unchanged. *)
Lemma dropLastPool_spec (backendPoolID : string) (pre post : list network.BackendAddressPool)
      (pool : network.BackendAddressPool) :
  namesPool backendPoolID pool = true ->
  Forall (fun q => namesPool backendPoolID q = false) post ->
  dropLastPool backendPoolID (pre ++ pool :: post) = (pre ++ post)%list.
Proof.
  intros Hpool Hpost. unfold dropLastPool.
  rewrite rev_app_distr. simpl. rewrite <- app_assoc. simpl.
  rewrite (dropFirstPool_spec backendPoolID (rev post) (rev pre) pool);
    [|now apply List.Forall_rev|assumption].
  now rewrite rev_app_distr, !rev_involutive.
Qed.

Lemma dropLastPool_absent (backendPoolID : string) (pools : list network.BackendAddressPool) :
  Forall (fun q => namesPool backendPoolID q = false) pools ->
  dropLastPool backendPoolID pools = pools.
Proof.
  intros H. unfold dropLastPool.
  rewrite dropFirstPool_absent by now apply List.Forall_rev.
  apply rev_involutive.
Qed.

Lemma scanMembers_step (as_ : Cloud) (backendPoolID vmSetName : string) (w : World)
      (ipConfigurationID : string) (rest : list string) (d : disposition)
      (nicUpdaters : list (M (option error))) (allErrs : list error) :
  memberDisposition as_ backendPoolID vmSetName w ipConfigurationID d ->
  scanMembers as_ backendPoolID vmSetName (ipConfigurationID :: rest) nicUpdaters allErrs w
  = scanMembers as_ backendPoolID vmSetName rest
      (nicUpdaters ++ map (nicUpdater as_) (strippedInterfaces [d]))%list
      (allErrs ++ lookupErrors [d])%list w.
Proof.
  destruct d as [e| | | |nic']; cbn [memberDisposition strippedInterfaces lookupErrors map].
  - intros (nodeName & vmSet & Hlook & Hnot).
    cbn [scanMembers]. rewrite bind_apply, Hlook. rewrite Hnot.
    cbn [negb option_list]. now rewrite app_nil_r.
  - intros (vmSet & err & Hlook & Herr).
    cbn [scanMembers]. rewrite bind_apply, Hlook.
    destruct err as [e|]; [rewrite (Herr e eq_refl)|]; cbn [negb String.eqb];
      now rewrite !app_nil_r.
  - intros (nic & vmasName & (nodeName & vmasID & (vmSet & err & Hlook & Herr) & Hname & Hnic & Hset)
            & Hother).
    cbn [scanMembers]. rewrite bind_apply, Hlook.
    assert (Hok : (if err is Some e then negb (errors_Is e InstanceNotFound) else false) = false)
      by (destruct err as [e|]; [now rewrite (Herr e eq_refl)|reflexivity]).
    rewrite Hok, Hname. rewrite bind_apply, Hnic, Hset, Hother. cbn [negb].
    now rewrite !app_nil_r.
  - intros (nic & vmasName & props & (nodeName & vmasID & (vmSet & err & Hlook & Herr) & Hname & Hnic & Hset)
            & Hsame & Hprops & Hstate & Hconfigs).
    cbn [scanMembers]. rewrite bind_apply, Hlook.
    assert (Hok : (if err is Some e then negb (errors_Is e InstanceNotFound) else false) = false)
      by (destruct err as [e|]; [now rewrite (Herr e eq_refl)|reflexivity]).
    rewrite Hok, Hname. rewrite bind_apply, Hnic, Hset, Hsame. cbn [negb].
    rewrite bind_apply. unfold lift at 1. rewrite Hprops. cbn [deref]. rewrite Hstate, Hconfigs.
    now rewrite !app_nil_r.
  - intros (nic & vmasName & props & configs & configs'
            & (nodeName & vmasID & (vmSet & err & Hlook & Herr) & Hname & Hnic & Hset)
            & Hsame & Hprops & Hstate & Hconfigs & Hstrip & ->).
    cbn [scanMembers]. rewrite bind_apply, Hlook.
    assert (Hok : (if err is Some e then negb (errors_Is e InstanceNotFound) else false) = false)
      by (destruct err as [e|]; [now rewrite (Herr e eq_refl)|reflexivity]).
    rewrite Hok, Hname. rewrite bind_apply, Hnic, Hset, Hsame. cbn [negb].
    rewrite bind_apply. unfold lift at 1. rewrite Hprops. cbn [deref]. rewrite Hstate, Hconfigs.
    rewrite bind_apply. unfold lift at 1. rewrite Hstrip.
    now rewrite !app_nil_r.
Qed.

Lemma scanMembers_all (as_ : Cloud) (backendPoolID vmSetName : string) (w : World)
      (ipConfigurationIDs : list string) (ds : list disposition) :
  Forall2 (memberDisposition as_ backendPoolID vmSetName w) ipConfigurationIDs ds ->
  forall nicUpdaters allErrs,
    scanMembers as_ backendPoolID vmSetName ipConfigurationIDs nicUpdaters allErrs w
    = Done (Gathered (nicUpdaters ++ map (nicUpdater as_) (strippedInterfaces ds))%list
                     (allErrs ++ lookupErrors ds)%list, w).
Proof.
  induction 1 as [|id d ids ds Hd _ IH]; intros nicUpdaters allErrs.
  - simpl. unfold ret. now rewrite !app_nil_r.
  - rewrite (scanMembers_step _ _ _ _ _ _ _ _ _ Hd), IH.
    rewrite <- !app_assoc. do 3 f_equal.
    + rewrite <- map_app. f_equal. destruct d; reflexivity.
    + destruct d; reflexivity.
Qed.

Lemma runEach_nicUpdaters (as_ : Cloud) (order : list network.Interface) :
  forall w,
    runEach (map (nicUpdater as_) order) w
    = Done (map (pushAnswer as_) order,
            {| nics := foldl (pushed as_) (nics w) order;
               updates := (updates w ++ map (pushRequest as_) order)%list |}).
Proof.
  induction order as [|nic order IH]; intros w.
  - simpl. unfold ret. rewrite app_nil_r. now destruct w.
  - cbn [map runEach]. rewrite bind_apply.
    unfold nicUpdater at 1, InterfacesClient_CreateOrUpdate. cbn beta.
    change (InterfacesClient_CreateOrUpdateError as_ (ResourceGroup as_)
              (to.String (network.nic_Name nic)) nic) with (pushAnswer as_ nic).
    assert (Hpushed : pushed as_ (nics w) nic
                      = if pushAnswer as_ nic is Some _ then nics w
                        else <[(ResourceGroup as_, to.String (network.nic_Name nic)) := nic]> (nics w))
      by reflexivity.
    assert (Hrequest : pushRequest as_ nic
                       = (ResourceGroup as_, to.String (network.nic_Name nic), nic))
      by reflexivity.
    destruct (pushAnswer as_ nic) as [e|] eqn:Ea;
      rewrite bind_apply, IH; unfold ret; cbn [nics updates foldl];
      rewrite Hpushed, Hrequest, <- app_assoc; reflexivity.
Qed.

Lemma stripPool_spec (backendPoolID : string) (configs : list network.InterfaceIPConfiguration) :
  forall configs',
    stripPool backendPoolID configs = Done configs' ->
    Forall2 (strippedOf backendPoolID) configs configs'.
Proof.
  induction configs as [|c configs IH]; intros configs'; simpl.
  - intros [= <-]. constructor.
  - destruct (network.ipc_Properties c) as [props|] eqn:Ep; simpl; [|discriminate].
    destruct (stripPool backendPoolID configs) as [rest|]; simpl; [|discriminate].
    intros [= <-]. constructor; [|now apply IH].
    exists props. split; [exact Ep|].
    destruct (to.Bool (network.ipc_Primary props)); reflexivity.
Qed.


End Deletion.



(** Under the basic SKU the member worker-1 is not in the set otherpool: the
    removal ends there with nil, and worker-2, a member of the set that
    comes after it, keeps the pool; no update is pushed. *)
Lemma member_outside_the_set_ends_the_removal :
  availabilitySet.EnsureBackendPoolDeleted id (Fixture.cloud false) Fixture.service
    (Fixture.lbA "pool-x") "otherpool"
    (Some [Fixture.memberPool ["worker-1-nic"; "worker-2-nic"]]) true Fixture.world
  = Done (None, Fixture.world).
Proof. vm_compute; reflexivity. Qed.

(** The interface of worker-3 is in the failed state: the removal ends there
    with nil, and the update queued for worker-1 before it is never pushed. *)
Lemma failed_interface_ends_the_removal :
  availabilitySet.EnsureBackendPoolDeleted id (Fixture.cloud true) Fixture.service
    (Fixture.lbA "pool-y") "agentpool"
    (Some [ {| network.pool_Properties :=
                 Some {| network.BackendIPConfigurations :=
                           Some [Some (Fixture.ipConfigurationID "worker-1-nic");
                                 Some (Fixture.ipConfigurationID "worker-3-nic")] |};
               network.pool_ID := Some (Fixture.lbA "pool-y") |} ]) true Fixture.world
  = Done (None, Fixture.world).
Proof. vm_compute; reflexivity. Qed.

(** ** Idempotence of the reconciliation *)

Section Pass.

Variable RG : string.
Variable step : network.Interface -> outcome (option network.Interface).
Variable store0 : gmap (string * string) network.Interface.

Hypothesis step_settles :
  forall v v', step v = Done (Some v') ->
               step v' = Done None /\ network.nic_Name v' = network.nic_Name v.

Local Abbreviation WF := (wellFormed RG store0).
Local Abbreviation HasKind := (hasKind RG step store0).
Local Abbreviation After := (afterFirstPass RG step).
Local Abbreviation Second := (inSecondPass RG step).
Local Abbreviation Settled := (settled step).

Lemma lastStored_snoc (ks : list kind) (k : kind) (name : string) :
  lastStored (ks ++ [k]) name =
  match k with
  | KStore name' c => if String.eqb name' name then Some c else lastStored ks name
  | _ => lastStored ks name
  end.
Proof.
  induction ks as [|k0 ks IH]; simpl.
  - destruct k as [| | |name' c]; reflexivity.
  - rewrite IH. destruct k as [| | |name' c]; try reflexivity.
    destruct (String.eqb name' name); reflexivity.
Qed.

Lemma worksOn_snoc (ks : list kind) (k : kind) (name : string) :
  worksOn (ks ++ [k]) name =
  worksOn ks name || match k with KInPlace name' => String.eqb name' name | _ => false end.
Proof.
  induction ks as [|k0 ks IH]; simpl.
  - destruct k; simpl; try reflexivity. now rewrite orb_false_r.
  - rewrite IH. destruct k0; try reflexivity. now rewrite orb_assoc.
Qed.

Lemma wellFormed_same (w w' : World) :
  nics w' = nics w -> WF w -> WF w'.
Proof. unfold wellFormed. now intros ->. Qed.

Lemma wellFormed_insert (w w' : World) (name : string) (v : network.Interface) :
  nics w' = <[(RG, name) := v]> (nics w) ->
  network.nic_Name v = Some name ->
  WF w -> WF w'.
Proof.
  intros Hw' Hname [Hown Hoff]. unfold wellFormed. rewrite Hw'. split.
  - intros rg nm nic. destruct (decide ((RG, name) = (rg, nm))) as [[= <- <-]|Hne].
    + rewrite lookup_insert_eq. now intros [= <-].
    + rewrite lookup_insert_ne by exact Hne. apply Hown.
  - intros rg nm Hrg. rewrite lookup_insert_ne by congruence. now apply Hoff.
Qed.

(** One task of the first pass. *)
Lemma first_pass_step (task : M (option error)) (k : kind) (done : list kind)
      (w : World) (e : option error) (w' : World) :
  HasKind task k -> WF w -> After done (nics w) ->
  task w = Done (e, w') ->
  WF w' /\ After (done ++ [k]) (nics w') /\ k <> KPanic.
Proof.
  intros Hk Hwf Hafter Hrun. destruct k as [| |name|name c]; simpl in Hk.
  - rewrite (Hk w Hwf) in Hrun. discriminate.
  - destruct (Hk w Hwf) as (e1 & w1 & Hrun1 & Hsame). rewrite Hrun in Hrun1.
    injection Hrun1 as <- <-. split; [now apply (wellFormed_same w)|]. split; [|discriminate].
    intros nm. rewrite lastStored_snoc, worksOn_snoc, orb_false_r, Hsame. apply Hafter.
  - specialize (Hk w Hwf).
    destruct (nics w !! (RG, name)) as [v|] eqn:Ev.
    + destruct (step v) as [[v'|]|] eqn:Es.
      * destruct Hk as (e1 & w1 & Hrun1 & Hw1). rewrite Hrun in Hrun1.
        injection Hrun1 as <- <-.
        destruct (step_settles v v' Es) as [Hset Hname].
        assert (Hnm : network.nic_Name v' = Some name)
          by (rewrite Hname; apply (proj1 Hwf RG name v Ev)).
        split; [now apply (wellFormed_insert w w' name v')|]. split; [|discriminate].
        intros nm. rewrite lastStored_snoc, worksOn_snoc, Hw1.
        destruct (String.eqb name nm) eqn:Enm.
        -- apply String.eqb_eq in Enm as <-. rewrite lookup_insert_eq. split.
           ++ intros c Hc. destruct (Hafter name) as [Hlast _].
              destruct (Hlast c Hc) as [Hc1 Hc2]. rewrite Ev in Hc1. injection Hc1 as <-.
              rewrite Es in Hc2. discriminate.
           ++ intros _. exact Hset.
        -- apply String.eqb_neq in Enm. rewrite lookup_insert_ne by congruence.
           rewrite orb_false_r. apply Hafter.
      * destruct Hk as (e1 & w1 & Hrun1 & Hsame). rewrite Hrun in Hrun1.
        injection Hrun1 as <- <-. split; [now apply (wellFormed_same w)|]. split; [|discriminate].
        intros nm. rewrite lastStored_snoc, worksOn_snoc, Hsame.
        destruct (String.eqb name nm) eqn:Enm.
        -- apply String.eqb_eq in Enm as <-. split; [apply Hafter|].
           intros _. rewrite Ev. exact Es.
        -- rewrite orb_false_r. apply Hafter.
      * rewrite Hk in Hrun. discriminate.
    + destruct Hk as (e1 & w1 & Hrun1 & Hsame). rewrite Hrun in Hrun1.
      injection Hrun1 as <- <-. split; [now apply (wellFormed_same w)|]. split; [|discriminate].
      intros nm. rewrite lastStored_snoc, worksOn_snoc, Hsame.
      destruct (String.eqb name nm) eqn:Enm.
      * apply String.eqb_eq in Enm as <-. split; [apply Hafter|].
        intros _. now rewrite Ev.
      * rewrite orb_false_r. apply Hafter.
  - destruct Hk as (Hset & Hname & Hk).
    destruct (Hk w Hwf) as (e1 & w1 & Hrun1 & Hw1). rewrite Hrun in Hrun1.
    injection Hrun1 as <- <-.
    split; [now apply (wellFormed_insert w w' name c)|]. split; [|discriminate].
    intros nm. rewrite lastStored_snoc, worksOn_snoc, orb_false_r, Hw1.
    destruct (String.eqb name nm) eqn:Enm.
    + apply String.eqb_eq in Enm as <-. rewrite lookup_insert_eq. split.
      * now intros c' [= <-].
      * intros _. exact Hset.
    + apply String.eqb_neq in Enm. rewrite lookup_insert_ne by congruence. apply Hafter.
Qed.

Lemma first_pass (tasks : list (M (option error))) (kinds : list kind) :
  Forall2 HasKind tasks kinds ->
  forall done w answers w1,
    WF w -> After done (nics w) ->
    runEach tasks w = Done (answers, w1) ->
    WF w1 /\ After (done ++ kinds) (nics w1) /\ Forall (fun k => k <> KPanic) kinds.
Proof.
  induction 1 as [|task k tasks kinds Hk _ IH]; intros done w answers w1 Hwf Hafter.
  - simpl. unfold ret. intros [= _ <-]. rewrite app_nil_r. auto.
  - cbn [runEach]. rewrite bind_apply.
    destruct (task w) as [[e w']|] eqn:Et; [|discriminate].
    rewrite bind_apply.
    destruct (runEach tasks w') as [[answers' w1']|] eqn:Er; [|discriminate].
    unfold ret. intros [= _ <-].
    destruct (first_pass_step task k done w e w' Hk Hwf Hafter Et) as (Hwf' & Hafter' & Hnp).
    destruct (IH (done ++ [k])%list w' answers' w1' Hwf' Hafter' Er) as (Hwf1 & Hafter1 & Hall).
    rewrite <- app_assoc in Hafter1. auto.
Qed.

(** One task of the second pass. *)
Lemma second_pass_step (store1 : gmap (string * string) network.Interface)
      (task : M (option error)) (k : kind) (done : list kind) (w : World) :
  HasKind task k -> k <> KPanic ->
  (forall name, k = KInPlace name -> Settled (store1 !! (RG, name))) ->
  WF w -> Second store1 done (nics w) ->
  exists e w', task w = Done (e, w') /\ WF w' /\ Second store1 (done ++ [k]) (nics w').
Proof.
  intros Hk Hnp Hsettled Hwf Hsecond. destruct k as [| |name|name c]; simpl in Hk.
  - contradiction.
  - destruct (Hk w Hwf) as (e & w' & Hrun & Hsame). exists e, w'.
    split; [exact Hrun|]. split; [now apply (wellFormed_same w)|].
    intros nm. rewrite lastStored_snoc, Hsame. apply Hsecond.
  - specialize (Hk w Hwf). specialize (Hsettled name eq_refl).
    assert (Hquiet : quiet task w).
    { destruct (Hsecond name) as [Hlook Hconst]. rewrite Hlook in Hk.
      destruct (lastStored done name) as [c|] eqn:El.
      - now rewrite (Hconst c eq_refl) in Hk.
      - destruct (store1 !! (RG, name)) as [v|]; [|exact Hk].
        simpl in Hsettled. now rewrite Hsettled in Hk. }
    destruct Hquiet as (e & w' & Hrun & Hsame). exists e, w'.
    split; [exact Hrun|]. split; [now apply (wellFormed_same w)|].
    intros nm. rewrite lastStored_snoc, Hsame. apply Hsecond.
  - destruct Hk as (Hset & Hname & Hk).
    destruct (Hk w Hwf) as (e & w' & Hrun & Hw'). exists e, w'.
    split; [exact Hrun|]. split; [now apply (wellFormed_insert w w' name c)|].
    intros nm. rewrite lastStored_snoc, Hw'.
    destruct (String.eqb name nm) eqn:Enm.
    + apply String.eqb_eq in Enm as <-. rewrite lookup_insert_eq.
      split; [reflexivity|]. now intros c' [= <-].
    + apply String.eqb_neq in Enm. rewrite lookup_insert_ne by congruence. apply Hsecond.
Qed.

Lemma worksOn_cons (k : kind) (ks : list kind) (name : string) :
  worksOn (k :: ks) name =
  match k with KInPlace name' => String.eqb name' name | _ => false end || worksOn ks name.
Proof. destruct k; reflexivity. Qed.

Lemma second_pass (store1 : gmap (string * string) network.Interface)
      (tasks : list (M (option error))) (kinds : list kind) :
  Forall2 HasKind tasks kinds ->
  Forall (fun k => k <> KPanic) kinds ->
  (forall name, worksOn kinds name = true -> Settled (store1 !! (RG, name))) ->
  forall done w,
    WF w -> Second store1 done (nics w) ->
    exists answers w2,
      runEach tasks w = Done (answers, w2) /\ WF w2 /\ Second store1 (done ++ kinds) (nics w2).
Proof.
  induction 1 as [|task k tasks kinds Hk _ IH]; intros Hnp Hsettled done w Hwf Hsecond.
  - exists [], w. rewrite app_nil_r. auto.
  - inversion Hnp as [|? ? Hk_np Hrest]; subst.
    destruct (second_pass_step store1 task k done w Hk Hk_np) as (e & w' & Hrun & Hwf' & Hsecond');
      [|exact Hwf|exact Hsecond|].
    { intros name ->. apply Hsettled. simpl. now rewrite String.eqb_refl. }
    destruct (IH Hrest) with (done := (done ++ [k])%list) (w := w')
      as (answers & w2 & Hrun2 & Hwf2 & Hsecond2); [|exact Hwf'|exact Hsecond'|].
    { intros name Hname. apply Hsettled. rewrite worksOn_cons, Hname. apply orb_true_r. }
    exists (e :: answers), w2. cbn [runEach]. rewrite bind_apply, Hrun, bind_apply, Hrun2.
    rewrite <- app_assoc in Hsecond2. auto.
Qed.

End Pass.

(** The tasks of a pass, run a second time, leave every interface as the
    first run left it. *)
Lemma pass_is_idempotent (RG : string)
      (step : network.Interface -> outcome (option network.Interface))
      (tasks : list (M (option error))) (w : World) :
  (forall v v', step v = Done (Some v') ->
                step v' = Done None /\ network.nic_Name v' = network.nic_Name v) ->
  storedUnderOwnName (nics w) ->
  Forall (fun task => exists k, hasKind RG step (nics w) task k) tasks ->
  forall answers w1,
    runEach tasks w = Done (answers, w1) ->
    forall w1', nics w1' = nics w1 ->
      exists answers2 w2, runEach tasks w1' = Done (answers2, w2) /\ nics w2 = nics w1.
Proof.
  intros Hstep Hown Hkinds answers w1 Hrun w1' Hw1'.
  assert (Hex : exists kinds, Forall2 (hasKind RG step (nics w)) tasks kinds).
  { clear Hrun. induction Hkinds as [|task tasks [k Hk] _ [kinds IH]].
    - exists []. constructor.
    - exists (k :: kinds). now constructor. }
  destruct Hex as [kinds Hall].
  assert (Hwf : wellFormed RG (nics w) w) by (split; [exact Hown|reflexivity]).
  assert (Hafter0 : afterFirstPass RG step [] (nics w)) by (intros name; split; discriminate).
  destruct (first_pass RG step (nics w) Hstep tasks kinds Hall [] w answers w1 Hwf Hafter0 Hrun)
    as (Hwf1 & Hafter1 & Hnp). cbn [app] in Hafter1.
  assert (Hwf1' : wellFormed RG (nics w) w1') by now apply (wellFormed_same RG (nics w) w1).
  assert (Hsecond0 : inSecondPass RG step (nics w1) [] (nics w1')).
  { intros name. rewrite Hw1'. split; [reflexivity|discriminate]. }
  destruct (second_pass RG step (nics w) (nics w1) tasks kinds Hall Hnp) with
    (done := @nil kind) (w := w1') as (answers2 & w2 & Hrun2 & Hwf2 & Hsecond2);
    [|exact Hwf1'|exact Hsecond0|].
  { intros name. apply Hafter1. }
  exists answers2, w2. split; [exact Hrun2|]. cbn [app] in Hsecond2.
  apply map_eq. intros [rg nm]. destruct (decide (rg = RG)) as [->|Hrg].
  - destruct (Hsecond2 nm) as [Hlook _]. rewrite Hlook.
    destruct (lastStored kinds nm) as [c|] eqn:El; [|reflexivity].
    symmetry. apply Hafter1. exact El.
  - rewrite (proj2 Hwf2 rg nm Hrg). symmetry. apply (proj2 Hwf1 rg nm Hrg).
Qed.

Section Reconcile.

Import availabilitySet.

Lemma as_EnsureHostInPool_unfold (as_ : Cloud) (service : v1.Service)
      (nodeName backendPoolID vmSetName : string) :
  availabilitySet.EnsureHostInPool as_ service nodeName backendPoolID vmSetName =
  let* (nic, _, err) :=
    getPrimaryInterfaceWithVMSet as_ (mapNodeNameToVMName as_ nodeName) vmSetName in
  match err with
  | Some e => if errors_Is e errNotInVMSet then ret (noHost None) else ret (noHost (Some e))
  | None => asReconcile as_ service backendPoolID nic
  end.
Proof. reflexivity. Qed.

Lemma fs_EnsureHostInPool_unfold (fs : Cloud) (service : v1.Service)
      (nodeName backendPoolID vmSetNameOfLB : string) :
  FlexScaleSet.EnsureHostInPool fs service nodeName backendPoolID vmSetNameOfLB =
  let name := mapNodeNameToVMName fs nodeName in
  let* (vmssFlexName, err) := lift (FlexScaleSet.getNodeVmssFlexName fs name) in
  if err is Some _ then ret (noHost None) else
  if negb (useStandardLoadBalancer fs)
  then ret (noHost (Some (errorString
              "EnsureHostInPool: VMSS Flex does not support Basic Load Balancer"))) else
  if outsideScaleSet fs vmSetNameOfLB vmssFlexName
  then ret (noHost (Some (Sentinel errNotInVMSet))) else
  let* (nic, err) := FlexScaleSet.GetPrimaryInterface fs name in
  if err is Some e then ret (noHost (Some e)) else
  fsReconcile fs service backendPoolID name vmssFlexName nic.
Proof. reflexivity. Qed.

(** Case analysis on the scrutinee of an innermost [match] of the goal. *)
Ltac destruct_match :=
  match goal with
  | |- context [match ?x with _ => _ end] =>
      lazymatch x with
      | context [match _ with _ => _ end] => fail
      | _ => destruct x eqn:?
      end
  end.

Ltac crunch := repeat (cbn beta iota; try destruct_match).

Lemma asReconcile_step (az : Cloud) (service : v1.Service) (backendPoolID : string)
      (nic : network.Interface) (w : World) :
  reconciled az (ensureStep az service backendPoolID nic)
             (asReconcile az service backendPoolID nic w) w.
Proof.
  unfold reconciled, ensureStep, asReconcile, selectedIPConfig, CreateOrUpdateInterface,
    InterfacesClient_CreateOrUpdate, bind, lift, ret, obind, deref.
  crunch; try discriminate; try reflexivity; simplify_eq; eauto 10.
Qed.

Lemma fsReconcile_step (az : Cloud) (service : v1.Service) (backendPoolID : string)
      (name vmssFlexName : string) (nic : network.Interface) (w : World) :
  reconciled az (ensureStep az service backendPoolID nic)
             (fsReconcile az service backendPoolID name vmssFlexName nic w) w.
Proof.
  unfold reconciled, ensureStep, fsReconcile, selectedIPConfig, CreateOrUpdateInterface,
    InterfacesClient_CreateOrUpdate, bind, lift, ret, obind, deref.
  crunch; try discriminate; try reflexivity; simplify_eq; eauto 10.
Qed.

(** Appending a pool to a configuration changes nothing of what the
    selection of the configuration looks at. *)
Lemma firstPrimaryIPConfig_alter (pools : list network.BackendAddressPool)
      (configs : list network.InterfaceIPConfiguration) :
  forall i j,
    firstPrimaryIPConfig (alter (fun config => withBackendPools config pools) i configs) j
    = firstPrimaryIPConfig configs j.
Proof.
  induction configs as [|c configs IH]; intros [|i] j; try reflexivity.
  - simpl. destruct (network.ipc_Properties c) as [props|]; reflexivity.
  - simpl. destruct (network.ipc_Properties c) as [props|]; simpl; [|reflexivity].
    destruct (network.ipc_Primary props) as [[|]|]; simpl; try reflexivity. apply IH.
Qed.

Lemma firstIPConfigOfVersion_alter (pools : list network.BackendAddressPool)
      (configs : list network.InterfaceIPConfiguration) (ipVersion : string) :
  forall i j,
    firstIPConfigOfVersion (alter (fun config => withBackendPools config pools) i configs)
                           ipVersion j
    = firstIPConfigOfVersion configs ipVersion j.
Proof.
  induction configs as [|c configs IH]; intros [|i] j; try reflexivity.
  - simpl. destruct (network.ipc_Properties c) as [props|]; reflexivity.
  - simpl. destruct (network.ipc_Properties c) as [props|]; simpl; [|reflexivity].
    destruct (_ && _); [reflexivity|]. apply IH.
Qed.

Lemma selectedIPConfig_setBackendPools (az : Cloud) (service : v1.Service)
      (nic : network.Interface) (i : nat) (pools : list network.BackendAddressPool) :
  selectedIPConfig az service (setBackendPools nic i pools) = selectedIPConfig az service nic.
Proof.
  unfold selectedIPConfig, getPrimaryIPConfig, getIPConfigByIPFamily, setBackendPools.
  destruct (network.nic_Properties nic) as [props|] eqn:Ep; [|now rewrite Ep].
  destruct (network.IPConfigurations props) as [configs|] eqn:Ec;
    [|now rewrite Ep; cbn [deref obind]; rewrite Ec].
  cbn [withIPConfigurations network.nic_Properties network.nic_Name]. rewrite Ep.
  cbn [option_map deref obind network.IPConfigurations]. rewrite Ec.
  rewrite length_alter, firstPrimaryIPConfig_alter, firstIPConfigOfVersion_alter.
  reflexivity.
Qed.

Lemma nic_Name_setBackendPools (nic : network.Interface) (i : nat)
      (pools : list network.BackendAddressPool) :
  network.nic_Name (setBackendPools nic i pools) = network.nic_Name nic.
Proof.
  unfold setBackendPools.
  destruct (network.nic_Properties nic) as [props|]; [|reflexivity].
  destruct (network.IPConfigurations props); reflexivity.
Qed.

Lemma state_setBackendPools (nic : network.Interface) (i : nat)
      (pools : list network.BackendAddressPool) (props : network.InterfacePropertiesFormat) :
  network.nic_Properties nic = Some props ->
  exists props',
    network.nic_Properties (setBackendPools nic i pools) = Some props' /\
    network.ProvisioningState props' = network.ProvisioningState props.
Proof.
  intros Ep. unfold setBackendPools. rewrite Ep.
  destruct (network.IPConfigurations props); [|eauto].
  cbn [withIPConfigurations network.nic_Properties]. rewrite Ep. simpl. eauto.
Qed.

Lemma ipConfigProperties_setBackendPools (nic : network.Interface) (i : nat)
      (pools : list network.BackendAddressPool)
      (configProps : network.InterfaceIPConfigurationPropertiesFormat) :
  ipConfigProperties nic (Some i) = Done configProps ->
  exists configProps',
    ipConfigProperties (setBackendPools nic i pools) (Some i) = Done configProps' /\
    network.LoadBalancerBackendAddressPools configProps' = Some pools.
Proof.
  unfold ipConfigProperties, setBackendPools. cbn [deref obind].
  destruct (network.nic_Properties nic) as [props|] eqn:Ep; [|discriminate]. cbn [deref obind].
  destruct (network.IPConfigurations props) as [configs|] eqn:Ec; [|discriminate].
  cbn [deref obind withIPConfigurations network.nic_Properties]. rewrite Ep.
  cbn [option_map deref obind network.IPConfigurations].
  rewrite list_lookup_alter_eq.
  destruct (configs !! i) as [config|]; [|discriminate]. cbn [fmap option_fmap option_map deref obind].
  unfold withBackendPools at 1. cbn [network.ipc_Properties].
  destruct (network.ipc_Properties config) as [cp|]; [|discriminate].
  intros _. cbn [option_map deref]. eauto.
Qed.

Lemma foundPoolIn_app (backendPoolID : string) (pools more : list network.BackendAddressPool) :
  foundPoolIn backendPoolID pools = Done false ->
  foundPoolIn backendPoolID (pools ++ more) = foundPoolIn backendPoolID more.
Proof.
  induction pools as [|pool pools IH]; [reflexivity|]. simpl.
  destruct (network.pool_ID pool) as [id|]; [|discriminate]. simpl.
  destruct (strings.EqualFold backendPoolID id); [discriminate|]. exact IH.
Qed.

(** The interface that [ensureStep] stores needs no further work, and
    carries the name of the interface it was made from. *)
Lemma ensureStep_settles (az : Cloud) (service : v1.Service) (backendPoolID : string)
      (v v' : network.Interface) :
  ensureStep az service backendPoolID v = Done (Some v') ->
  ensureStep az service backendPoolID v' = Done None /\
  network.nic_Name v' = network.nic_Name v.
Proof.
  unfold ensureStep at 1.
  destruct (network.nic_Properties v) as [props|] eqn:Ep; cbn [deref obind]; [|discriminate].
  destruct (String.eqb _ _) eqn:Estate; [discriminate|].
  destruct (selectedIPConfig az service v) as [[primaryIPConfig [e|]]|] eqn:Esel;
    cbn [obind]; try discriminate.
  destruct (ipConfigProperties v primaryIPConfig) as [configProps|] eqn:Ecp;
    cbn [obind]; [|discriminate].
  destruct primaryIPConfig as [i|]; [|discriminate].
  destruct (foundPoolIn _ _) as [[|]|] eqn:Efound; cbn [obind]; try discriminate.
  destruct (if useStandardLoadBalancer az && _ then _ else _) as [[isSameLB old] [e|]];
    [discriminate|].
  destruct isSameLB; cbn [negb]; [|discriminate].
  change (default 0%nat (Some i)) with i.
  set (members := default [] (network.LoadBalancerBackendAddressPools configProps)) in *.
  set (pools := (members ++ _)%list).
  destruct (network.nic_Name (setBackendPools v i pools)) as [name|] eqn:Ename;
    cbn [deref obind]; [|discriminate].
  destruct (InterfacesClient_CreateOrUpdateError _ _ _ _); [discriminate|].
  intros [= <-]. split; [|apply nic_Name_setBackendPools].
  unfold ensureStep.
  destruct (state_setBackendPools v i pools props Ep) as (props' & Ep' & Estate').
  rewrite Ep'. cbn [deref obind]. rewrite Estate', Estate.
  rewrite selectedIPConfig_setBackendPools, Esel. cbn [obind].
  destruct (ipConfigProperties_setBackendPools v i pools configProps Ecp)
    as (configProps' & Ecp' & Epools').
  rewrite Ecp'. cbn [obind]. rewrite Epools'.
  change (default [] (Some pools)) with pools.
  unfold pools. rewrite (foundPoolIn_app _ _ _ Efound). simpl.
  now rewrite EqualFold_refl.
Qed.

(** The resolution of the interface depends on the compute side of the
    cloud alone, up to the one read of the network API. *)
Lemma as_resolution (az : Cloud) (nodeName vmSetName : string) :
  exists c, getPrimaryInterfaceWithVMSet az nodeName vmSetName = asResolution az c.
Proof.
  unfold getPrimaryInterfaceWithVMSet, bind, lift, ret.
  crunch;
    solve [ exists Panics; reflexivity
          | eexists (Fails _); reflexivity
          | eexists (Reads _ _ _); reflexivity ].
Qed.

Lemma fs_resolution (az : Cloud) (nodeName : string) :
  exists c, FlexScaleSet.GetPrimaryInterface az nodeName = fsResolution az c.
Proof.
  unfold FlexScaleSet.GetPrimaryInterface, bind, lift, ret.
  crunch;
    solve [ exists Panics; reflexivity
          | eexists (Fails _); reflexivity
          | eexists (Reads _ _ ""); reflexivity ].
Qed.

(** A task that reads an interface and reconciles it has a kind. *)
Lemma reader_kind (az : Cloud) (service : v1.Service) (backendPoolID : string)
      (store0 : gmap (string * string) network.Interface) (resourceGroup name : string)
      (task : M (option error)) (tail : network.Interface -> M hostResult)
      (onError : error -> option error) (wrap : hostResult -> option error) :
  storedUnderOwnName store0 ->
  (forall nic w, reconciled az (ensureStep az service backendPoolID nic) (tail nic w) w) ->
  (forall w,
      task w = match InterfacesClient_Get az resourceGroup name w with
               | Done ((nic, Some e), w') => Done (onError e, w')
               | Done ((nic, None), w') =>
                   match tail nic w' with
                   | Done (r, w'') => Done (wrap r, w'')
                   | Panic => Panic
                   end
               | Panic => Panic
               end) ->
  exists k, hasKind (ResourceGroup az) (ensureStep az service backendPoolID) store0 task k.
Proof.
  intros Hown Htail Htask. unfold InterfacesClient_Get in Htask.
  destruct (InterfacesClient_GetError az resourceGroup name) as [e|] eqn:Hget.
  { exists KStatic. intros w _. unfold quiet. rewrite Htask. eexists _, _. split; reflexivity. }
  assert (Hread : forall w v,
             nics w !! (resourceGroup, name) = Some v ->
             match ensureStep az service backendPoolID v with
             | Panic => task w = Panic
             | Done None => quiet task w
             | Done (Some v') =>
                 exists nm e w', network.nic_Name v' = Some nm /\ task w = Done (e, w') /\
                                 nics w' = <[(ResourceGroup az, nm) := v']> (nics w)
             end).
  { intros w v Hv. specialize (Htail v w). specialize (Htask w). rewrite Hv in Htask.
    unfold reconciled in Htail.
    destruct (ensureStep az service backendPoolID v) as [[v'|]|].
    - destruct Htail as (nm & r & w' & Hnm & Hres & Hn). rewrite Hres in Htask. eauto 10.
    - destruct Htail as (r & w' & Hres & Hn). rewrite Hres in Htask. eexists _, _; eauto.
    - now rewrite Htail in Htask. }
  assert (Hmiss : forall w, nics w !! (resourceGroup, name) = None -> quiet task w).
  { intros w Hv. unfold quiet. rewrite Htask, Hv. eexists _, _. split; reflexivity. }
  destruct (decide (resourceGroup = ResourceGroup az)) as [->|Hrg].
  - exists (KInPlace name). intros w [Hw _]. cbn.
    destruct (nics w !! (ResourceGroup az, name)) as [v|] eqn:Hv; [|now apply Hmiss].
    specialize (Hread w v Hv).
    destruct (ensureStep az service backendPoolID v) as [[v'|]|] eqn:Hstep; try exact Hread.
    destruct Hread as (nm & e & w' & Hnm & Hres & Hn).
    apply ensureStep_settles in Hstep as [_ Hsame].
    assert (nm = name) as -> by (specialize (Hw _ _ _ Hv); congruence).
    eexists _, _; eauto.
  - destruct (store0 !! (resourceGroup, name)) as [v|] eqn:Hv.
    + destruct (ensureStep az service backendPoolID v) as [[v'|]|] eqn:Hstep.
      * exists (KStore name v').
        pose proof (ensureStep_settles _ _ _ _ _ Hstep) as [Hsettled Hsame].
        split; [exact Hsettled|]. split; [specialize (Hown _ _ _ Hv); congruence|].
        intros w [_ Hout]. specialize (Hread w v). rewrite Hout, Hstep in Hread by assumption.
        destruct (Hread Hv) as (nm & e & w' & Hnm & Hres & Hn).
        assert (nm = name) as -> by (specialize (Hown _ _ _ Hv); congruence).
        eexists _, _; eauto.
      * exists KStatic. intros w [_ Hout]. specialize (Hread w v).
        rewrite Hout, Hstep in Hread by assumption. now apply Hread.
      * exists KPanic. intros w [_ Hout]. specialize (Hread w v).
        rewrite Hout, Hstep in Hread by assumption. now apply Hread.
    + exists KStatic. intros w [_ Hout]. apply Hmiss. now rewrite Hout.
Qed.

(** The task queued for a node has a kind, in either resolver. *)
Lemma as_hostUpdate_kind (az : Cloud) (service : v1.Service) (nodeName backendPoolID vmSetName : string)
      (store0 : gmap (string * string) network.Interface) :
  storedUnderOwnName store0 ->
  exists k, hasKind (ResourceGroup az) (ensureStep az service backendPoolID) store0
              (availabilitySet.hostUpdate az service nodeName backendPoolID vmSetName) k.
Proof.
  intros Hown.
  destruct (as_resolution az (mapNodeNameToVMName az nodeName) vmSetName) as [[|e|rg nm avid] Hc].
  - exists KPanic. intros w _. unfold hostUpdate. rewrite as_EnsureHostInPool_unfold, Hc.
    reflexivity.
  - exists KStatic. intros w _. unfold hostUpdate, quiet.
    rewrite as_EnsureHostInPool_unfold, Hc. unfold asResolution, bind, ret.
    destruct (errors_Is e errNotInVMSet); eexists _, _; split; reflexivity.
  - eapply (reader_kind az service backendPoolID store0 rg nm _
              (asReconcile az service backendPoolID)
              (fun e => if errors_Is e errNotInVMSet then None
                        else Some (wrapError ("ensure(" +:+ getServiceName service
                                                +:+ "): backendPoolID(" +:+ backendPoolID
                                                +:+ ") - failed to ensure host in pool") e))
              (fun r => let '(_, _, _, _, err) := r in
                        if err is Some e
                        then Some (wrapError ("ensure(" +:+ getServiceName service
                                                +:+ "): backendPoolID(" +:+ backendPoolID
                                                +:+ ") - failed to ensure host in pool") e)
                        else None));
      [exact Hown|apply asReconcile_step|].
    intros w. unfold hostUpdate. rewrite as_EnsureHostInPool_unfold, Hc.
    unfold asResolution, bind, ret.
    destruct (InterfacesClient_Get az rg nm w) as [[[nic [e|]] w']|]; cbn beta iota.
    + destruct (errors_Is e errNotInVMSet); reflexivity.
    + destruct (asReconcile az service backendPoolID nic w') as [[[[[[? ?] ?] ?] [e|]] w'']|];
        reflexivity.
    + reflexivity.
Qed.

Lemma fs_hostUpdate_kind (az : Cloud) (service : v1.Service) (nodeName backendPoolID vmSetName : string)
      (store0 : gmap (string * string) network.Interface) :
  storedUnderOwnName store0 ->
  exists k, hasKind (ResourceGroup az) (ensureStep az service backendPoolID) store0
              (FlexScaleSet.hostUpdate az service nodeName backendPoolID vmSetName) k.
Proof.
  intros Hown.
  assert (Hstatic : forall r,
             (forall w, FlexScaleSet.EnsureHostInPool az service nodeName backendPoolID vmSetName w
                        = Done (r, w)) ->
             exists k, hasKind (ResourceGroup az) (ensureStep az service backendPoolID) store0
                         (FlexScaleSet.hostUpdate az service nodeName backendPoolID vmSetName) k).
  { intros r Hr. exists KStatic. intros w _. unfold FlexScaleSet.hostUpdate, quiet, bind.
    rewrite Hr. destruct r as [[[[? ?] ?] ?] [e|]]; eexists _, _; split; reflexivity. }
  pose proof (fs_EnsureHostInPool_unfold az service nodeName backendPoolID vmSetName) as Hunfold.
  cbn zeta in Hunfold. unfold bind at 1, lift at 1 in Hunfold.
  destruct (FlexScaleSet.getNodeVmssFlexName az (mapNodeNameToVMName az nodeName))
    as [[vmssFlexName [e|]]|].
  - eapply Hstatic. intros w. rewrite Hunfold. reflexivity.
  - destruct (negb (useStandardLoadBalancer az)).
    { eapply Hstatic. intros w. rewrite Hunfold. reflexivity. }
    destruct (outsideScaleSet az vmSetName vmssFlexName).
    { eapply Hstatic. intros w. rewrite Hunfold. reflexivity. }
    destruct (fs_resolution az (mapNodeNameToVMName az nodeName)) as [[|e|rg nm avid] Hc];
      rewrite Hc in Hunfold.
    + exists KPanic. intros w _. unfold FlexScaleSet.hostUpdate. rewrite Hunfold. reflexivity.
    + eapply Hstatic. intros w. rewrite Hunfold. reflexivity.
    + eapply (reader_kind az service backendPoolID store0 rg nm _
                (fsReconcile az service backendPoolID (mapNodeNameToVMName az nodeName) vmssFlexName)
                (fun e => Some (wrapError ("ensure(" +:+ getServiceName service
                                                +:+ "): backendPoolID(" +:+ backendPoolID
                                                +:+ ") - failed to ensure host in pool") e))
                (fun r => let '(_, _, _, _, err) := r in
                          if err is Some e
                          then Some (wrapError ("ensure(" +:+ getServiceName service
                                                  +:+ "): backendPoolID(" +:+ backendPoolID
                                                  +:+ ") - failed to ensure host in pool") e)
                          else None));
        [exact Hown|apply fsReconcile_step|].
      intros w. unfold FlexScaleSet.hostUpdate. rewrite Hunfold.
      unfold fsResolution, bind, ret.
      destruct (InterfacesClient_Get az rg nm w) as [[[nic [e|]] w']|]; cbn beta iota.
      * reflexivity.
      * destruct (fsReconcile az service backendPoolID _ _ nic w') as [[[[[[? ?] ?] ?] [e|]] w'']|];
          reflexivity.
      * reflexivity.
  - exists KPanic. intros w _. unfold FlexScaleSet.hostUpdate. rewrite Hunfold. reflexivity.
Qed.

End Reconcile.

(** ** The reconciliation of a set of nodes, twice *)

Section Twice.

Variable schedule : list (M (option error)) -> list (M (option error)).
Hypothesis schedule_permutes : forall tasks, Permutation (schedule tasks) tasks.

Lemma as_hostUpdates_tasks (P : M (option error) -> Prop) (az : Cloud) (service : v1.Service)
      (backendPoolID vmSetName : string) (nodes : list v1.Node) :
  (forall name, P (availabilitySet.hostUpdate az service name backendPoolID vmSetName)) ->
  forall queued tasks,
    Forall P queued ->
    availabilitySet.hostUpdates az service nodes backendPoolID vmSetName queued = inl tasks ->
    Forall P tasks.
Proof.
  intros HP. induction nodes as [|node nodes IH]; intros queued tasks Hqueued; simpl.
  - now intros [= <-].
  - destruct (_ && isControlPlaneNode node); [now apply IH|].
    destruct (ShouldNodeExcludedFromLoadBalancer az (v1.node_Name node)) as [excluded [e|]];
      [discriminate|].
    destruct excluded; [now apply IH|].
    apply IH. apply Forall_app. split; [exact Hqueued|]. constructor; [apply HP|constructor].
Qed.

Lemma fs_hostUpdates_tasks (P : M (option error) -> Prop) (az : Cloud) (service : v1.Service)
      (backendPoolID vmSetName : string) (nodes : list v1.Node) :
  (forall name, P (FlexScaleSet.hostUpdate az service name backendPoolID vmSetName)) ->
  forall queued tasks,
    Forall P queued ->
    FlexScaleSet.hostUpdates az service nodes backendPoolID vmSetName queued = inl tasks ->
    Forall P tasks.
Proof.
  intros HP. induction nodes as [|node nodes IH]; intros queued tasks Hqueued; simpl.
  - now intros [= <-].
  - destruct (_ && isControlPlaneNode node); [now apply IH|].
    destruct (ShouldNodeExcludedFromLoadBalancer az (v1.node_Name node)) as [excluded [e|]];
      [discriminate|].
    destruct excluded; [now apply IH|].
    apply IH. apply Forall_app. split; [exact Hqueued|]. constructor; [apply HP|constructor].
Qed.

(** The tasks of a call, fanned out a second time, leave every interface as
    the first fan-out left it. *)
Lemma fan_out_twice (az : Cloud) (service : v1.Service) (backendPoolID : string)
      (tasks : list (M (option error))) (w : World) :
  storedUnderOwnName (nics w) ->
  Forall (fun task =>
            exists k, hasKind (ResourceGroup az) (ensureStep az service backendPoolID) (nics w) task k)
         tasks ->
  forall r1 w1,
    AggregateGoroutines schedule tasks w = Done (r1, w1) ->
    forall w1', nics w1' = nics w1 ->
      exists r2 w2, AggregateGoroutines schedule tasks w1' = Done (r2, w2) /\ nics w2 = nics w1.
Proof.
  intros Hown Hkinds r1 w1 Hrun w1' Hw1'.
  rewrite AggregateGoroutines_runEach in Hrun. rewrite AggregateGoroutines_runEach.
  destruct (runEach (schedule tasks) w) as [[answers wa]|] eqn:Hfirst; [|discriminate].
  injection Hrun as _ <-.
  destruct (pass_is_idempotent (ResourceGroup az) (ensureStep az service backendPoolID)
              (schedule tasks) w (ensureStep_settles az service backendPoolID) Hown)
    with (answers := answers) (w1 := wa) (w1' := w1') as (answers2 & w2 & Hsecond & Hsame);
    [|exact Hfirst|exact Hw1'|].
  { eapply Permutation_Forall; [|exact Hkinds]. symmetry. apply schedule_permutes. }
  rewrite Hsecond. eauto.
Qed.

Lemma as_hosts_in_pool_twice (az : Cloud) (service : v1.Service) (nodes : list v1.Node)
      (backendPoolID vmSetName : string) (w : World) (r1 : option error) (w1 : World) :
  storedUnderOwnName (nics w) ->
  availabilitySet.EnsureHostsInPool schedule az service nodes backendPoolID vmSetName w
  = Done (r1, w1) ->
  exists r2 w2,
    availabilitySet.EnsureHostsInPool schedule az service nodes backendPoolID vmSetName w1
    = Done (r2, w2) /\ nics w2 = nics w1.
Proof.
  intros Hown. unfold availabilitySet.EnsureHostsInPool.
  destruct (availabilitySet.hostUpdates az service nodes backendPoolID vmSetName [])
    as [queued|err] eqn:Hqueued.
  - rewrite !bind_apply.
    destruct (AggregateGoroutines schedule queued w) as [[errs wa]|] eqn:Hfirst; [|discriminate].
    intros Hret.
    assert (w1 = wa) as -> by (destruct errs; injection Hret as _ <-; reflexivity).
    destruct (fan_out_twice az service backendPoolID queued w Hown) with
      (r1 := errs) (w1 := wa) (w1' := wa) as (errs2 & w2 & Hsecond & Hsame);
      [|exact Hfirst|reflexivity|].
    { eapply as_hostUpdates_tasks; [|constructor|exact Hqueued].
      intros name. now apply as_hostUpdate_kind. }
    rewrite Hsecond. destruct errs2; eauto.
  - intros [= <- <-]. eauto.
Qed.

Lemma fs_hosts_in_pool_twice (az : Cloud) (service : v1.Service) (nodes : list v1.Node)
      (backendPoolID vmSetName : string)
      (ensureVMSSFlexInPool : Cloud -> v1.Service -> list v1.Node -> string -> string -> M (option error))
      (w : World) (r1 : option error) (w1 : World) :
  (forall w0, exists r w', ensureVMSSFlexInPool az service nodes backendPoolID vmSetName w0 = Done (r, w')
                           /\ nics w' = nics w0) ->
  storedUnderOwnName (nics w) ->
  FlexScaleSet.EnsureHostsInPool schedule ensureVMSSFlexInPool az service nodes backendPoolID vmSetName w
  = Done (r1, w1) ->
  exists r2 w2,
    FlexScaleSet.EnsureHostsInPool schedule ensureVMSSFlexInPool az service nodes backendPoolID vmSetName w1
    = Done (r2, w2) /\ nics w2 = nics w1.
Proof.
  intros Hensure Hown. unfold FlexScaleSet.EnsureHostsInPool.
  destruct (FlexScaleSet.hostUpdates az service nodes backendPoolID vmSetName [])
    as [queued|err] eqn:Hqueued.
  - rewrite !bind_apply.
    destruct (AggregateGoroutines schedule queued w) as [[errs wa]|] eqn:Hfirst; [|discriminate].
    intros Hret.
    assert (Hw1 : nics w1 = nics wa).
    { destruct errs; [injection Hret as _ <-; reflexivity|].
      rewrite bind_apply in Hret.
      destruct (Hensure wa) as (r & w' & Hr & Hw'). rewrite Hr in Hret.
      destruct r; injection Hret as _ <-; exact Hw'. }
    destruct (fan_out_twice az service backendPoolID queued w Hown) with
      (r1 := errs) (w1 := wa) (w1' := w1) as (errs2 & w2 & Hsecond & Hsame);
      [|exact Hfirst|exact Hw1|].
    { eapply fs_hostUpdates_tasks; [|constructor|exact Hqueued].
      intros name. now apply fs_hostUpdate_kind. }
    rewrite Hsecond. destruct errs2.
    + eexists _, _. split; [reflexivity|congruence].
    + rewrite bind_apply. destruct (Hensure w2) as (r & w' & Hr & Hw'). rewrite Hr.
      destruct r; eexists _, _; (split; [reflexivity|congruence]).
  - intros [= <- <-]. eauto.
Qed.

(** A node whose selected IP configuration is a member of the pool already
    is left alone. *)
Lemma as_member_is_left_alone (az : Cloud) (service : v1.Service)
      (nodeName backendPoolID vmSetName : string) (w : World) (nic : network.Interface)
      (i : nat) (pools : list network.BackendAddressPool) :
  Forall hasID pools -> Exists (isPool backendPoolID) pools ->
  asMembership az service nodeName vmSetName w nic i pools ->
  availabilitySet.EnsureHostInPool az service nodeName backendPoolID vmSetName w
  = Done (availabilitySet.noHost None, w).
Proof.
  intros Hids Hin (vmasID & nicProps & configProps & Hnic & Hprops & Hstate & Hsel & Hcfg & Hpools).
  rewrite as_EnsureHostInPool_unfold, bind_apply, Hnic. unfold asReconcile.
  rewrite bind_apply. unfold lift at 1. rewrite Hprops. cbn [deref]. rewrite Hstate.
  rewrite bind_apply. unfold lift at 1. fold (selectedIPConfig az service nic). rewrite Hsel.
  rewrite bind_apply. unfold lift at 1. rewrite Hcfg, Hpools.
  rewrite bind_apply. unfold lift at 1.
  rewrite (foundPoolIn_present _ _ Hids Hin). reflexivity.
Qed.

Lemma fs_member_is_left_alone (az : Cloud) (service : v1.Service)
      (nodeName backendPoolID vmSetName : string) (w : World) (nic : network.Interface)
      (i : nat) (pools : list network.BackendAddressPool) :
  Forall hasID pools -> Exists (isPool backendPoolID) pools ->
  useStandardLoadBalancer az = true ->
  fsMembership az service nodeName vmSetName w nic i pools ->
  FlexScaleSet.EnsureHostInPool az service nodeName backendPoolID vmSetName w
  = Done (availabilitySet.noHost None, w).
Proof.
  intros Hids Hin Hstd (vmssFlexName & nicProps & configProps & Hname & Hset & Hnic & Hprops
                        & Hstate & Hsel & Hcfg & Hpools).
  rewrite fs_EnsureHostInPool_unfold. cbn zeta.
  rewrite bind_apply. unfold lift at 1. rewrite Hname, Hstd, Hset. cbn [negb].
  rewrite bind_apply, Hnic. unfold fsReconcile.
  rewrite bind_apply. unfold lift at 1. rewrite Hprops. cbn [deref]. rewrite Hstate.
  rewrite bind_apply. unfold lift at 1. fold (selectedIPConfig az service nic). rewrite Hsel.
  rewrite bind_apply. unfold lift at 1. rewrite Hcfg, Hpools.
  rewrite bind_apply. unfold lift at 1.
  rewrite (foundPoolIn_present _ _ Hids Hin). reflexivity.
Qed.


End Twice.

Lemma fixture_interfaces_under_own_names : storedUnderOwnName (nics Fixture.world).
Proof.
  intros resourceGroup name nic Hnic. cbn [nics Fixture.world] in Hnic.
  apply elem_of_list_to_map_2 in Hnic.
  repeat (apply elem_of_cons in Hnic as [Heq|Hnic]; [simplify_eq; reflexivity|]).
  now apply elem_of_nil in Hnic.
Qed.


(** * Properties of the further functions *)

(** ** [getLastSegment] *)

Section LastSegment.

Import strings.

Variable c : ascii.

Local Abbreviation sep := (String c EmptyString).

Lemma HasPrefix_byte (c' : ascii) (s : string) :
  HasPrefix (String c' s) sep = Ascii.eqb c c'.
Proof. simpl. destruct s; apply andb_true_r. Qed.

Lemma splitOn_byte (c' : ascii) (s cur : string) :
  splitOn (String c' s) sep 0 cur =
  if Ascii.eqb c c' then cur :: splitOn s sep 0 EmptyString
  else splitOn s sep 0 (cur +:+ String c' EmptyString).
Proof. cbn [splitOn]. rewrite HasPrefix_byte. reflexivity. Qed.

Lemma splitOn_nonempty (s cur : string) : splitOn s sep 0 cur <> [].
Proof.
  revert cur. induction s as [|c' s IH]; intros cur; [discriminate|].
  rewrite splitOn_byte. destruct (Ascii.eqb c c'); [discriminate|apply IH].
Qed.

Lemma append_cons (a : ascii) (s t : string) : String a s +:+ t = String a (s +:+ t).
Proof. reflexivity. Qed.

Lemma append_nil (t : string) : EmptyString +:+ t = t.
Proof. reflexivity. Qed.

Lemma append_byte (s t : string) (c' : ascii) :
  (s +:+ String c' EmptyString) +:+ t = s +:+ String c' t.
Proof. induction s as [|a s IH]; [reflexivity|]. rewrite !append_cons. f_equal. exact IH. Qed.

Lemma append_empty (s : string) : s +:+ EmptyString = s.
Proof. induction s as [|a s IH]; [reflexivity|]. rewrite append_cons. f_equal. exact IH. Qed.

(** The last piece is the longest suffix free of the separator. *)
Lemma splitOn_free (s cur : string) :
  occursIn c s = false -> splitOn s sep 0 cur = [cur +:+ s].
Proof.
  revert cur. induction s as [|c' s IH]; intros cur Hfree.
  - simpl. now rewrite append_empty.
  - simpl in Hfree. apply orb_false_elim in Hfree as [Hc Hfree].
    rewrite splitOn_byte, Ascii.eqb_sym, Hc, IH by exact Hfree.
    now rewrite append_byte.
Qed.

Lemma last_cons_nonempty {A} (x : A) (l : list A) : l <> [] -> last (x :: l) = last l.
Proof. destruct l; [contradiction|reflexivity]. Qed.

Lemma splitOn_last (prefix rest cur : string) :
  last (splitOn (prefix +:+ String c rest) sep 0 cur) = last (splitOn rest sep 0 EmptyString).
Proof.
  revert cur. induction prefix as [|c' prefix IH]; intros cur.
  - rewrite append_nil, splitOn_byte, Ascii.eqb_refl.
    apply last_cons_nonempty, splitOn_nonempty.
  - rewrite append_cons, splitOn_byte. destruct (Ascii.eqb c c'); [|apply IH].
    rewrite last_cons_nonempty by apply splitOn_nonempty. apply IH.
Qed.

(** Every text is free of the separator, or ends with a piece that is. *)
Lemma last_piece (s : string) :
  occursIn c s = false \/
  exists prefix name, s = prefix +:+ String c name /\ occursIn c name = false.
Proof.
  induction s as [|c' s IH]; [now left|].
  destruct IH as [Hfree|(prefix & name & -> & Hfree)].
  - simpl. destruct (Ascii.eqb c' c) eqn:E.
    + right. apply Ascii.eqb_eq in E as ->. exists EmptyString, s. now split.
    + now left.
  - right. exists (String c' prefix), name. now split.
Qed.

Lemma getLastSegment_free (name : string) :
  occursIn c name = false ->
  getLastSegment name sep =
  if Nat.eqb (String.length name) 0
  then Done ("", Some (errorString "resource name was missing from identifier"))
  else Done (name, None).
Proof.
  intros Hfree. unfold getLastSegment, Split. rewrite splitOn_free by exact Hfree.
  reflexivity.
Qed.

Lemma getLastSegment_piece (prefix name : string) :
  occursIn c name = false ->
  getLastSegment (prefix +:+ String c name) sep =
  if Nat.eqb (String.length name) 0
  then Done ("", Some (errorString "resource name was missing from identifier"))
  else Done (name, None).
Proof.
  intros Hfree. unfold getLastSegment, Split.
  rewrite splitOn_last, splitOn_free by exact Hfree. reflexivity.
Qed.

(** X1.  For a one-byte separator, [getLastSegment] answers [name] without
    error exactly when [name] is not empty, is free of the separator and is
    the whole identifier or what follows its last separator. *)
Theorem last_segment_of_an_identifier (ID name : string) :
  getLastSegment ID sep = Done (name, None) <->
  name <> "" /\ occursIn c name = false /\
  (ID = name \/ exists prefix, ID = prefix +:+ String c name).
Proof.
  split.
  - intros Hget. destruct (last_piece ID) as [Hfree|(prefix & name' & -> & Hfree)].
    + rewrite getLastSegment_free in Hget by exact Hfree.
      destruct ID; [discriminate|]. injection Hget as <-.
      split; [discriminate|]. split; [exact Hfree|now left].
    + rewrite getLastSegment_piece in Hget by exact Hfree.
      destruct name'; [discriminate|]. injection Hget as <-.
      split; [discriminate|]. split; [exact Hfree|right; now exists prefix].
  - intros (Hne & Hfree & [->|[prefix ->]]).
    + rewrite getLastSegment_free by exact Hfree. destruct name; [contradiction|reflexivity].
    + rewrite getLastSegment_piece by exact Hfree. destruct name; [contradiction|reflexivity].
Qed.

Lemma lastByte_piece (prefix name : string) (c' : ascii) :
  lastByte (prefix +:+ String c' name) = lastByte (String c' name).
Proof.
  induction prefix as [|a prefix IH]; [reflexivity|].
  rewrite append_cons. change (lastByte (String a ?s)) with
    (match s with EmptyString => Some a | _ => lastByte s end).
  destruct prefix; exact IH.
Qed.

(** X2.  For a one-byte separator [getLastSegment] never panics, and it
    answers the error, with the empty name, exactly for the empty identifier
    and for an identifier that ends with the separator.  With the empty
    separator the empty identifier has no piece at all and the indexing of
    the last piece panics. *)
Theorem identifier_without_last_segment (ID : string) :
  (exists r, getLastSegment ID sep = Done r) /\
  ((exists e, getLastSegment ID sep = Done ("", Some e)) <->
   ID = "" \/ lastByte ID = Some c) /\
  getLastSegment "" "" = Panic.
Proof.
  split; [|split; [|reflexivity]].
  - destruct (last_piece ID) as [Hfree|(prefix & name & -> & Hfree)].
    + rewrite getLastSegment_free by exact Hfree. destruct (Nat.eqb _ 0); eauto.
    + rewrite getLastSegment_piece by exact Hfree. destruct (Nat.eqb _ 0); eauto.
  - destruct (last_piece ID) as [Hfree|(prefix & name & -> & Hfree)].
    + rewrite getLastSegment_free by exact Hfree. destruct ID as [|a ID].
      * split; eauto.
      * split; [intros [e [=]]|]. intros [[=]|Hlast]. exfalso.
        clear - Hfree Hlast. revert a Hfree Hlast.
        induction ID as [|b ID IH]; intros a Hfree Hlast.
        -- simpl in *. injection Hlast as ->. now rewrite Ascii.eqb_refl in Hfree.
        -- simpl in Hfree. apply orb_false_elim in Hfree as [_ Hfree]. now apply (IH b).
    + rewrite getLastSegment_piece, lastByte_piece by exact Hfree. destruct name as [|a name].
      * split; eauto.
      * split; [intros [e [=]]|]. intros [Hnil|Hlast]; exfalso.
        -- destruct prefix; discriminate.
        -- clear - Hfree Hlast.
           assert (H : forall a name, occursIn c (String a name) = false ->
                                      lastByte (String a name) <> Some c).
           { clear. intros a name. revert a. induction name as [|b name IH]; intros a Hfree Hlast.
             - simpl in *. injection Hlast as ->. now rewrite Ascii.eqb_refl in Hfree.
             - simpl in Hfree. apply orb_false_elim in Hfree as [_ Hfree]. now apply (IH b). }
           apply (H a name Hfree).
           change (lastByte (String c (String a name))) with (lastByte (String a name)) in Hlast.
           exact Hlast.
Qed.

End LastSegment.

(** ** [getNextAvailablePriority] *)

Section Priorities.

Variables minimum maximum : Z.

Lemma priorityTaken_spec (rules : list network.SecurityRule) (smallest : Z) :
  Forall hasPriority rules ->
  exists taken, priorityTaken rules smallest = Done taken /\
                (taken = true <-> In smallest (priorities rules)).
Proof.
  induction 1 as [|rule rules [p Hp] _ (taken & IH & Hiff)].
  - exists false. split; [reflexivity|]. split; [discriminate|intros []].
  - unfold priorities. cbn [priorityTaken omap list_omap]. fold (omap priorityOf rules).
    unfold priorityOf in Hp |- *.
    destruct (network.rule_Properties rule) as [props|]; [|discriminate].
    cbn [deref obind]. rewrite Hp. cbn [deref obind].
    destruct (Z.eqb_spec p smallest) as [->|Hne].
    + exists true. split; [reflexivity|]. split; [intros _; now left|reflexivity].
    + exists taken. split; [exact IH|]. rewrite Hiff. unfold priorities. split.
      * intros Hin. now right.
      * intros [Heq|Hin]; [contradiction|exact Hin].
Qed.

Lemma scanPriorities_spec (rules : list network.SecurityRule) :
  Forall hasPriority rules ->
  forall remaining smallest,
    (exists p, scanPriorities rules remaining smallest = Done (p, None) /\
               (smallest <= p < smallest + Z.of_nat remaining)%Z /\
               ~ In p (priorities rules) /\
               forall q, (smallest <= q < p)%Z -> In q (priorities rules)) \/
    (scanPriorities rules remaining smallest
     = Done ((-1)%Z, Some (errorString "securityGroup priorities are exhausted")) /\
     forall q, (smallest <= q < smallest + Z.of_nat remaining)%Z -> In q (priorities rules)).
Proof.
  intros Hall. induction remaining as [|remaining IH]; intros smallest.
  - right. split; [reflexivity|]. intros q Hq. lia.
  - cbn [scanPriorities].
    destruct (priorityTaken_spec rules smallest Hall) as (taken & -> & Hiff). cbn [obind].
    destruct taken.
    + assert (Hin : In smallest (priorities rules)) by now apply Hiff.
      destruct (IH (smallest + 1)%Z) as [(p & -> & Hp & Hfree & Hbelow)|[-> Hfull]].
      * left. exists p. split; [reflexivity|]. split; [lia|]. split; [exact Hfree|].
        intros q Hq. destruct (Z.eq_dec q smallest) as [->|Hne]; [exact Hin|].
        apply Hbelow. lia.
      * right. split; [reflexivity|]. intros q Hq.
        destruct (Z.eq_dec q smallest) as [->|Hne]; [exact Hin|]. apply Hfull. lia.
    + left. exists smallest. split; [reflexivity|]. split; [lia|]. split.
      * intros Hin. apply Hiff in Hin. discriminate.
      * intros q Hq. lia.
Qed.

(** X3.  When every rule has a priority, [getNextAvailablePriority] answers
    [p] without error exactly when [p] is the least priority from the
    minimum up to, and not including, the maximum that no rule has. *)
Theorem next_priority_is_the_least_free (rules : list network.SecurityRule) (p : Z) :
  Forall hasPriority rules ->
  (getNextAvailablePriority minimum maximum rules = Done (p, None) <->
   (minimum <= p < maximum)%Z /\ ~ In p (priorities rules) /\
   forall q, (minimum <= q < p)%Z -> In q (priorities rules)).
Proof.
  intros Hall. unfold getNextAvailablePriority.
  destruct (scanPriorities_spec rules Hall (Z.to_nat (maximum - minimum)) minimum)
    as [(p' & -> & Hp & Hfree & Hbelow)|[-> Hfull]].
  - split.
    + intros [= <-]. split; [lia|]. now split.
    + intros (Hp0 & Hfree0 & Hbelow0). f_equal. f_equal.
      destruct (Z.lt_trichotomy p p') as [Hlt|[Heq|Hgt]]; [|exact (eq_sym Heq)|].
      * exfalso. apply Hfree0, Hbelow. lia.
      * exfalso. apply Hfree, Hbelow0. lia.
  - split; [discriminate|]. intros (Hp0 & Hfree0 & _). exfalso. apply Hfree0, Hfull. lia.
Qed.

Lemma range_in_priorities (rules : list network.SecurityRule) (n : nat) (smallest : Z) :
  (forall q, (smallest <= q < smallest + Z.of_nat n)%Z -> In q (priorities rules)) ->
  n <= length rules.
Proof.
  intros Hfull.
  assert (Hlen : length (priorities rules) <= length rules).
  { unfold priorities. clear. induction rules as [|r rules IH]; [reflexivity|].
    cbn [omap list_omap length]. fold (omap priorityOf rules).
    destruct (priorityOf r); cbn [length]; lia. }
  set (range := (fun i => (smallest + Z.of_nat i)%Z) <$> seq 0 n).
  assert (Hnodup : NoDup range).
  { apply NoDup_fmap_2; [|apply NoDup_seq]. intros i j Hij. lia. }
  assert (Hincl : forall q, q ∈ range -> q ∈ priorities rules).
  { intros q Hq. apply list_elem_of_fmap in Hq as (i & -> & Hi). apply elem_of_seq in Hi.
    apply list_elem_of_In, Hfull. lia. }
  pose proof (submseteq_length _ _ (NoDup_submseteq _ _ Hnodup Hincl)) as Hle.
  unfold range in Hle. rewrite length_fmap, length_seq in Hle. lia.
Qed.

(** X4.  When every rule has a priority, [getNextAvailablePriority] finds
    one, unless every priority from the minimum up to the maximum is taken,
    which takes at least as many rules as there are priorities: then it
    answers -1 and the error. *)
Theorem priorities_are_exhausted_when_all_taken (rules : list network.SecurityRule) :
  Forall hasPriority rules ->
  (exists p, getNextAvailablePriority minimum maximum rules = Done (p, None)) \/
  (getNextAvailablePriority minimum maximum rules
   = Done ((-1)%Z, Some (errorString "securityGroup priorities are exhausted")) /\
   (forall q, (minimum <= q < maximum)%Z -> In q (priorities rules)) /\
   (maximum - minimum <= Z.of_nat (length rules))%Z).
Proof.
  intros Hall. unfold getNextAvailablePriority.
  destruct (scanPriorities_spec rules Hall (Z.to_nat (maximum - minimum)) minimum)
    as [(p' & -> & _)|[-> Hfull]]; [left; eauto|].
  right. split; [reflexivity|].
  pose proof (range_in_priorities rules _ _ Hfull) as Hlen.
  split; [|lia]. intros q Hq. apply Hfull. lia.
Qed.

End Priorities.

Lemma next_priority_is_the_least_free_witness :
  getNextAvailablePriority 500 4096 (Sample.rules [Some 501; Some 500; Some 503]%Z)
  = Done (502%Z, None) <->
  (500 <= 502 < 4096)%Z /\
  ~ In 502%Z (priorities (Sample.rules [Some 501; Some 500; Some 503]%Z)) /\
  forall q, (500 <= q < 502)%Z ->
            In q (priorities (Sample.rules [Some 501; Some 500; Some 503]%Z)).
Proof.
  apply (next_priority_is_the_least_free 500 4096
           (Sample.rules [Some 501; Some 500; Some 503]%Z) 502).
  repeat constructor; eexists; reflexivity.
Defined.

Lemma priorities_are_exhausted_when_all_taken_witness :
  (exists p, getNextAvailablePriority 500 502 (Sample.rules [Some 501; Some 500]%Z)
             = Done (p, None)) \/
  (getNextAvailablePriority 500 502 (Sample.rules [Some 501; Some 500]%Z)
   = Done ((-1)%Z, Some (errorString "securityGroup priorities are exhausted")) /\
   (forall q, (500 <= q < 502)%Z -> In q (priorities (Sample.rules [Some 501; Some 500]%Z))) /\
   (502 - 500 <= Z.of_nat (length (Sample.rules [Some 501; Some 500]%Z)))%Z).
Proof.
  apply (priorities_are_exhausted_when_all_taken 500 502 (Sample.rules [Some 501; Some 500]%Z)).
  repeat constructor; eexists; reflexivity.
Defined.

(** ** The identifier patterns on the identifiers of their shape *)

Section Shapes.

Import regexp.

Lemma append_assoc (s t u : string) : (s +:+ t) +:+ u = s +:+ (t +:+ u).
Proof. induction s as [|a s IH]; [reflexivity|]. rewrite !append_cons. f_equal. exact IH. Qed.

Lemma length_append (s t : string) :
  String.length (s +:+ t) = String.length s + String.length t.
Proof. induction s as [|a s IH]; [reflexivity|]. rewrite append_cons. simpl. now rewrite IH. Qed.

Lemma slashes_append (s t : string) : slashes (s +:+ t) = slashes s + slashes t.
Proof.
  induction s as [|a s IH]; [reflexivity|]. rewrite append_cons. simpl. rewrite IH. lia.
Qed.

Lemma noLineFeed_append (s t : string) :
  noLineFeed (s +:+ t) = noLineFeed s && noLineFeed t.
Proof.
  induction s as [|a s IH]; [reflexivity|]. rewrite append_cons. simpl. rewrite IH.
  now rewrite andb_assoc.
Qed.

(** Two ways of cutting one text. *)
Lemma append_cuts (a b c d : string) :
  a +:+ b = c +:+ d ->
  (exists z, c = a +:+ z /\ b = z +:+ d) \/ (exists z, z <> "" /\ a = c +:+ z /\ d = z +:+ b).
Proof.
  revert c. induction a as [|x a IH]; intros c H.
  - left. exists c. now rewrite !append_nil in *.
  - destruct c as [|y c].
    + right. exists (String x a). rewrite append_nil in H. split; [discriminate|]. now split.
    + rewrite !append_cons in H. injection H as -> H.
      destruct (IH c H) as [(z & -> & ->)|(z & Hz & -> & ->)].
      * left. now exists z.
      * right. now exists z.
Qed.

Lemma litMatches_refl (fold : bool) (c : ascii) : litMatches fold c c = true.
Proof. unfold litMatches. destruct fold; apply Ascii.eqb_refl. Qed.

Lemma litMatches_slash (fold : bool) (l c : ascii) :
  litMatches fold l c = true -> Ascii.eqb l "/" = Ascii.eqb c "/".
Proof.
  unfold litMatches. destruct fold.
  - intros H. apply Ascii.eqb_eq in H.
    destruct (Ascii.eqb_spec l "/") as [->|Hl], (Ascii.eqb_spec c "/") as [->|Hc]; try reflexivity.
    + exfalso. apply Hc. clear Hc.
      destruct c as [[] [] [] [] [] [] [] []]; try discriminate; reflexivity.
    + exfalso. apply Hl. clear Hl.
      destruct l as [[] [] [] [] [] [] [] []]; try discriminate; reflexivity.
  - intros H. apply Ascii.eqb_eq in H. now subst.
Qed.

Lemma run_lits (fold : bool) (l : string) (p : list inst) (s : string) (pos : nat)
      (caps : list (nat * nat)) :
  run fold (lits l ++ p) (l +:+ s) pos caps = run fold p s (pos + String.length l) caps.
Proof.
  revert pos. induction l as [|c l IH]; intros pos.
  - simpl. f_equal. lia.
  - rewrite append_cons. cbn [lits app run]. rewrite litMatches_refl, IH.
    f_equal. simpl. lia.
Qed.

(** The loop of a starred dot stops somewhere in the text. *)
Lemma starLoop_sound {R} (rest : string -> nat -> option R) (s : string) (pos : nat) (r : R) :
  starLoop rest s pos = Some r ->
  exists x y, s = x +:+ y /\ rest y (pos + String.length x) = Some r.
Proof.
  revert pos. induction s as [|a s IH]; intros pos H.
  - exists "", "". split; [reflexivity|]. simpl in *. now rewrite Nat.add_0_r.
  - cbn [starLoop] in H.
    assert (Hhere : rest (String a s) pos = Some r ->
                    exists x y, String a s = x +:+ y /\ rest y (pos + String.length x) = Some r).
    { intros Hr. exists "", (String a s). split; [reflexivity|]. simpl. now rewrite Nat.add_0_r. }
    destruct (isLineFeed a); [auto|].
    destruct (starLoop rest s (S pos)) as [r'|] eqn:E; [|auto].
    injection H as ->. destruct (IH _ E) as (x & y & -> & Hr).
    exists (String a x), y. split; [reflexivity|]. simpl. now rewrite <- plus_n_Sm.
Qed.

(** The loop is greedy: it stops at the deepest offset where the rest of
    the program matches. *)
Lemma starLoop_deepest {R} (rest : string -> nat -> option R) (y : string) (pos : nat) :
  (forall x' y', y = x' +:+ y' -> x' <> "" -> rest y' (pos + String.length x') = None) ->
  starLoop rest y pos = rest y pos.
Proof.
  revert pos. induction y as [|a y IH]; intros pos Hdeeper; [reflexivity|].
  cbn [starLoop]. destruct (isLineFeed a); [reflexivity|].
  rewrite IH.
  - assert (rest y (S pos) = None) as ->; [|reflexivity].
    specialize (Hdeeper (String a "") y eq_refl). simpl in Hdeeper.
    rewrite Nat.add_1_r in Hdeeper. apply Hdeeper. discriminate.
  - intros x' y' -> Hx'. specialize (Hdeeper (String a x') y' eq_refl).
    simpl in Hdeeper. rewrite <- plus_n_Sm in Hdeeper. apply Hdeeper. discriminate.
Qed.

Lemma starLoop_greedy {R} (rest : string -> nat -> option R) (x y : string) (pos : nat) (r : R) :
  noLineFeed x = true ->
  rest y (pos + String.length x) = Some r ->
  (forall x' y', y = x' +:+ y' -> x' <> "" ->
                 rest y' (pos + String.length x + String.length x') = None) ->
  starLoop rest (x +:+ y) pos = Some r.
Proof.
  revert pos. induction x as [|a x IH]; intros pos Hx Hr Hdeeper.
  - rewrite append_nil. simpl in Hr, Hdeeper. rewrite Nat.add_0_r in Hr.
    rewrite starLoop_deepest; [exact Hr|].
    intros x' y' Hy Hx'. specialize (Hdeeper x' y' Hy Hx').
    now rewrite Nat.add_0_r in Hdeeper.
  - rewrite append_cons. cbn [starLoop]. simpl in Hx. apply andb_true_iff in Hx as [Ha Hx].
    apply negb_true_iff in Ha. rewrite Ha.
    rewrite (IH (S pos)); [reflexivity|exact Hx| |].
    + simpl in Hr. now rewrite <- plus_n_Sm in Hr.
    + intros x' y' Hy Hx'. specialize (Hdeeper x' y' Hy Hx').
      simpl in Hdeeper. now rewrite <- plus_n_Sm in Hdeeper.
Qed.

Lemma starLoop_some {R} (rest : string -> nat -> option R) (x y : string) (pos : nat) :
  noLineFeed x = true ->
  rest y (pos + String.length x) <> None ->
  starLoop rest (x +:+ y) pos <> None.
Proof.
  revert pos. induction x as [|a x IH]; intros pos Hx Hr.
  - rewrite append_nil. simpl in Hr. rewrite Nat.add_0_r in Hr.
    destruct y as [|b y]; [exact Hr|]. cbn [starLoop].
    destruct (isLineFeed b); [exact Hr|]. now destruct (starLoop rest y (S pos)).
  - rewrite append_cons. cbn [starLoop]. simpl in Hx. apply andb_true_iff in Hx as [Ha Hx].
    apply negb_true_iff in Ha. rewrite Ha.
    specialize (IH (S pos) Hx). simpl in Hr. rewrite <- plus_n_Sm in Hr. specialize (IH Hr).
    now destruct (starLoop rest (x +:+ y) (S pos)).
Qed.

(** A match passes over one slash of the text for each literal slash of
    the program. *)
Lemma run_slashes (fold : bool) (p : list inst) :
  forall s pos caps r, run fold p s pos caps = Some r -> literalSlashes p <= slashes s.
Proof.
  induction p as [|i p IH]; intros s pos caps r H; [simpl; lia|].
  destruct i; cbn [run literalSlashes] in *.
  - destruct s as [|a s]; [discriminate|].
    destruct (litMatches fold c a) eqn:Hm; [|discriminate].
    apply IH in H. simpl. rewrite <- (litMatches_slash _ _ _ Hm). lia.
  - destruct s as [|a s]; [discriminate|]. destruct (isLineFeed a); [discriminate|].
    apply IH in H. simpl. lia.
  - apply starLoop_sound in H as (x & y & -> & H). apply IH in H.
    rewrite slashes_append. lia.
  - destruct s as [|a s]; [discriminate|]. destruct (isLineFeed a); [discriminate|].
    apply starLoop_sound in H as (x & y & -> & H). apply IH in H.
    simpl. rewrite slashes_append. lia.
  - destruct s as [|a s]; [|discriminate]. now apply IH in H.
Qed.

Lemma lits_slashes (l : string) (p : list inst) :
  literalSlashes (lits l ++ p) = slashes l + literalSlashes p.
Proof. induction l as [|c l IH]; [reflexivity|]. simpl. rewrite IH. lia. Qed.

Lemma pattern_slashes (t : list piece) :
  wellShaped t -> literalSlashes (pattern t) = slashes (render t).
Proof.
  induction t as [|[l|c|f|f|] t IH]; cbn [wellShaped pattern render literalSlashes].
  - reflexivity.
  - intros Ht. rewrite lits_slashes, slashes_append. now rewrite IH.
  - intros (Hc & _ & Ht). cbn [slashes]. rewrite Hc. now apply IH.
  - intros ([Hf _] & _ & Ht). rewrite slashes_append, Hf. now apply IH.
  - intros ([Hf _] & _ & _ & Ht). rewrite slashes_append, Hf. now apply IH.
  - intros ->. reflexivity.
Qed.

(** After a field, the rest of the program matches nowhere deeper. *)
Lemma nothing_deeper (fold : bool) (t : list piece) :
  wellShaped t -> afterField t ->
  forall x' y' pos caps,
    render t = x' +:+ y' -> x' <> "" -> run fold (pattern t) y' pos caps = None.
Proof.
  intros Ht Hafter x' y' pos caps Hy Hx'.
  destruct (run fold (pattern t) y' pos caps) as [r|] eqn:E; [exfalso|reflexivity].
  apply run_slashes in E. rewrite (pattern_slashes t Ht), Hy, slashes_append in E.
  destruct t as [|[[|c l]|c|f|f|] t]; try contradiction.
  - simpl in Hy. destruct x'; [contradiction|discriminate].
  - simpl in Hafter. subst c. cbn [render] in Hy. rewrite append_cons in Hy.
    destruct x' as [|b x']; [contradiction|]. rewrite append_cons in Hy.
    injection Hy as <- _. simpl in E. lia.
  - simpl in Hafter. subst t. simpl in Hy. destruct x'; [contradiction|discriminate].
Qed.

Lemma run_shape (fold : bool) (t : list piece) :
  wellShaped t ->
  forall pos caps,
    run fold (pattern t) (render t) pos caps
    = Some (pos + String.length (render t), (caps ++ captures t pos)%list).
Proof.
  induction t as [|[l|c|f|f|] t IH]; cbn [wellShaped pattern render captures]; intros Ht pos caps.
  - simpl. rewrite Nat.add_0_r, app_nil_r. reflexivity.
  - rewrite run_lits, IH by exact Ht. rewrite length_append. f_equal. f_equal. lia.
  - destruct Ht as (_ & Hc & Ht). cbn [run]. rewrite Hc, IH by exact Ht.
    cbn [String.length]. f_equal. f_equal. lia.
  - destruct Ht as ([Hf Hlf] & Hafter & Ht). cbn [run].
    rewrite (starLoop_greedy _ f (render t) pos
               (pos + String.length f + String.length (render t),
                (caps ++ captures t (pos + String.length f))%list)).
    + rewrite length_append. f_equal. f_equal. lia.
    + exact Hlf.
    + apply IH. exact Ht.
    + intros x' y' Hy Hx'. now apply (nothing_deeper fold t Ht Hafter x' y').
  - destruct Ht as ([Hf Hlf] & Hne & Hafter & Ht). destruct f as [|a f]; [contradiction|].
    rewrite append_cons. cbn [run]. simpl in Hlf. apply andb_true_iff in Hlf as [Ha Hlf].
    apply negb_true_iff in Ha. rewrite Ha.
    rewrite (starLoop_greedy _ f (render t) (S pos)
               (pos + String.length (String a f) + String.length (render t),
                (caps ++ (pos, pos + String.length (String a f))
                      :: captures t (pos + String.length (String a f)))%list)).
    + cbn [String.length]. rewrite length_append. f_equal. f_equal. lia.
    + exact Hlf.
    + replace (S pos + String.length f) with (pos + String.length (String a f)) by (simpl; lia).
      rewrite IH by exact Ht. f_equal. f_equal. now rewrite <- app_assoc.
    + intros x' y' Hy Hx'. now apply (nothing_deeper fold t Ht Hafter x' y').
  - subst t. simpl. now rewrite Nat.add_0_r, app_nil_r.
Qed.


Lemma pattern_head_groups (h : list piece) : isHead h -> groups (pattern h) = 0.
Proof.
  induction h as [|[l|c|f|f|] h IH]; cbn [isHead pattern groups]; try contradiction; auto.
  intros Hh. clear -IH Hh. induction l as [|c l IHl]; simpl; auto.
Qed.

(** Whatever the beginning of the identifier and wherever the loops of the
    beginning stop, the fields are read at their place. *)
Lemma run_head (fold : bool) (t : list piece) (x : string) :
  wellShaped t -> afterField t ->
  noLineFeed (x +:+ render t) = true ->
  forall head, groups head = 0 ->
  forall w y1 r,
    x +:+ render t = w +:+ y1 ->
    run fold (head ++ AnyStar :: pattern t) y1 (String.length w) [] = Some r ->
    r = (String.length (x +:+ render t), captures t (String.length x)).
Proof.
  intros Ht Hafter Hlf head. induction head as [|i head IH]; intros Hg w y1 r Hs H.
  - cbn [app run] in H. pose proof H as Hsound.
    apply starLoop_sound in Hsound as (x2 & y2 & -> & Hr).
    rewrite <- append_assoc in Hs. symmetry in Hs.
    destruct (append_cuts _ _ _ _ Hs) as [(z & Hx & Hy2)|(z & Hz & _ & Hy)].
    + subst y2. rewrite <- append_assoc in H.
      assert (Hxz : noLineFeed (x2 +:+ z) = true).
      { rewrite Hx, !noLineFeed_append in Hlf. rewrite noLineFeed_append.
        destruct (noLineFeed w), (noLineFeed x2), (noLineFeed z); simpl in *; congruence. }
      rewrite (starLoop_greedy _ (x2 +:+ z) (render t) (String.length w) _ Hxz
                 (run_shape fold t Ht _ [])) in H.
      * injection H as <-. rewrite Hx, !length_append. f_equal; [lia|].
        cbn [app]. f_equal. lia.
      * intros x' y' Hy Hx'. now apply (nothing_deeper fold t Ht Hafter x' y').
    + rewrite (nothing_deeper fold t Ht Hafter z y2 _ [] Hy Hz) in Hr. discriminate.
  - destruct i; cbn [app run groups] in *.
    + destruct y1 as [|a y1]; [discriminate|]. destruct (litMatches fold c a); [|discriminate].
      apply (IH Hg (w +:+ String a "") y1 r).
      * now rewrite append_assoc.
      * now rewrite length_append, Nat.add_1_r.
    + destruct y1 as [|a y1]; [discriminate|]. destruct (isLineFeed a); [discriminate|].
      apply (IH Hg (w +:+ String a "") y1 r).
      * now rewrite append_assoc.
      * now rewrite length_append, Nat.add_1_r.
    + apply starLoop_sound in H as (x2 & y2 & -> & Hr).
      apply (IH Hg (w +:+ x2) y2 r).
      * now rewrite append_assoc.
      * now rewrite length_append.
    + discriminate.
    + destruct y1 as [|a y1]; [|discriminate]. now apply (IH Hg w "" r).
Qed.

(** A match exists: the loops of the beginning can stop where its fixed
    texts are. *)
Lemma run_exists (fold : bool) (t : list piece) (x : string) :
  wellShaped t -> afterField t -> noLineFeed x = true ->
  forall h, isHead h -> noLineFeed (render h) = true ->
  forall pos caps,
    run fold (pattern h ++ AnyStar :: pattern t) (render h +:+ x +:+ render t) pos caps <> None.
Proof.
  intros Ht Hafter Hx h. induction h as [|[l|c|f|f|] h IH]; cbn [isHead]; try contradiction;
    intros Hh Hlf pos caps; cbn [pattern render app] in *.
  - rewrite append_nil. cbn [run].
    rewrite (starLoop_greedy _ x (render t) pos _ Hx (run_shape fold t Ht _ caps)); [discriminate|].
    intros x' y' Hy Hx'. now apply (nothing_deeper fold t Ht Hafter x' y').
  - rewrite noLineFeed_append in Hlf. apply andb_true_iff in Hlf as [_ Hlf].
    rewrite <- app_assoc, append_assoc, run_lits. now apply IH.
  - cbn [noLineFeed] in Hlf. apply andb_true_iff in Hlf as [Hc Hlf].
    apply negb_true_iff in Hc. rewrite append_cons. cbn [run]. rewrite Hc. now apply IH.
  - rewrite noLineFeed_append in Hlf. apply andb_true_iff in Hlf as [Hf Hlf].
    rewrite append_assoc. cbn [run]. apply starLoop_some; [exact Hf|]. now apply IH.
Qed.

Lemma substring_whole (s : string) : substring 0 (String.length s) s = s.
Proof. induction s as [|a s IH]; [reflexivity|]. simpl. now rewrite IH. Qed.

Lemma substring_prefix (b c : string) : substring 0 (String.length b) (b +:+ c) = b.
Proof.
  induction b as [|a b IH]; [now destruct c|]. rewrite append_cons. simpl. now rewrite IH.
Qed.

Lemma substring_middle (a b c : string) :
  substring (String.length a) (String.length b) (a +:+ b +:+ c) = b.
Proof.
  induction a as [|x a IH]; [exact (substring_prefix b c)|]. rewrite append_cons. simpl. exact IH.
Qed.

Lemma substring_captures (t : list piece) :
  forall x,
    map (fun be => substring (fst be) (snd be - fst be) (x +:+ render t))
        (captures t (String.length x))
    = capturedFields t.
Proof.
  induction t as [|[l|c|f|f|] t IH]; intros x; cbn [render captures capturedFields map].
  - reflexivity.
  - rewrite <- length_append, <- append_assoc. apply IH.
  - replace (S (String.length x)) with (String.length (x +:+ String c "")).
    + replace (x +:+ String c (render t)) with ((x +:+ String c "") +:+ render t); [apply IH|].
      now rewrite append_assoc.
    + rewrite length_append. simpl. lia.
  - rewrite <- length_append, <- append_assoc. apply IH.
  - f_equal.
    + cbn [fst snd]. replace (_ + _ - _) with (String.length f) by lia.
      apply substring_middle.
    + rewrite <- length_append, <- append_assoc. apply IH.
  - apply IH.
Qed.

(** The identifier patterns on the identifiers of their shape: the match is
    the whole identifier and the groups are its captured fields. *)
Lemma FindStringSubmatch_shape (re : Regexp) (h t : list piece) (x : string) :
  prog re = (pattern h ++ AnyStar :: pattern t)%list ->
  isHead h -> wellShaped t -> afterField t ->
  noLineFeed (render h +:+ x +:+ render t) = true ->
  FindStringSubmatch re (render h +:+ x +:+ render t)
  = (render h +:+ x +:+ render t) :: capturedFields t.
Proof.
  intros Hprog Hh Ht Hafter Hlf.
  pose proof Hlf as Hparts. rewrite !noLineFeed_append in Hparts.
  apply andb_true_iff in Hparts as [Hlfh Hparts]. apply andb_true_iff in Hparts as [Hlfx _].
  pose proof (run_exists (foldCase re) t x Ht Hafter Hlfx h Hh Hlfh 0 []) as Hex.
  rewrite <- Hprog in Hex.
  destruct (run (foldCase re) (prog re) (render h +:+ x +:+ render t) 0 []) as [r|] eqn:Hrun;
    [clear Hex|contradiction].
  assert (Hr : r = (String.length ((render h +:+ x) +:+ render t),
                    captures t (String.length (render h +:+ x)))).
  { apply (run_head (foldCase re) t (render h +:+ x) Ht Hafter) with
      (head := pattern h) (w := "") (y1 := render h +:+ x +:+ render t).
    - now rewrite append_assoc.
    - now apply pattern_head_groups.
    - now rewrite append_assoc.
    - now rewrite <- Hprog. }
  subst r.
  assert (Hidx : FindStringSubmatchIndex re (render h +:+ x +:+ render t)
                 = Some ((0, String.length ((render h +:+ x) +:+ render t))
                           :: captures t (String.length (render h +:+ x)))).
  { unfold FindStringSubmatchIndex. destruct (beginText re); [now rewrite Hrun|].
    destruct (render h +:+ x +:+ render t); cbn [search]; now rewrite Hrun. }
  unfold FindStringSubmatch. rewrite Hidx. cbn [map fst snd]. f_equal.
  - rewrite Nat.sub_0_r, append_assoc. apply substring_whole.
  - rewrite <- (append_assoc (render h) x (render t)). apply substring_captures.
Qed.

End Shapes.

(** ** The identifiers of machines, availability sets and interfaces *)

Section Identifiers.

Import regexp.

Ltac render_eq := cbn [render]; rewrite ?append_assoc, ?append_empty; reflexivity.

Ltac well_shaped :=
  repeat match goal with |- _ /\ _ => split end; first [assumption|reflexivity|exact I].

Lemma isField_noLineFeed (f : string) : isField f -> noLineFeed f = true.
Proof. now intros [_ H]. Qed.

Lemma providerIDRE_shape (pre middle name : string) :
  noLineFeed pre = true -> noLineFeed middle = true -> isField name -> name <> "" ->
  FindStringSubmatch providerIDRE
    (pre +:+ "/subscriptions/" +:+ middle +:+ "/Microsoft.Compute/virtualMachines/" +:+ name)
  = [pre +:+ "/subscriptions/" +:+ middle +:+ "/Microsoft.Compute/virtualMachines/" +:+ name;
     name].
Proof.
  intros Hpre Hmid Hname Hne.
  pose proof (FindStringSubmatch_shape providerIDRE
                [Skipped pre; Text "/subscriptions/"]
                [Text "/Microsoft"; Dot "."; Text "Compute/virtualMachines/"; Captured name; TheEnd]
                middle eq_refl) as H.
  cbn [isHead wellShaped afterField capturedFields] in H.
  replace (render [Skipped pre; Text "/subscriptions/"] +:+ middle +:+
           render [Text "/Microsoft"; Dot "."; Text "Compute/virtualMachines/"; Captured name; TheEnd])
    with (pre +:+ "/subscriptions/" +:+ middle +:+ "/Microsoft.Compute/virtualMachines/" +:+ name)
    in H by render_eq.
  apply H; [well_shaped..|].
  rewrite !noLineFeed_append, Hpre, Hmid, (isField_noLineFeed name Hname). reflexivity.
Qed.

Lemma vmasIDRE_shape (sub rg name : string) :
  noLineFeed sub = true -> noLineFeed rg = true -> isField name -> name <> "" ->
  FindStringSubmatch vmasIDRE (consts.AvailabilitySetIDTemplate sub rg name)
  = [consts.AvailabilitySetIDTemplate sub rg name; name].
Proof.
  intros Hsub Hrg Hname Hne. unfold consts.AvailabilitySetIDTemplate.
  pose proof (FindStringSubmatch_shape vmasIDRE
                [Text "/subscriptions/"; Skipped sub; Text "/resourceGroups/"]
                [Text "/providers/Microsoft"; Dot "."; Text "Compute/availabilitySets/";
                 Captured name]
                rg eq_refl) as H.
  cbn [isHead wellShaped afterField capturedFields] in H.
  replace (render [Text "/subscriptions/"; Skipped sub; Text "/resourceGroups/"] +:+ rg +:+
           render [Text "/providers/Microsoft"; Dot "."; Text "Compute/availabilitySets/";
                   Captured name])
    with ("/subscriptions/" +:+ sub +:+ "/resourceGroups/" +:+ rg
            +:+ "/providers/Microsoft.Compute/availabilitySets/" +:+ name)
    in H by render_eq.
  apply H; [well_shaped..|].
  rewrite !noLineFeed_append, Hsub, Hrg, (isField_noLineFeed name Hname). reflexivity.
Qed.

Lemma vmIDRE_shape (sub rg name : string) :
  noLineFeed sub = true -> noLineFeed rg = true -> isField name -> name <> "" ->
  FindStringSubmatch vmIDRE (consts.MachineIDTemplate sub rg name)
  = [consts.MachineIDTemplate sub rg name; name].
Proof.
  intros Hsub Hrg Hname Hne. unfold consts.MachineIDTemplate.
  pose proof (FindStringSubmatch_shape vmIDRE
                [Text "/subscriptions/"; Skipped sub; Text "/resourceGroups/"]
                [Text "/providers/Microsoft"; Dot "."; Text "Compute/virtualMachines/";
                 Captured name]
                rg eq_refl) as H.
  cbn [isHead wellShaped afterField capturedFields] in H.
  replace (render [Text "/subscriptions/"; Skipped sub; Text "/resourceGroups/"] +:+ rg +:+
           render [Text "/providers/Microsoft"; Dot "."; Text "Compute/virtualMachines/";
                   Captured name])
    with ("/subscriptions/" +:+ sub +:+ "/resourceGroups/" +:+ rg
            +:+ "/providers/Microsoft.Compute/virtualMachines/" +:+ name)
    in H by render_eq.
  apply H; [well_shaped..|].
  rewrite !noLineFeed_append, Hsub, Hrg, (isField_noLineFeed name Hname). reflexivity.
Qed.

Lemma nicResourceGroupRE_shape (pre sub rg nic : string) :
  noLineFeed pre = true -> noLineFeed sub = true -> isField rg -> rg <> "" -> isField nic ->
  FindStringSubmatch nicResourceGroupRE (pre +:+ interfaceID sub rg nic)
  = [pre +:+ interfaceID sub rg nic; rg].
Proof.
  intros Hpre Hsub Hrg Hne Hnic. unfold interfaceID.
  pose proof (FindStringSubmatch_shape nicResourceGroupRE
                [Skipped pre; Text "/subscriptions/"]
                [Text "/resourceGroups/"; Captured rg; Text "/providers/Microsoft"; Dot ".";
                 Text "Network/networkInterfaces/"; Skipped nic]
                sub eq_refl) as H.
  cbn [isHead wellShaped afterField capturedFields] in H.
  replace (render [Skipped pre; Text "/subscriptions/"] +:+ sub +:+
           render [Text "/resourceGroups/"; Captured rg; Text "/providers/Microsoft"; Dot ".";
                   Text "Network/networkInterfaces/"; Skipped nic])
    with (pre +:+ "/subscriptions/" +:+ sub +:+ "/resourceGroups/" +:+ rg
            +:+ "/providers/Microsoft.Network/networkInterfaces/" +:+ nic)
    in H by render_eq.
  apply H; [well_shaped..|].
  rewrite !noLineFeed_append, Hpre, Hsub, (isField_noLineFeed rg Hrg),
    (isField_noLineFeed nic Hnic). reflexivity.
Qed.

Lemma nicIDRE_shape (sub rg nic config : string) :
  noLineFeed sub = true -> isField rg -> rg <> "" -> isField nic -> nic <> "" ->
  isField config ->
  FindStringSubmatch nicIDRE (ipConfigurationID sub rg nic config)
  = [ipConfigurationID sub rg nic config; rg; nic].
Proof.
  intros Hsub Hrg Hne Hnic Hne' Hconfig. unfold ipConfigurationID.
  pose proof (FindStringSubmatch_shape nicIDRE
                [Text "/subscriptions/"]
                [Text "/resourceGroups/"; Captured rg; Text "/providers/Microsoft"; Dot ".";
                 Text "Network/networkInterfaces/"; Captured nic; Text "/ipConfigurations/";
                 Skipped config]
                sub eq_refl) as H.
  cbn [isHead wellShaped afterField capturedFields] in H.
  replace (render [Text "/subscriptions/"] +:+ sub +:+
           render [Text "/resourceGroups/"; Captured rg; Text "/providers/Microsoft"; Dot ".";
                   Text "Network/networkInterfaces/"; Captured nic; Text "/ipConfigurations/";
                   Skipped config])
    with ("/subscriptions/" +:+ sub +:+ "/resourceGroups/" +:+ rg
            +:+ "/providers/Microsoft.Network/networkInterfaces/" +:+ nic
            +:+ "/ipConfigurations/" +:+ config)
    in H by render_eq.
  apply H; [well_shaped..|].
  rewrite !noLineFeed_append, Hsub, (isField_noLineFeed rg Hrg),
    (isField_noLineFeed nic Hnic), (isField_noLineFeed config Hconfig). reflexivity.
Qed.

Lemma noLineFeed_ToLower (s : string) : noLineFeed (strings.ToLower s) = noLineFeed s.
Proof.
  induction s as [|c s IH]; [reflexivity|]. simpl. now rewrite lowerByte_lineFeed, IH.
Qed.

(** X5.  A provider ID that ends with the identifier that
    [getStandardMachineID] builds for a machine names that machine:
    [GetNodeNameByProviderID] of the availability-set resolver answers the
    machine name, and the one of the flexible-scale-set resolver answers
    what [getNodeNameByVMName] makes of it.  The subscription and the
    resource group may hold anything on one line; the machine name is a
    segment of a path. *)
Theorem provider_ID_names_its_machine (az fs : Cloud) (pre sub rg name : string) :
  noLineFeed pre = true -> noLineFeed sub = true -> noLineFeed rg = true ->
  isField name -> name <> "" ->
  GetNodeNameByProviderID (pre +:+ getStandardMachineID az sub rg name) = (name, None) /\
  FlexScaleSet.GetNodeNameByProviderID fs (pre +:+ getStandardMachineID az sub rg name)
  = (let '(nodeName, err) := getNodeNameByVMName fs name in
     if err is Some e then ("", Some e) else (nodeName, None)).
Proof.
  intros Hpre Hsub Hrg Hname Hne.
  assert (Hm : FindStringSubmatch providerIDRE (pre +:+ getStandardMachineID az sub rg name)
               = [pre +:+ getStandardMachineID az sub rg name; name]).
  { unfold getStandardMachineID, consts.MachineIDTemplate.
    pose proof (providerIDRE_shape pre
                  (sub +:+ "/resourceGroups/" +:+ strings.ToLower rg +:+ "/providers") name Hpre)
      as H.
    replace (pre +:+ "/subscriptions/" +:+ (sub +:+ "/resourceGroups/" +:+ strings.ToLower rg
               +:+ "/providers") +:+ "/Microsoft.Compute/virtualMachines/" +:+ name)
      with (pre +:+ "/subscriptions/" +:+ sub +:+ "/resourceGroups/" +:+ strings.ToLower rg
              +:+ "/providers/Microsoft.Compute/virtualMachines/" +:+ name)
      in H by (rewrite ?append_assoc; reflexivity).
    apply H; [|exact Hname|exact Hne].
    rewrite !noLineFeed_append, Hsub, noLineFeed_ToLower, Hrg. reflexivity. }
  unfold GetNodeNameByProviderID, FlexScaleSet.GetNodeNameByProviderID. rewrite Hm.
  split; reflexivity.
Qed.

(** X6.  [getAvailabilitySetNameByID] undoes [getAvailabilitySetID]: the ID
    built for an availability set parses back to the name of the set. *)
Theorem availability_set_ID_names_its_set (az : Cloud) (resourceGroup name : string) :
  noLineFeed (SubscriptionID az) = true -> noLineFeed resourceGroup = true ->
  isField name -> name <> "" ->
  getAvailabilitySetNameByID (getAvailabilitySetID az resourceGroup name) = (name, None).
Proof.
  intros Hsub Hrg Hname Hne. unfold getAvailabilitySetNameByID, getAvailabilitySetID.
  rewrite (vmasIDRE_shape _ _ _ Hsub Hrg Hname Hne). reflexivity.
Qed.

(** X7.  [extractResourceGroupByNicID] answers the resource group that the
    identifier of a network interface spells, whatever stands before the
    identifier on the line. *)
Theorem interface_ID_names_its_resource_group (pre sub rg nic : string) :
  noLineFeed pre = true -> noLineFeed sub = true -> isField rg -> rg <> "" -> isField nic ->
  extractResourceGroupByNicID (pre +:+ interfaceID sub rg nic) = (rg, None).
Proof.
  intros Hpre Hsub Hrg Hne Hnic. unfold extractResourceGroupByNicID.
  rewrite (nicResourceGroupRE_shape _ _ _ _ Hpre Hsub Hrg Hne Hnic). reflexivity.
Qed.

Lemma eqb_empty (s : string) : s <> "" -> String.eqb s "" = false.
Proof. destruct s; [contradiction|reflexivity]. Qed.

Lemma slashes_occursIn (s : string) : slashes s = 0 -> occursIn "/" s = false.
Proof.
  induction s as [|c s IH]; [reflexivity|]. simpl.
  destruct (Ascii.eqb c "/"); [discriminate|]. exact IH.
Qed.

(** X8.  The reverse lookup from the identifier of an IP configuration.
    The availability-set resolver reads the interface under the resource
    group and the name that the identifier spells, and answers the name of
    the machine that the interface is attached to, with the name of the
    availability set of the machine in lower case, or with the empty name
    for a machine in no availability set.  The flexible-scale-set resolver
    answers the node of the machine whose name is the name of the interface
    without its first [-nic], with the name of its scale set in lower
    case. *)
Theorem node_of_an_IP_configuration
        (az : Cloud) (sub rg nic config : string) (w : World) :
  noLineFeed sub = true -> isField rg -> rg <> "" -> isField nic -> nic <> "" ->
  isField config ->
  (forall theNic sub' rg' vmName vm,
      InterfacesClient_Get az rg nic w = Done ((theNic, None), w) ->
      machineIDOf theNic = consts.MachineIDTemplate sub' rg' vmName ->
      noLineFeed sub' = true -> noLineFeed rg' = true -> isField vmName -> vmName <> "" ->
      getVirtualMachine az vmName CacheReadTypeDefault = (vm, None) ->
      (availabilitySetIDOf vm = "" ->
       availabilitySet.GetNodeNameByIPConfigurationID az (ipConfigurationID sub rg nic config) w
       = Done ((vmName, "", None), w)) /\
      (forall rg'' asName,
          availabilitySetIDOf vm = getAvailabilitySetID az rg'' asName ->
          noLineFeed (SubscriptionID az) = true -> noLineFeed rg'' = true ->
          isField asName -> asName <> "" ->
          availabilitySet.GetNodeNameByIPConfigurationID az (ipConfigurationID sub rg nic config) w
          = Done ((vmName, strings.ToLower asName, None), w))) /\
  (forall nodeName vmssFlexName,
      getNodeNameByVMName az (strings.Replace1 nic "-nic" "") = (nodeName, None) ->
      FlexScaleSet.getNodeVmssFlexName az nodeName = Done (vmssFlexName, None) ->
      FlexScaleSet.GetNodeNameByIPConfigurationID az (ipConfigurationID sub rg nic config)
      = Done (nodeName, strings.ToLower (strings.ToLower vmssFlexName), None)).
Proof.
  intros Hsub Hrg Hne Hnic Hne' Hconfig.
  pose proof (nicIDRE_shape sub rg nic config Hsub Hrg Hne Hnic Hne' Hconfig) as Hm.
  split.
  - intros theNic sub' rg' vmName vm Hget Hvm Hsub' Hrg' Hname Hnename Hmachine.
    assert (Hprefix :
              availabilitySet.GetNodeNameByIPConfigurationID az (ipConfigurationID sub rg nic config) w
              = (if String.eqb (availabilitySetIDOf vm) "" then ret (vmName, "", None)
                 else let '(asName, err) := getAvailabilitySetNameByID (availabilitySetIDOf vm) in
                      if err is Some e
                      then ret ("", "", Some (errorString
                             ("cannot get the availability set name by the availability set ID "
                                +:+ availabilitySetIDOf vm)))
                      else ret (vmName, strings.ToLower asName, None)) w).
    { unfold availabilitySet.GetNodeNameByIPConfigurationID. rewrite Hm.
      cbn [length Nat.eqb negb nth]. rewrite (eqb_empty rg Hne), (eqb_empty nic Hne').
      cbn [orb]. rewrite bind_apply, Hget.
      fold (machineIDOf theNic). rewrite Hvm.
      rewrite (vmIDRE_shape sub' rg' vmName Hsub' Hrg' Hname Hnename).
      cbn [length Nat.eqb negb nth]. rewrite Hmachine.
      fold (availabilitySetIDOf vm). reflexivity. }
    split.
    + intros Hnone. rewrite Hprefix, Hnone. reflexivity.
    + intros rg'' asName Hset Hsubaz Hrg'' Hfield Hneas. rewrite Hprefix, Hset.
      unfold getAvailabilitySetNameByID, getAvailabilitySetID.
      rewrite (vmasIDRE_shape _ _ _ Hsubaz Hrg'' Hfield Hneas). reflexivity.
  - intros nodeName vmssFlexName Hnode Hvmss.
    unfold FlexScaleSet.GetNodeNameByIPConfigurationID,
      FlexScaleSet.getNodeInformationByIPConfigurationID.
    rewrite Hm. cbn [length Nat.eqb negb nth]. rewrite (eqb_empty rg Hne), (eqb_empty nic Hne').
    cbn [orb]. rewrite Hnode, Hvmss. reflexivity.
Qed.

Lemma getLastSegment_total (ID : string) :
  exists r, getLastSegment ID "/" = Done r.
Proof.
  destruct (last_piece "/" ID) as [Hfree|(prefix & name & -> & Hfree)].
  - rewrite (getLastSegment_free "/") by exact Hfree. destruct (Nat.eqb _ 0); eauto.
  - rewrite (getLastSegment_piece "/") by exact Hfree. destruct (Nat.eqb _ 0); eauto.
Qed.

Lemma getLastSegment_interfaceID (sub rg nic : string) :
  isField nic -> nic <> "" -> getLastSegment (interfaceID sub rg nic) "/" = Done (nic, None).
Proof.
  intros [Hnic _] Hne. unfold interfaceID.
  replace ("/subscriptions/" +:+ sub +:+ "/resourceGroups/" +:+ rg
             +:+ "/providers/Microsoft.Network/networkInterfaces/" +:+ nic)
    with (("/subscriptions/" +:+ sub +:+ "/resourceGroups/" +:+ rg
             +:+ "/providers/Microsoft.Network/networkInterfaces") +:+ String "/" nic)
    by (rewrite ?append_assoc; reflexivity).
  rewrite (getLastSegment_piece "/") by now apply slashes_occursIn.
  destruct nic; [contradiction|reflexivity].
Qed.

(** X9.  The primary interface of a node is read under the resource group
    and the name that the identifier of the interface itself spells, not
    under the resource group of the node: [GetPrimaryInterface] of either
    resolver is the read of that interface. *)
Theorem primary_interface_is_read_by_its_own_ID
        (az : Cloud) (nodeName sub rg nic : string) (machine : compute.VirtualMachine) :
  noLineFeed sub = true -> isField rg -> rg <> "" -> isField nic -> nic <> "" ->
  getPrimaryInterfaceID machine = Done (interfaceID sub rg nic, None) ->
  (forall nodeResourceGroup,
      GetVirtualMachineWithRetry az nodeName CacheReadTypeDefault = (machine, None) ->
      GetNodeResourceGroup az nodeName = (nodeResourceGroup, None) ->
      forall w, availabilitySet.GetPrimaryInterface az nodeName w = readInterface az rg nic w) /\
  (getVmssFlexVM az nodeName CacheReadTypeDefault = (machine, None) ->
   forall w, FlexScaleSet.GetPrimaryInterface az nodeName w = readInterface az rg nic w).
Proof.
  intros Hsub Hrg Hne Hnic Hne' Hid.
  pose proof (getLastSegment_interfaceID sub rg nic Hnic Hne') as Hlast.
  pose proof (nicResourceGroupRE_shape "" sub rg nic eq_refl Hsub Hrg Hne Hnic) as Hm.
  rewrite append_nil in Hm.
  assert (Hgroup : extractResourceGroupByNicID (interfaceID sub rg nic) = (rg, None)).
  { unfold extractResourceGroupByNicID. now rewrite Hm. }
  split.
  - intros nodeResourceGroup Hvm Hnrg w.
    unfold availabilitySet.GetPrimaryInterface, availabilitySet.getPrimaryInterfaceWithVMSet.
    rewrite Hvm, Hid, Hnrg. unfold readInterface, bind, lift, ret. rewrite Hlast, Hgroup.
    assert (Hprops : exists props, compute.vm_Properties machine = Some props).
    { unfold getPrimaryInterfaceID in Hid.
      destruct (compute.vm_Properties machine); [eauto|discriminate]. }
    destruct Hprops as [props Hprops]. rewrite Hprops. cbn [deref].
    destruct (negb (useStandardLoadBalancer az)).
    { cbn. destruct (InterfacesClient_Get az rg nic w) as [[[? [?|]] ?]|]; reflexivity. }
    destruct (EnableMultipleStandardLoadBalancers az).
    2: { cbn. destruct (InterfacesClient_Get az rg nic w) as [[[? [?|]] ?]|]; reflexivity. }
    destruct (compute.AvailabilitySet props) as [avset|].
    2: { cbn. destruct (InterfacesClient_Get az rg nic w) as [[[? [?|]] ?]|]; reflexivity. }
    destruct (getLastSegment_total (to.String (compute.sub_ID avset))) as [[vmasName e] ->].
    destruct (_ && _); cbn;
      destruct (InterfacesClient_Get az rg nic w) as [[[? [?|]] ?]|]; reflexivity.
  - intros Hvm w. unfold FlexScaleSet.GetPrimaryInterface.
    rewrite Hvm, Hid. unfold readInterface, bind, lift, ret. rewrite Hlast, Hgroup.
    destruct (InterfacesClient_Get az rg nic w) as [[[? [?|]] ?]|]; reflexivity.
Qed.

End Identifiers.

Lemma provider_ID_names_its_machine_witness :
  GetNodeNameByProviderID
    ("azure://" +:+ getStandardMachineID (Fixture.cloud true) "sub" "RG1" "worker-0")
  = ("worker-0", None) /\
  FlexScaleSet.GetNodeNameByProviderID (Fixture.cloud true)
    ("azure://" +:+ getStandardMachineID (Fixture.cloud true) "sub" "RG1" "worker-0")
  = ("worker-0", None).
Proof.
  apply (provider_ID_names_its_machine (Fixture.cloud true) (Fixture.cloud true)
           "azure://" "sub" "RG1" "worker-0");
    [reflexivity|reflexivity|reflexivity|split; reflexivity|discriminate].
Defined.

Lemma availability_set_ID_names_its_set_witness :
  getAvailabilitySetNameByID (getAvailabilitySetID (Fixture.cloud true) "rg1" "agentpool")
  = ("agentpool", None).
Proof.
  apply (availability_set_ID_names_its_set (Fixture.cloud true) "rg1" "agentpool");
    [reflexivity|reflexivity|split; reflexivity|discriminate].
Defined.

Lemma interface_ID_names_its_resource_group_witness :
  extractResourceGroupByNicID ("" +:+ interfaceID "sub" "rg1" "worker-0-nic") = ("rg1", None).
Proof.
  apply (interface_ID_names_its_resource_group "" "sub" "rg1" "worker-0-nic");
    [reflexivity|reflexivity|split; reflexivity|discriminate|split; reflexivity].
Defined.

Lemma node_of_an_IP_configuration_witness :
  availabilitySet.GetNodeNameByIPConfigurationID (Fixture.cloud true)
    (ipConfigurationID "sub" "rg1" "worker-0-nic" "ipconfig1") Fixture.world
  = Done (("worker-0", "agentpool", None), Fixture.world) /\
  FlexScaleSet.GetNodeNameByIPConfigurationID (Fixture.cloud true)
    (ipConfigurationID "sub" "rg1" "worker-0-nic" "ipconfig1")
  = Done ("worker-0", "agentpool", None).
Proof.
  destruct (node_of_an_IP_configuration (Fixture.cloud true)
              "sub" "rg1" "worker-0-nic" "ipconfig1" Fixture.world)
    as [Has Hfs];
    [reflexivity|split; reflexivity|discriminate|split; reflexivity|discriminate
    |split; reflexivity|].
  split.
  - destruct (Has (Fixture.nic "worker-0-nic" "worker-0" "Succeeded" [Fixture.ipConfig true []])
                  "sub" "rg1" "worker-0"
                  (Fixture.vm "worker-0" (Some "agentpool") (Some ["1"]) None))
      as [_ Hset];
      [vm_compute; reflexivity|reflexivity|reflexivity|reflexivity|split; reflexivity
      |discriminate|reflexivity|].
    apply (Hset "rg1" "agentpool");
      [reflexivity|reflexivity|reflexivity|split; reflexivity|discriminate].
  - apply (Hfs "worker-0" "agentpool"); reflexivity.
Defined.

Lemma primary_interface_is_read_by_its_own_ID_witness :
  availabilitySet.GetPrimaryInterface (Fixture.cloud true) "worker-0" Fixture.world
  = readInterface (Fixture.cloud true) "rg1" "worker-0-nic" Fixture.world /\
  FlexScaleSet.GetPrimaryInterface (Fixture.cloud true) "worker-0" Fixture.world
  = readInterface (Fixture.cloud true) "rg1" "worker-0-nic" Fixture.world.
Proof.
  destruct (primary_interface_is_read_by_its_own_ID (Fixture.cloud true)
              "worker-0" "sub" "rg1" "worker-0-nic"
              (Fixture.vm "worker-0" (Some "agentpool") (Some ["1"]) None))
    as [Has Hfs];
    [reflexivity|split; reflexivity|discriminate|split; reflexivity|discriminate|reflexivity|].
  split.
  - apply (Has "rg1"); reflexivity.
  - apply Hfs. reflexivity.
Defined.

(** ** Names of load balancers, rules and frontend IP configurations *)

Section Names.

Import strings.

Lemma drop_append (p s : string) : drop (String.length p) (p +:+ s) = s.
Proof. induction p as [|c p IH]; [now destruct s|]. rewrite append_cons. simpl. exact IH. Qed.

Lemma take_append (p s : string) : take (String.length p) (p +:+ s) = p.
Proof.
  induction p as [|c p IH]; [now destruct s|]. rewrite append_cons. simpl. now rewrite IH.
Qed.

Lemma length_take (n : nat) (s : string) :
  String.length (take n s) = Nat.min n (String.length s).
Proof.
  revert s. induction n as [|n IH]; intros [|c s]; simpl; try reflexivity. now rewrite IH.
Qed.

Lemma HasSuffix_append (p suffix : string) : HasSuffix (p +:+ suffix) suffix = true.
Proof.
  unfold HasSuffix. rewrite length_append.
  replace (String.length p + String.length suffix - String.length suffix)
    with (String.length p) by lia.
  rewrite drop_append, String.eqb_refl, andb_true_r. apply Nat.leb_le. lia.
Qed.

Lemma TrimSuffix_append (p suffix : string) : TrimSuffix (p +:+ suffix) suffix = p.
Proof.
  unfold TrimSuffix. rewrite HasSuffix_append, length_append.
  replace (String.length p + String.length suffix - String.length suffix)
    with (String.length p) by lia.
  apply take_append.
Qed.

Lemma ToUpper_append (s t : string) : ToUpper (s +:+ t) = ToUpper s +:+ ToUpper t.
Proof.
  induction s as [|c s IH]; [reflexivity|]. rewrite append_cons. simpl. now rewrite IH.
Qed.

Lemma HasPrefix_append (p s : string) : HasPrefix (p +:+ s) p = true.
Proof.
  induction p as [|c p IH]; [now destruct s|]. rewrite append_cons. simpl.
  now rewrite Ascii.eqb_refl, IH.
Qed.

Variable az : Cloud.
Variable cfg : Naming.

(** The prefix of the name of a load balancer: the name of the cluster for
    the primary VM set, for the single standard load balancer and for the
    VM sets that share the primary one. *)
Lemma getAzureLoadBalancerName_prefix (clusterName vmSetName : string) (isInternal : bool) :
  LoadBalancerName cfg = "" ->
  getAzureLoadBalancerName az cfg clusterName vmSetName isInternal
  = (if namedAfterCluster az cfg vmSetName then clusterName else vmSetName)
      +:+ (if isInternal then consts.InternalLoadBalancerNameSuffix else "").
Proof.
  intros Hname. unfold getAzureLoadBalancerName, namedAfterCluster. rewrite Hname.
  cbn [String.eqb negb].
  destruct (EqualFold vmSetName (VMSet_GetPrimaryVMSetName cfg)
            || useStandardLoadBalancer az && negb (EnableMultipleStandardLoadBalancers az));
    destruct (useStandardLoadBalancer az && EnableMultipleStandardLoadBalancers az
              && getVMSetNamesSharingPrimarySLB_Has az (ToLower vmSetName));
    destruct isInternal; cbn; now rewrite ?append_empty.
Qed.

(** X10.  Without a configured load-balancer name, the name that
    [getAzureLoadBalancerName] gives the load balancer of a VM set maps back
    by [mapLoadBalancerNameToVMSet]: to the primary VM set when the load
    balancer is named after the cluster (or the VM set is named like the
    cluster), to the VM set itself otherwise.  For an external load
    balancer this needs a name that does not itself end with the suffix of
    the internal ones.  And [isInternalLoadBalancer] recognises the internal
    load balancers by their names. *)
Theorem load_balancer_name_maps_back_to_its_VM_set
        (clusterName vmSetName : string) (isInternal : bool) :
  LoadBalancerName cfg = "" ->
  (isInternal = true \/
   HasSuffix (if namedAfterCluster az cfg vmSetName then clusterName else vmSetName)
             consts.InternalLoadBalancerNameSuffix = false) ->
  mapLoadBalancerNameToVMSet cfg
    (getAzureLoadBalancerName az cfg clusterName vmSetName isInternal) clusterName
  = (if namedAfterCluster az cfg vmSetName || EqualFold clusterName vmSetName
     then VMSet_GetPrimaryVMSetName cfg
     else vmSetName) /\
  (isInternal = true ->
   forall lb,
     network.lb_Name lb = Some (getAzureLoadBalancerName az cfg clusterName vmSetName isInternal) ->
     isInternalLoadBalancer (Some lb) = Done true).
Proof.
  intros Hname Hsuffix. rewrite getAzureLoadBalancerName_prefix by exact Hname.
  set (prefix := if namedAfterCluster az cfg vmSetName then clusterName else vmSetName) in *.
  split.
  - assert (Htrim : TrimSuffix (prefix +:+ (if isInternal
                                            then consts.InternalLoadBalancerNameSuffix else ""))
                               consts.InternalLoadBalancerNameSuffix = prefix).
    { destruct isInternal.
      - apply TrimSuffix_append.
      - destruct Hsuffix as [Hi|Hno]; [discriminate|].
        rewrite append_empty. unfold TrimSuffix. now rewrite Hno. }
    unfold mapLoadBalancerNameToVMSet. rewrite Htrim. unfold prefix.
    destruct (namedAfterCluster az cfg vmSetName); [|reflexivity].
    now rewrite EqualFold_refl.
  - intros -> lb Hlb. unfold isInternalLoadBalancer. cbn [deref obind]. rewrite Hlb.
    cbn [deref obind]. now rewrite HasSuffix_append.
Qed.

Lemma len_append (s t : string) : len (s +:+ t) = (len s + len t)%Z.
Proof. unfold len. rewrite length_append. lia. Qed.

Lemma slicePrefix_in_range (s : string) (n : Z) :
  (0 <= n <= len s)%Z ->
  slicePrefix s n = Done (take (Z.to_nat n) s) /\ len (take (Z.to_nat n) s) = n.
Proof.
  intros Hn. unfold slicePrefix, len in *.
  destruct (Z.leb_spec 0 n); [|lia]. destruct (Z.leb_spec n (Z.of_nat (String.length s))); [|lia].
  split; [reflexivity|]. rewrite length_take. lia.
Qed.

Lemma slicePrefix_below (s : string) (n : Z) : (n < 0)%Z -> slicePrefix s n = Panic.
Proof. intros Hn. unfold slicePrefix. destruct (Z.leb_spec 0 n); [lia|reflexivity]. Qed.


(** X12.  A service owns the rules that are named after it: the names
    that [getLoadBalancerRuleName] and, for a security rule that is not
    shared, [getSecurityRuleName] give pass [serviceOwnsRule]. *)
Theorem service_owns_the_rules_named_after_it
        (service : v1.Service) (protocol : string) (port : Z) (sourceAddrPrefix : string) :
  (forall name,
      getLoadBalancerRuleName cfg service protocol port = Done name ->
      serviceOwnsRule cfg service name = true) /\
  (useSharedSecurityRule cfg service = false ->
   serviceOwnsRule cfg service (getSecurityRuleName cfg service protocol port sourceAddrPrefix)
   = true).
Proof.
  split.
  - intros name. unfold getLoadBalancerRuleName, serviceOwnsRule.
    destruct (subnet cfg service) as [subnetSegment|].
    + destruct (_ >? _)%Z; [destruct (slicePrefix _ _)|]; cbn [obind]; try discriminate;
        intros [= <-]; rewrite ToUpper_append; apply HasPrefix_append.
    + intros [= <-]. rewrite ToUpper_append. apply HasPrefix_append.
  - intros Hshared. unfold getSecurityRuleName, serviceOwnsRule. rewrite Hshared.
    rewrite ToUpper_append. apply HasPrefix_append.
Qed.

Lemma lastByte_some (c : ascii) (s : string) : exists final, lastByte (String c s) = Some final.
Proof.
  revert c. induction s as [|b s IH]; intros c; [now exists c|].
  destruct (IH b) as [final Hfinal]. exists final. exact Hfinal.
Qed.

(** X13.  The default name of the frontend IP configuration of a service
    with a subnet never panics and has at most 80 bytes: it is the base
    name, a hyphen and the subnet when that fits, and otherwise its first
    80 bytes, the last of which is a letter or is replaced by an
    underscore. *)
Theorem frontend_IP_config_name_fits (service : v1.Service) (subnetName : string) :
  subnet cfg service = Some subnetName ->
  let ipcName := GetLoadBalancerName cfg "" service +:+ "-" +:+ subnetName in
  exists name,
    getDefaultFrontendIPConfigName cfg service = Done name /\
    (len name <= 80)%Z /\
    ((len ipcName <= 80)%Z -> name = ipcName) /\
    ((80 < len ipcName)%Z ->
     len name = 80%Z /\
     exists final, lastByte name = Some final /\
                   (isLetterByte final = true \/ final = "_"%char)).
Proof.
  intros Hsubnet ipcName. unfold getDefaultFrontendIPConfigName. rewrite Hsubnet.
  fold ipcName. unfold consts.FrontendIPConfigNameMaxLength.
  destruct (Z.gtb_spec (len ipcName) 80) as [Hgt|Hle].
  2: { exists ipcName. split; [reflexivity|]. split; [exact Hle|]. split; [reflexivity|lia]. }
  destruct (slicePrefix_in_range ipcName 80) as [-> Hcut]; [lia|]. cbn [obind].
  set (cut := take (Z.to_nat 80) ipcName) in *.
  destruct cut as [|c cut'] eqn:Ecut; [discriminate|].
  destruct (lastByte_some c cut') as [final Hfinal]. rewrite Hfinal. cbn [deref obind].
  destruct (negb (isLetterByte final) && negb (Ascii.eqb final "_")) eqn:Hreplace.
  - destruct (slicePrefix_in_range (String c cut') (len (String c cut') - 1)) as [-> Hcut'];
      [unfold len in *; simpl in *; lia|]. cbn [obind].
    eexists. split; [reflexivity|]. rewrite len_append, Hcut', Hcut.
    split; [unfold len; simpl; lia|]. split; [lia|]. intros _.
    split; [unfold len; simpl; lia|]. exists "_"%char. split; [|now right].
    now rewrite lastByte_piece.
  - eexists. split; [reflexivity|]. rewrite Hcut. split; [lia|]. split; [lia|]. intros _.
    split; [reflexivity|]. exists final. split; [exact Hfinal|].
    apply andb_false_iff in Hreplace as [H|H]; apply negb_false_iff in H.
    + now left.
    + right. now apply Ascii.eqb_eq in H.
Qed.

End Names.

Section BackendPoolID.

Import regexp.

(** X14.  The identifier that [getBackendPoolID] builds for a backend pool
    of a load balancer is matched by the backend-pool pattern, whose group
    is the name of the load balancer. *)
Theorem backend_pool_ID_names_its_load_balancer
        (az : Cloud) (cfg : Naming) (lbName rgName backendPoolName : string) :
  noLineFeed (getNetworkResourceSubscriptionID az cfg) = true -> noLineFeed rgName = true ->
  isField lbName -> lbName <> "" -> isField backendPoolName ->
  FindStringSubmatch backendPoolIDRE (getBackendPoolID az cfg lbName rgName backendPoolName)
  = [getBackendPoolID az cfg lbName rgName backendPoolName; lbName] /\
  lbNameOf (getBackendPoolID az cfg lbName rgName backendPoolName) = Some lbName.
Proof.
  intros Hsub Hrg Hlb Hne Hpool.
  assert (Hm : FindStringSubmatch backendPoolIDRE
                 (getBackendPoolID az cfg lbName rgName backendPoolName)
               = [getBackendPoolID az cfg lbName rgName backendPoolName; lbName]).
  { unfold getBackendPoolID, consts.BackendPoolIDTemplate.
    set (sub := getNetworkResourceSubscriptionID az cfg) in *.
    pose proof (FindStringSubmatch_shape backendPoolIDRE
                  [Text "/subscriptions/"; Skipped sub; Text "/resourceGroups/"]
                  [Text "/providers/Microsoft"; Dot "."; Text "Network/loadBalancers/";
                   Captured lbName; Text "/backendAddressPools/"; Skipped backendPoolName]
                  rgName eq_refl) as H.
    cbn [isHead wellShaped afterField capturedFields] in H.
    replace (render [Text "/subscriptions/"; Skipped sub; Text "/resourceGroups/"] +:+ rgName +:+
             render [Text "/providers/Microsoft"; Dot "."; Text "Network/loadBalancers/";
                     Captured lbName; Text "/backendAddressPools/"; Skipped backendPoolName])
      with ("/subscriptions/" +:+ sub +:+ "/resourceGroups/" +:+ rgName
              +:+ "/providers/Microsoft.Network/loadBalancers/" +:+ lbName
              +:+ "/backendAddressPools/" +:+ backendPoolName)
      in H by (cbn [render]; rewrite ?append_assoc, ?append_empty; reflexivity).
    apply H;
      [repeat match goal with |- _ /\ _ => split end; first [assumption|reflexivity|exact I]..|].
    destruct Hlb as [_ Hlb], Hpool as [_ Hpool].
    rewrite !noLineFeed_append, Hsub, Hrg, Hlb, Hpool. reflexivity. }
  split; [exact Hm|]. unfold lbNameOf. now rewrite Hm.
Qed.

End BackendPoolID.

Lemma load_balancer_name_maps_back_to_its_VM_set_witness :
  mapLoadBalancerNameToVMSet Sample.naming
    (getAzureLoadBalancerName (Fixture.cloud false) Sample.naming "kubernetes" "otherpool" true)
    "kubernetes"
  = "otherpool" /\
  mapLoadBalancerNameToVMSet Sample.naming
    (getAzureLoadBalancerName (Fixture.cloud true) Sample.naming "kubernetes" "otherpool" false)
    "kubernetes"
  = "agentpool" /\
  isInternalLoadBalancer
    (Some {| network.lb_Name :=
               Some (getAzureLoadBalancerName (Fixture.cloud false) Sample.naming
                       "kubernetes" "otherpool" true) |})
  = Done true.
Proof.
  destruct (load_balancer_name_maps_back_to_its_VM_set (Fixture.cloud false) Sample.naming
              "kubernetes" "otherpool" true eq_refl (or_introl eq_refl)) as [Hbasic Hinternal].
  destruct (load_balancer_name_maps_back_to_its_VM_set (Fixture.cloud true) Sample.naming
              "kubernetes" "otherpool" false eq_refl (or_intror eq_refl)) as [Hstandard _].
  split; [exact Hbasic|]. split; [exact Hstandard|]. now apply Hinternal.
Defined.


Lemma frontend_IP_config_name_fits_witness :
  exists name,
    getDefaultFrontendIPConfigName Sample.naming Sample.internalService = Done name /\
    (len name <= 80)%Z.
Proof.
  destruct (frontend_IP_config_name_fits Sample.naming Sample.internalService
              Sample.longSubnet eq_refl) as (name & Hname & Hfits & _).
  exists name. split; assumption.
Defined.

Lemma backend_pool_ID_names_its_load_balancer_witness :
  lbNameOf (getBackendPoolID (Fixture.cloud true) Sample.naming "lb-a" "rg1" "pool-x")
  = Some "lb-a".
Proof.
  apply (backend_pool_ID_names_its_load_balancer (Fixture.cloud true) Sample.naming
           "lb-a" "rg1" "pool-x");
    [reflexivity|reflexivity|split; reflexivity|discriminate|split; reflexivity].
Defined.

(** ** VM sets, private addresses and the interface of a host *)

Section VMSets.

Import availabilitySet.

Lemma lowerByte_idempotent (c : ascii) : strings.lowerByte (strings.lowerByte c) = strings.lowerByte c.
Proof. destruct c as [[] [] [] [] [] [] [] []]; reflexivity. Qed.

Lemma ToLower_idempotent (s : string) : strings.ToLower (strings.ToLower s) = strings.ToLower s.
Proof.
  induction s as [|c s IH]; [reflexivity|]. simpl. now rewrite lowerByte_idempotent, IH.
Qed.

Lemma foundAmong_some (names : list string) (serviceVMSetName found : string) :
  foundAmong names serviceVMSetName = Some found ->
  found ∈ names /\ strings.EqualFold found serviceVMSetName = true.
Proof.
  unfold foundAmong. intros H. apply find_some in H as [Hin Heq].
  split; [now apply list_elem_of_In|exact Heq].
Qed.

Lemma foundAmong_none (names : list string) (serviceVMSetName : string) :
  foundAmong names serviceVMSetName = None ->
  forall name, name ∈ names -> strings.EqualFold name serviceVMSetName = false.
Proof.
  unfold foundAmong. intros H name Hin. apply list_elem_of_In in Hin.
  exact (find_none _ _ H name Hin).
Qed.

Lemma availabilitySetIDsByName_spec (vms : list compute.VirtualMachine)
      (m0 m : gmap string string) (name id : string) :
  availabilitySetIDsByName vms m0 = Done m -> m !! name = Some id ->
  m0 !! name = Some id \/
  exists vm props avset, vm ∈ vms /\ compute.vm_Properties vm = Some props /\
    compute.AvailabilitySet props = Some avset /\
    compute.vm_Name vm = Some name /\ compute.sub_ID avset = Some id.
Proof.
  revert m0. induction vms as [|vm vms IH]; intros m0; simpl.
  - intros [= <-] H. now left.
  - destruct (compute.vm_Properties vm) as [props|] eqn:Ep; cbn [deref obind]; [|discriminate].
    destruct (compute.AvailabilitySet props) as [avset|] eqn:Eas.
    + destruct (compute.vm_Name vm) as [n|] eqn:En; cbn [deref obind]; [|discriminate].
      destruct (compute.sub_ID avset) as [i|] eqn:Ei; cbn [deref obind]; [|discriminate].
      intros Hrun Hm. destruct (IH _ Hrun Hm) as [H0|(vm' & p & a & Hin & H)].
      * destruct (decide (n = name)) as [->|Hne].
        -- rewrite lookup_insert_eq in H0. injection H0 as ->.
           right. exists vm, props, avset. repeat split; auto. apply elem_of_cons; now left.
        -- rewrite lookup_insert_ne in H0 by exact Hne. now left.
      * right. exists vm', p, a. split; [apply elem_of_cons; now right|exact H].
    + intros Hrun Hm. destruct (IH _ Hrun Hm) as [H0|(vm' & p & a & Hin & H)]; [now left|].
      right. exists vm', p, a. split; [apply elem_of_cons; now right|exact H].
Qed.

Lemma agentPoolSetsOf_spec (ids : gmap string string) (nodes : list v1.Node)
      (sets0 : list string) (r : option (list string)) (err : option error) :
  agentPoolSetsOf ids nodes sets0 = Done (r, err) ->
  match err with
  | Some _ => r = None
  | None => exists sets, r = Some (sets0 ++ sets)%list /\
              length sets <= length nodes /\
              forall set, set ∈ sets -> setOfWorker ids nodes set
  end.
Proof.
  revert sets0. induction nodes as [|node nodes IH]; intros sets0; simpl.
  - intros [= <- <-]. exists []. rewrite app_nil_r. split; [reflexivity|].
    split; [reflexivity|]. intros set Hin. inversion Hin.
  - assert (Hlater : forall sets1,
               agentPoolSetsOf ids nodes sets1 = Done (r, err) ->
               (exists more, sets1 = (sets0 ++ more)%list /\ length more <= 1 /\
                  forall set, set ∈ more -> setOfWorker ids (node :: nodes) set) ->
               match err with
               | Some _ => r = None
               | None => exists sets, r = Some (sets0 ++ sets)%list /\
                           length sets <= S (length nodes) /\
                           forall set, set ∈ sets -> setOfWorker ids (node :: nodes) set
               end).
    { intros sets1 Hrun (more & -> & Hlen & Hmore). specialize (IH _ Hrun).
      destruct err; [exact IH|]. destruct IH as (sets & -> & Hlen' & Hsets).
      exists (more ++ sets)%list. rewrite app_assoc. split; [reflexivity|].
      split; [rewrite length_app; lia|].
      intros set [Hin|Hin]%elem_of_app; [now apply Hmore|].
      destruct (Hsets set Hin) as (n & i & a & Hn & H).
      exists n, i, a. split; [apply elem_of_cons; now right|exact H]. }
    assert (Hskip : exists more : list string, sets0 = (sets0 ++ more)%list /\ length more <= 1 /\
               forall set, set ∈ more -> setOfWorker ids (node :: nodes) set).
    { exists []. rewrite app_nil_r. split; [reflexivity|]. split; [simpl; lia|].
      intros set Hin. inversion Hin. }
    destruct (isControlPlaneNode node) eqn:Ecp.
    + intros Hrun. exact (Hlater _ Hrun Hskip).
    + destruct (ids !! v1.node_Name node) as [asID|] eqn:Eid.
      * destruct (getLastSegment asID "/") as [[asName [e|]]|] eqn:Eseg; cbn [obind].
        -- intros [= <- <-]. reflexivity.
        -- intros Hrun. apply (Hlater _ Hrun). exists [strings.ToLower asName].
           split; [reflexivity|]. split; [simpl; lia|].
           intros set ->%list_elem_of_singleton. exists node, asID, asName.
           split; [apply elem_of_cons; now left|]. auto.
        -- discriminate.
      * intros Hrun. exact (Hlater _ Hrun Hskip).
Qed.

Lemma agentPoolSets_answer {vms nodes r err} :
  getAgentPoolAvailabilitySets vms nodes = Done (r, err) ->
  match err with
  | Some _ => r = None
  | None => exists sets, r = Some sets /\ length sets <= length nodes
  end.
Proof.
  unfold getAgentPoolAvailabilitySets.
  destruct (availabilitySetIDsByName vms ∅) as [ids|]; cbn [obind]; [|discriminate].
  intros Hrun. apply agentPoolSetsOf_spec in Hrun.
  destruct err; [exact Hrun|]. destruct Hrun as (sets & -> & Hlen & _). now exists sets.
Qed.

(** X15.  The availability sets that [getAgentPoolAvailabilitySets]
    returns are those of the workers: there is at most one per node, each
    is in lower case, and each is the last segment of the availability-set
    ID of a listed machine that is named like a node without a
    control-plane role.  With an error no list is returned. *)
Theorem agent_pool_sets_are_those_of_the_workers
        (vms : list compute.VirtualMachine) (nodes : list v1.Node)
        (r : option (list string)) (err : option error) :
  getAgentPoolAvailabilitySets vms nodes = Done (r, err) ->
  match err with
  | Some _ => r = None
  | None => exists sets, r = Some sets /\ length sets <= length nodes /\
              forall set, set ∈ sets ->
                setOfWorkerMachine vms nodes set /\ strings.ToLower set = set
  end.
Proof.
  unfold getAgentPoolAvailabilitySets.
  destruct (availabilitySetIDsByName vms ∅) as [ids|] eqn:Eids; cbn [obind]; [|discriminate].
  intros Hrun. apply agentPoolSetsOf_spec in Hrun.
  destruct err; [exact Hrun|]. destruct Hrun as (sets & -> & Hlen & Hsets).
  exists sets. split; [reflexivity|]. split; [exact Hlen|].
  intros set Hin. destruct (Hsets set Hin) as (node & asID & asName & Hn & Hcp & Hid & Hseg & ->).
  split; [|apply ToLower_idempotent].
  destruct (availabilitySetIDsByName_spec _ _ _ _ _ Eids Hid)
    as [H0|(vm & props & avset & Hvm & Hp & Has & Hname & Hi)].
  - rewrite lookup_empty in H0. discriminate.
  - exists node, vm, props, avset, asID, asName. repeat split; assumption.
Qed.

(** X16.  The VM sets of a service, on availability sets.  An answer has
    names or an error, never both, and the names are never an empty list.
    Without a mode in the annotation, or with a single standard load
    balancer, the answer is the primary availability set.  Otherwise the
    automatic mode answers the sets of the agent pool, and a named mode
    the name as the annotation spells it, which some set of the agent pool
    equals up to case. *)
Theorem VM_sets_of_a_service_on_availability_sets
        (as_ : Cloud) (methods : CloudMethods) (service : v1.Service) (nodes : list v1.Node)
        (r : option (list string)) (err : option error) :
  GetVMSetNames as_ methods service nodes = Done (r, err) ->
  let '(hasMode, isAuto, serviceAvailabilitySetName) :=
    getServiceLoadBalancerMode methods service in
  let useSingleSLB :=
    useStandardLoadBalancer as_ && negb (EnableMultipleStandardLoadBalancers as_) in
  match err with
  | Some _ => r = None /\ hasMode = true /\ useSingleSLB = false
  | None =>
      exists names, r = Some names /\ names <> [] /\
        if negb hasMode || useSingleSLB then names = [PrimaryAvailabilitySetName as_]
        else
          exists sets,
            getAgentPoolAvailabilitySets (ListVirtualMachines methods (ResourceGroup as_)).1 nodes
            = Done (Some sets, None) /\
            if isAuto then names = sets
            else names = [serviceAvailabilitySetName] /\
                 exists found, found ∈ sets /\
                   strings.EqualFold found serviceAvailabilitySetName = true
  end.
Proof.
  unfold GetVMSetNames.
  destruct (getServiceLoadBalancerMode methods service) as [[hasMode isAuto] name].
  cbn zeta.
  destruct (negb hasMode || _) eqn:Edefault.
  { intros [= <- <-]. exists [PrimaryAvailabilitySetName as_]. now repeat split. }
  apply orb_false_elim in Edefault as [Hmode Hsingle]. apply negb_false_iff in Hmode.
  destruct (ListVirtualMachines methods (ResourceGroup as_)) as [vms [e|]].
  { intros [= <- <-]. auto. }
  cbn [fst].
  destruct (getAgentPoolAvailabilitySets vms nodes) as [[sets [e|]]|] eqn:Esets; cbn [obind].
  - intros [= <- <-]. auto.
  - pose proof (agentPoolSets_answer Esets) as Hsome. cbn in Hsome. destruct Hsome as (l & -> & _).
    cbn [deref obind].
    destruct (Nat.eqb (length l) 0) eqn:Elen.
    { intros [= <- <-]. auto. }
    assert (Hne : l <> []) by (intros ->; discriminate).
    destruct isAuto; cbn [negb].
    + intros [= <- <-]. exists l. split; [reflexivity|]. split; [exact Hne|]. now exists l.
    + destruct (foundAmong l name) as [found|] eqn:Efound.
      * intros [= <- <-]. exists [name]. split; [reflexivity|]. split; [discriminate|].
        exists l. split; [reflexivity|]. split; [reflexivity|].
        exists found. now apply foundAmong_some.
      * intros [= <- <-]. auto.
  - discriminate.
Qed.

Lemma vmSetNamesOf_spec (fs : Cloud) (nodes : list v1.Node) (names0 names : list string) :
  FlexScaleSet.vmSetNamesOf fs nodes names0 = Done names ->
  exists more, names = (names0 ++ more)%list /\ length more <= length nodes /\
    (forall name, name ∈ more ->
       exists node, node ∈ nodes /\ FlexScaleSet.GetNodeVMSetName fs node = Done (name, None)) /\
    (forall node name, node ∈ nodes -> FlexScaleSet.GetNodeVMSetName fs node = Done (name, None) ->
       name ∈ more).
Proof.
  revert names0. induction nodes as [|node nodes IH]; intros names0; simpl.
  - intros [= <-]. exists []. rewrite app_nil_r. split; [reflexivity|]. split; [reflexivity|].
    split; [intros ? Hin|intros ? ? Hin]; inversion Hin.
  - destruct (FlexScaleSet.GetNodeVMSetName fs node) as [[vmSetName [e|]]|] eqn:Enode;
      cbn [obind]; [| |discriminate]; intros Hrun; apply IH in Hrun
      as (more & -> & Hlen & Hsound & Hcomplete).
    + exists more. split; [reflexivity|]. split; [lia|]. split.
      * intros name Hin. destruct (Hsound name Hin) as (n & Hn & H).
        exists n. split; [apply elem_of_cons; now right|exact H].
      * intros n name [->|Hin]%elem_of_cons Hname; [congruence|now apply (Hcomplete n)].
    + exists (vmSetName :: more). rewrite <- app_assoc. split; [reflexivity|].
      split; [simpl; lia|]. split.
      * intros name [->|Hin]%elem_of_cons.
        -- exists node. split; [apply elem_of_cons; now left|exact Enode].
        -- destruct (Hsound name Hin) as (n & Hn & H).
           exists n. split; [apply elem_of_cons; now right|exact H].
      * intros n name [->|Hin]%elem_of_cons Hname.
        -- rewrite Enode in Hname. injection Hname as ->. apply elem_of_cons; now left.
        -- apply elem_of_cons; right. now apply (Hcomplete n).
Qed.

(** X17.  The VM sets of a service, on flexible scale sets.  Without a
    mode in the annotation, or with a single standard load balancer, the
    answer is the primary scale set.  Otherwise every name answered is the
    scale set of one of the nodes; the automatic mode answers the scale set
    of every node that has one, be the list empty, and a named mode the one
    name, as the node spells it, that equals the annotation up to case.
    The only error is that of a named mode that no node's scale set
    matches. *)
Theorem VM_sets_of_a_service_on_flexible_scale_sets
        (fs : Cloud) (methods : CloudMethods) (service : v1.Service) (nodes : list v1.Node)
        (r : option (list string)) (err : option error) :
  FlexScaleSet.GetVMSetNames fs methods service nodes = Done (r, err) ->
  let '(hasMode, isAuto, serviceVMSetName) := getServiceLoadBalancerMode methods service in
  let useSingleSLB :=
    useStandardLoadBalancer fs && negb (EnableMultipleStandardLoadBalancers fs) in
  match err with
  | Some _ =>
      r = None /\ hasMode = true /\ useSingleSLB = false /\ isAuto = false /\
      forall node name, node ∈ nodes ->
        FlexScaleSet.GetNodeVMSetName fs node = Done (name, None) ->
        strings.EqualFold name serviceVMSetName = false
  | None =>
      exists names, r = Some names /\
        if negb hasMode || useSingleSLB then names = [PrimaryScaleSetName fs]
        else
          length names <= length nodes /\
          (forall name, name ∈ names ->
             exists node, node ∈ nodes /\
               FlexScaleSet.GetNodeVMSetName fs node = Done (name, None)) /\
          if isAuto
          then forall node name, node ∈ nodes ->
                 FlexScaleSet.GetNodeVMSetName fs node = Done (name, None) -> name ∈ names
          else exists found, names = [found] /\
                 strings.EqualFold found serviceVMSetName = true
  end.
Proof.
  unfold FlexScaleSet.GetVMSetNames, FlexScaleSet.GetAgentPoolVMSetNames.
  destruct (getServiceLoadBalancerMode methods service) as [[hasMode isAuto] name].
  cbn zeta.
  destruct (negb hasMode || _) eqn:Edefault.
  { intros [= <- <-]. now exists [PrimaryScaleSetName fs]. }
  apply orb_false_elim in Edefault as [Hmode Hsingle]. apply negb_false_iff in Hmode.
  destruct (FlexScaleSet.vmSetNamesOf fs nodes []) as [names|] eqn:Enames; cbn [obind deref];
    [|discriminate].
  apply vmSetNamesOf_spec in Enames as (more & -> & Hlen & Hsound & Hcomplete).
  rewrite app_nil_l.
  destruct isAuto; cbn [negb].
  - intros [= <- <-]. exists more. auto.
  - destruct (foundAmong more name) as [found|] eqn:Efound.
    + intros [= <- <-]. apply foundAmong_some in Efound as [Hin Hfold].
      exists [found]. split; [reflexivity|]. split; [destruct nodes; [|simpl; lia]|].
      { destruct (Hsound found Hin) as (n & Hn & _). inversion Hn. }
      split; [|now exists found].
      intros n ->%list_elem_of_singleton. now apply Hsound.
    + intros [= <- <-]. repeat split; auto.
      intros node n Hnode Hname. apply (foundAmong_none _ _ Efound). now apply (Hcomplete node).
Qed.

End VMSets.

Section PrivateIPs.

Import availabilitySet.

Lemma appendPrivateIPs_spec (configs : list network.InterfaceIPConfiguration)
      (ips0 ips : list string) :
  appendPrivateIPs configs ips0 = Done ips -> ips = (ips0 ++ privateIPsOf configs)%list.
Proof.
  revert ips0. induction configs as [|c configs IH]; intros ips0; simpl.
  - intros [= <-]. now rewrite app_nil_r.
  - unfold privateIPsOf. cbn [omap list_omap]. fold (privateIPsOf configs).
    destruct (network.ipc_Properties c) as [props|]; cbn [deref obind mbind option_bind];
      [|discriminate].
    intros Hrun. apply IH in Hrun as ->.
    destruct (network.PrivateIPAddress props); [now rewrite <- app_assoc|reflexivity].
Qed.

Lemma asResolution_reads (az : Cloud) (c : resolution) (w w' : World)
      (r : network.Interface * string * option error) :
  asResolution az c w = Done (r, w') -> w' = w.
Proof.
  destruct c as [|e|rg nm avid]; simpl; [discriminate|intros [= _ <-]; reflexivity|].
  unfold bind, InterfacesClient_Get, ret.
  destruct (InterfacesClient_GetError az rg nm); [intros [= _ <-]; reflexivity|].
  destruct (nics w !! (rg, nm)); intros [= _ <-]; reflexivity.
Qed.

Lemma fsResolution_reads (az : Cloud) (c : resolution) (w w' : World)
      (r : network.Interface * option error) :
  fsResolution az c w = Done (r, w') -> w' = w.
Proof.
  destruct c as [|e|rg nm avid]; simpl; [discriminate|intros [= _ <-]; reflexivity|].
  unfold bind, InterfacesClient_Get, ret.
  destruct (InterfacesClient_GetError az rg nm); [intros [= _ <-]; reflexivity|].
  destruct (nics w !! (rg, nm)); intros [= _ <-]; reflexivity.
Qed.

Lemma as_GetPrimaryInterface_reads (az : Cloud) (name : string) (w w' : World)
      (r : network.Interface * option error) :
  GetPrimaryInterface az name w = Done (r, w') -> w' = w.
Proof.
  unfold GetPrimaryInterface. destruct (as_resolution az name "") as [c ->].
  unfold bind. destruct (asResolution az c w) as [[[[nic avid] err] w1]|] eqn:Eres;
    [|discriminate].
  apply asResolution_reads in Eres as ->. now intros [= _ <-].
Qed.

Lemma fs_GetPrimaryInterface_reads (az : Cloud) (name : string) (w w' : World)
      (r : network.Interface * option error) :
  FlexScaleSet.GetPrimaryInterface az name w = Done (r, w') -> w' = w.
Proof.
  destruct (fs_resolution az name) as [c ->]. apply fsResolution_reads.
Qed.

(** What [GetPrivateIPsByNodeName] makes of the primary interface that
    [read] returns. *)
Lemma private_IPs_of (read : M (network.Interface * option error))
      (run : M (list string * option error)) :
  (forall w r w', read w = Done (r, w') -> w' = w) ->
  (forall w, run w =
     (let* (nic, err) := read in
      if err is Some e then ret ([], Some e) else
      let* props := lift (deref (network.nic_Properties nic)) in
      match network.IPConfigurations props with
      | None =>
          let* nicName := lift (deref (network.nic_Name nic)) in
          ret ([], Some (errorString ("nic.IPConfigurations for nic (nicname=" +:+ nicName
                                        +:+ ") is nil")))
      | Some configs =>
          let* ips := lift (appendPrivateIPs configs []) in
          ret (ips, None)
      end) w) ->
  forall w ips err w',
    run w = Done ((ips, err), w') ->
    w' = w /\
    match err with
    | Some _ => ips = []
    | None =>
        exists nic props configs,
          read w = Done ((nic, None), w) /\
          network.nic_Properties nic = Some props /\
          network.IPConfigurations props = Some configs /\
          ips = privateIPsOf configs
    end.
Proof.
  intros Hreads Hrun w ips err w'. rewrite Hrun. unfold bind, lift, ret.
  destruct (read w) as [[[nic [e|]] w1]|] eqn:Eread; [| |discriminate];
    apply Hreads in Eread as Hw; subst w1.
  - intros [= <- <- <-]. auto.
  - destruct (network.nic_Properties nic) as [props|] eqn:Ep; cbn [deref]; [|discriminate].
    destruct (network.IPConfigurations props) as [configs|] eqn:Ec.
    + destruct (appendPrivateIPs configs []) as [l|] eqn:El; [|discriminate].
      intros [= <- <- <-]. split; [reflexivity|]. exists nic, props, configs.
      apply appendPrivateIPs_spec in El. auto.
    + destruct (network.nic_Name nic); cbn [deref]; [|discriminate].
      intros [= <- <- <-]. auto.
Qed.

(** X18.  The private IPs of a node, in either resolver: the call writes
    nothing, returns no address with an error, and otherwise returns the
    private addresses of the IP configurations of the primary interface,
    in their order, the configurations without an address left out. *)
Theorem private_IPs_of_a_node (az : Cloud) (name : string) (w w' : World)
        (ips : list string) (err : option error) :
  (GetPrivateIPsByNodeName az name w = Done ((ips, err), w') ->
   w' = w /\
   match err with
   | Some _ => ips = []
   | None =>
       exists nic props configs,
         GetPrimaryInterface az name w = Done ((nic, None), w) /\
         network.nic_Properties nic = Some props /\
         network.IPConfigurations props = Some configs /\
         ips = privateIPsOf configs
   end) /\
  (FlexScaleSet.GetPrivateIPsByNodeName az name w = Done ((ips, err), w') ->
   w' = w /\
   match err with
   | Some _ => ips = []
   | None =>
       exists nic props configs,
         FlexScaleSet.GetPrimaryInterface az name w = Done ((nic, None), w) /\
         network.nic_Properties nic = Some props /\
         network.IPConfigurations props = Some configs /\
         ips = privateIPsOf configs
   end).
Proof.
  split.
  - apply (private_IPs_of (GetPrimaryInterface az name)); [|reflexivity].
    intros ? ? ?. apply as_GetPrimaryInterface_reads.
  - apply (private_IPs_of (FlexScaleSet.GetPrimaryInterface az name)); [|reflexivity].
    intros ? ? ?. apply fs_GetPrimaryInterface_reads.
Qed.

End PrivateIPs.

Section Joining.

Import availabilitySet.

Lemma ensureStep_joins (az : Cloud) (service : v1.Service) (backendPoolID : string)
      (v v' : network.Interface) :
  ensureStep az service backendPoolID v = Done (Some v') ->
  carriesPool az service backendPoolID v'.
Proof.
  unfold ensureStep.
  destruct (network.nic_Properties v) as [props|] eqn:Ep; cbn [deref obind]; [|discriminate].
  destruct (String.eqb _ _) eqn:Estate; [discriminate|].
  destruct (selectedIPConfig az service v) as [[primaryIPConfig [e|]]|] eqn:Esel;
    cbn [obind]; try discriminate.
  destruct (ipConfigProperties v primaryIPConfig) as [configProps|] eqn:Ecp;
    cbn [obind]; [|discriminate].
  destruct primaryIPConfig as [i|]; [|discriminate].
  destruct (foundPoolIn _ _) as [[|]|] eqn:Efound; cbn [obind]; try discriminate.
  destruct (if useStandardLoadBalancer az && _ then _ else _) as [[isSameLB old] [e|]];
    [discriminate|].
  destruct isSameLB; cbn [negb]; [|discriminate].
  change (default 0%nat (Some i)) with i.
  set (members := default [] (network.LoadBalancerBackendAddressPools configProps)) in *.
  set (pools := (members ++ _)%list).
  destruct (network.nic_Name (setBackendPools v i pools)) as [name|] eqn:Ename;
    cbn [deref obind]; [|discriminate].
  destruct (InterfacesClient_CreateOrUpdateError _ _ _ _); [discriminate|].
  intros [= <-].
  destruct (ipConfigProperties_setBackendPools v i pools configProps Ecp)
    as (configProps' & Ecp' & Epools').
  exists i, configProps', pools. rewrite selectedIPConfig_setBackendPools.
  split; [exact Esel|]. split; [exact Ecp'|]. split; [exact Epools'|].
  unfold pools. rewrite (foundPoolIn_app _ _ _ Efound). simpl.
  now rewrite EqualFold_refl.
Qed.

Lemma reconciled_footprint (az : Cloud) (service : v1.Service) (backendPoolID : string)
      (nic : network.Interface) (result : outcome (hostResult * World)) (w : World)
      (r : hostResult) (w' : World) :
  reconciled az (ensureStep az service backendPoolID nic) result w ->
  result = Done (r, w') ->
  nics w' = nics w \/
  exists name nic',
    nics w' = <[(ResourceGroup az, name) := nic']> (nics w) /\
    network.nic_Name nic' = Some name /\
    carriesPool az service backendPoolID nic'.
Proof.
  unfold reconciled.
  destruct (ensureStep az service backendPoolID nic) as [[nic'|]|] eqn:Estep.
  - intros (name & r0 & w0 & Hname & -> & Hstore) [= <- <-]. right.
    exists name, nic'. split; [exact Hstore|]. split; [exact Hname|].
    exact (ensureStep_joins _ _ _ _ _ Estep).
  - intros (r0 & w0 & -> & Hstore) [= <- <-]. now left.
  - intros ->. discriminate.
Qed.

(** X19.  What [EnsureHostInPool] writes, in either resolver: either the
    interfaces of the cloud are left as they were, or one interface is
    stored, under the resource group of the cloud and its own name, and it
    carries the requested pool in the IP configuration selected for the
    service. *)
Theorem host_update_writes_the_joined_interface
        (az : Cloud) (service : v1.Service) (nodeName backendPoolID vmSetName : string)
        (w w' : World) (r : hostResult) :
  EnsureHostInPool az service nodeName backendPoolID vmSetName w = Done (r, w') \/
  FlexScaleSet.EnsureHostInPool az service nodeName backendPoolID vmSetName w = Done (r, w') ->
  nics w' = nics w \/
  exists name nic',
    nics w' = <[(ResourceGroup az, name) := nic']> (nics w) /\
    network.nic_Name nic' = Some name /\
    carriesPool az service backendPoolID nic'.
Proof.
  intros [Hrun|Hrun].
  - rewrite as_EnsureHostInPool_unfold in Hrun.
    destruct (as_resolution az (mapNodeNameToVMName az nodeName) vmSetName) as [c Hc].
    rewrite Hc in Hrun. unfold bind in Hrun.
    destruct (asResolution az c w) as [[[[nic avid] err] w1]|] eqn:Eres; [|discriminate].
    apply asResolution_reads in Eres as ->.
    destruct err as [e|].
    + left. destruct (errors_Is e errNotInVMSet); now injection Hrun as _ <-.
    + exact (reconciled_footprint az service backendPoolID nic _ w r w'
               (asReconcile_step az service backendPoolID nic w) Hrun).
  - rewrite fs_EnsureHostInPool_unfold in Hrun. cbn zeta in Hrun.
    unfold bind, lift, ret in Hrun.
    destruct (FlexScaleSet.getNodeVmssFlexName az (mapNodeNameToVMName az nodeName))
      as [[vmssFlexName [e|]]|]; [now left; injection Hrun as _ <-| |discriminate].
    destruct (negb (useStandardLoadBalancer az)); [now left; injection Hrun as _ <-|].
    destruct (outsideScaleSet az vmSetName vmssFlexName); [now left; injection Hrun as _ <-|].
    destruct (fs_resolution az (mapNodeNameToVMName az nodeName)) as [c Hc].
    rewrite Hc in Hrun.
    destruct (fsResolution az c w) as [[[nic err] w1]|] eqn:Eres; [|discriminate].
    apply fsResolution_reads in Eres as ->.
    destruct err as [e|]; [now left; injection Hrun as _ <-|].
    exact (reconciled_footprint az service backendPoolID nic _ w r w'
             (fsReconcile_step az service backendPoolID _ vmssFlexName nic w) Hrun).
Qed.

End Joining.

Section Family.

Lemma firstIPConfigOfVersion_spec (configs : list network.InterfaceIPConfiguration)
      (ipVersion : string) (i : nat) (found : option nat) :
  firstIPConfigOfVersion configs ipVersion i = Done found ->
  match found with
  | Some k =>
      exists j config, k = i + j /\ configs !! j = Some config /\ ofFamily ipVersion config /\
        forall j' config', j' < j -> configs !! j' = Some config' -> ~ ofFamily ipVersion config'
  | None => forall config, config ∈ configs -> ~ ofFamily ipVersion config
  end.
Proof.
  revert i. induction configs as [|c configs IH]; intros i; simpl.
  - intros [= <-]. intros config Hin. inversion Hin.
  - destruct (network.ipc_Properties c) as [props|] eqn:Ep; cbn [deref obind]; [|discriminate].
    destruct ((if network.PrivateIPAddress props is Some _ then true else false) && _) eqn:Ehit.
    + intros [= <-]. exists 0, c. rewrite Nat.add_0_r. split; [reflexivity|].
      split; [reflexivity|]. split; [|intros ? ? Hlt; inversion Hlt].
      apply andb_prop in Ehit as [Haddr Hver]. apply String.eqb_eq in Hver.
      destruct (network.PrivateIPAddress props) as [address|] eqn:Ea; [|discriminate].
      now exists props, address.
    + assert (Hmiss : ~ ofFamily ipVersion c).
      { intros (p & address & Hp & Ha & Hv). rewrite Ep in Hp. injection Hp as <-.
        rewrite Ha, Hv, String.eqb_refl in Ehit. discriminate. }
      intros Hrun. specialize (IH _ Hrun). destruct found as [k|].
      * destruct IH as (j & config & -> & Hj & Hfam & Hfirst).
        exists (S j), config. split; [lia|]. split; [exact Hj|]. split; [exact Hfam|].
        intros [|j'] config' Hlt Hc'; [injection Hc' as <-; exact Hmiss|].
        apply (Hfirst j'); [lia|exact Hc'].
      * intros config [->|Hin]%elem_of_cons; [exact Hmiss|now apply IH].
Qed.

(** X20.  The IP configuration that [getIPConfigByIPFamily] returns is the
    first one of the interface that has a private address of the version
    asked for, and it comes without an error; none is returned, with an
    error, when no configuration of the interface is of that family. *)
Theorem IP_configuration_of_a_family (nic : network.Interface) (IPv6 : bool)
        (found : option nat) (err : option error) :
  getIPConfigByIPFamily nic IPv6 = Done (found, err) ->
  let ipVersion := if IPv6 then network.IPVersionIPv6 else network.IPVersionIPv4 in
  match found with
  | Some i =>
      err = None /\
      exists props configs config,
        network.nic_Properties nic = Some props /\
        network.IPConfigurations props = Some configs /\
        configs !! i = Some config /\ ofFamily ipVersion config /\
        forall j config', j < i -> configs !! j = Some config' -> ~ ofFamily ipVersion config'
  | None =>
      err <> None /\
      forall props configs config,
        network.nic_Properties nic = Some props ->
        network.IPConfigurations props = Some configs ->
        config ∈ configs -> ~ ofFamily ipVersion config
  end.
Proof.
  unfold getIPConfigByIPFamily.
  destruct (network.nic_Properties nic) as [props|] eqn:Ep; cbn [deref obind]; [|discriminate].
  destruct (network.IPConfigurations props) as [configs|] eqn:Ec.
  - cbn zeta.
    destruct (firstIPConfigOfVersion configs _ 0) as [hit|] eqn:Efirst; cbn [obind];
      [|discriminate].
    apply firstIPConfigOfVersion_spec in Efirst.
    destruct hit as [k|]; intros [= <- <-].
    + destruct Efirst as (j & config & -> & Hj & Hfam & Hfirst).
      split; [reflexivity|]. exists props, configs, config. auto.
    + split; [discriminate|]. intros p cs config [= <-] Hcs. rewrite Ec in Hcs.
      injection Hcs as <-. apply Efirst.
  - destruct (network.nic_Name nic); cbn [deref obind]; [|discriminate].
    intros [= <- <-]. split; [discriminate|]. intros p cs config [= <-] Hcs.
    rewrite Ec in Hcs. discriminate.
Qed.

End Family.

Lemma agent_pool_sets_are_those_of_the_workers_witness :
  exists sets,
    availabilitySet.getAgentPoolAvailabilitySets Sample.machines Fixture.clusterNodes
    = Done (Some sets, None) /\
    length sets <= 5 /\
    forall set, set ∈ sets -> setOfWorkerMachine Sample.machines Fixture.clusterNodes set.
Proof.
  assert (Hrun : exists sets,
             availabilitySet.getAgentPoolAvailabilitySets Sample.machines Fixture.clusterNodes
             = Done (Some sets, None)) by (eexists; vm_compute; reflexivity).
  destruct Hrun as [sets Hrun].
  destruct (agent_pool_sets_are_those_of_the_workers Sample.machines Fixture.clusterNodes
              (Some sets) None Hrun) as (sets' & [= <-] & Hlen & Hsets).
  exists sets. split; [exact Hrun|]. split; [exact Hlen|].
  intros set Hin. now apply Hsets.
Defined.

Lemma VM_sets_of_a_service_on_availability_sets_witness :
  availabilitySet.GetVMSetNames (Fixture.cloud false) Sample.methods Fixture.service
    Fixture.clusterNodes
  = Done (Some ["AgentPool"], None) /\
  exists sets found,
    availabilitySet.getAgentPoolAvailabilitySets Sample.machines Fixture.clusterNodes
    = Done (Some sets, None) /\
    found ∈ sets /\ strings.EqualFold found "AgentPool" = true.
Proof.
  assert (Hrun : availabilitySet.GetVMSetNames (Fixture.cloud false) Sample.methods
                   Fixture.service Fixture.clusterNodes
                 = Done (Some ["AgentPool"], None)) by (vm_compute; reflexivity).
  split; [exact Hrun|].
  destruct (VM_sets_of_a_service_on_availability_sets (Fixture.cloud false) Sample.methods
              Fixture.service Fixture.clusterNodes (Some ["AgentPool"]) None Hrun)
    as (names & _ & _ & sets & Hsets & _ & found & Hfound).
  now exists sets, found.
Defined.

Lemma VM_sets_of_a_service_on_flexible_scale_sets_witness :
  exists found,
    FlexScaleSet.GetVMSetNames (Fixture.cloud false) Sample.methods Fixture.service
      Fixture.clusterNodes
    = Done (Some [found], None) /\
    strings.EqualFold found "AgentPool" = true /\
    exists node, node ∈ Fixture.clusterNodes /\
      FlexScaleSet.GetNodeVMSetName (Fixture.cloud false) node = Done (found, None).
Proof.
  assert (Hrun : exists found,
             FlexScaleSet.GetVMSetNames (Fixture.cloud false) Sample.methods Fixture.service
               Fixture.clusterNodes
             = Done (Some [found], None)) by (eexists; vm_compute; reflexivity).
  destruct Hrun as [found Hrun].
  destruct (VM_sets_of_a_service_on_flexible_scale_sets (Fixture.cloud false) Sample.methods
              Fixture.service Fixture.clusterNodes (Some [found]) None Hrun)
    as (names & [= <-] & _ & Hnodes & found' & [= <-] & Hfold).
  exists found. split; [exact Hrun|]. split; [exact Hfold|].
  apply Hnodes. now apply list_elem_of_singleton.
Defined.

Lemma private_IPs_of_a_node_witness :
  availabilitySet.GetPrivateIPsByNodeName (Fixture.cloud false) "worker-0" Fixture.world
  = Done ((["10.240.0.4"], None), Fixture.world) /\
  exists nic props configs,
    availabilitySet.GetPrimaryInterface (Fixture.cloud false) "worker-0" Fixture.world
    = Done ((nic, None), Fixture.world) /\
    network.nic_Properties nic = Some props /\
    network.IPConfigurations props = Some configs /\
    ["10.240.0.4"] = privateIPsOf configs.
Proof.
  assert (Hrun : availabilitySet.GetPrivateIPsByNodeName (Fixture.cloud false) "worker-0"
                   Fixture.world
                 = Done ((["10.240.0.4"], None), Fixture.world)) by (vm_compute; reflexivity).
  split; [exact Hrun|].
  destruct (private_IPs_of_a_node (Fixture.cloud false) "worker-0" Fixture.world Fixture.world
              ["10.240.0.4"] None) as [Has _].
  destruct (Has Hrun) as [_ Hnic]. exact Hnic.
Defined.

Lemma host_update_writes_the_joined_interface_witness :
  exists r w',
    availabilitySet.EnsureHostInPool (Fixture.cloud true) Fixture.service "worker-0"
      (Fixture.lbA "pool-x") "" Fixture.world
    = Done (r, w') /\
    nics w' !! ("rg1", "worker-0-nic") <> nics Fixture.world !! ("rg1", "worker-0-nic") /\
    exists name nic',
      nics w' = <[("rg1", name) := nic']> (nics Fixture.world) /\
      network.nic_Name nic' = Some name /\
      carriesPool (Fixture.cloud true) Fixture.service (Fixture.lbA "pool-x") nic'.
Proof.
  assert (Hrun : exists r w',
             availabilitySet.EnsureHostInPool (Fixture.cloud true) Fixture.service "worker-0"
               (Fixture.lbA "pool-x") "" Fixture.world
             = Done (r, w') /\
             nics w' !! ("rg1", "worker-0-nic") <> nics Fixture.world !! ("rg1", "worker-0-nic")).
  { eexists. eexists. split; [vm_compute; reflexivity|]. vm_compute. discriminate. }
  destruct Hrun as (r & w' & Hrun & Hmoved).
  exists r, w'. split; [exact Hrun|]. split; [exact Hmoved|].
  destruct (host_update_writes_the_joined_interface (Fixture.cloud true) Fixture.service
              "worker-0" (Fixture.lbA "pool-x") "" Fixture.world w' r (or_introl Hrun))
    as [Hsame|Hstored]; [|exact Hstored].
  exfalso. apply Hmoved. now rewrite Hsame.
Defined.

Lemma IP_configuration_of_a_family_witness :
  exists props configs config,
    network.nic_Properties Sample.dualStackInterface = Some props /\
    network.IPConfigurations props = Some configs /\
    configs !! 1 = Some config /\ ofFamily network.IPVersionIPv6 config.
Proof.
  destruct (IP_configuration_of_a_family Sample.dualStackInterface true (Some 1) None eq_refl)
    as (_ & props & configs & config & Hp & Hc & Hi & Hfam & _).
  now exists props, configs, config.
Defined.
